(** * Batch data-quality pipeline: viajes_enriquecidos -> viajes_limpios

    A model of [lib/batch_process_data_quality.py]: the partition filter
    [aplicar_filtros], the partition worker [procesar_particion] and the
    result loop of the orchestrator [main], with the properties the
    specification states about them.

    Layout:
    - [Int64]: the fixed-width integer arithmetic of the numeric columns;
    - [Ieee]: the doubles of the Float64 columns and of Python's floats;
    - the Polars fragment the filter is written in: cells, rows, frames,
      expressions ([col], [fill_null], [+], [>], [&], [when/then/otherwise],
      [cast(Float64, strict=False)]) and the frame operations
      [with_columns], [filter], [drop];
    - [aplicar_filtros] and its statistics;
    - [procesar_particion] over an explicit environment, with the trace of
      the I/O calls it makes;
    - the aggregation loop and exit status of [main]. *)

From Stdlib Require Import ZArith QArith Qpower String Ascii List Permutation Lia.
From Stdlib Require Import Floats.SpecFloat.
From stdpp Require Import base gmap strings list pretty.

Local Open Scope string_scope.
Local Open Scope Z_scope.

(* ===================================================================== *)
(** ** Int64 arithmetic *)
(* ===================================================================== *)

(** The ingestion schema ([CSV_DTYPES] in process_data.py) types every
    column that the filter adds up ([tv1..tv4], [te0..te3], [tc1..tc3],
    [dveh_euc1..4], [dveh_eucfinal]) as [pl.Int64].  Polars adds Int64
    columns in two's complement: a sum that leaves the 64-bit range wraps
    around. *)
Module Int64.

Definition min_int : Z := - 2 ^ 63.
Definition max_int : Z := 2 ^ 63 - 1.

Definition in_range (z : Z) : Prop := min_int <= z <= max_int.

Definition wrap (z : Z) : Z := (z + 2 ^ 63) mod 2 ^ 64 - 2 ^ 63.

Definition add (a b : Z) : Z := wrap (a + b).

End Int64.

(* ===================================================================== *)
(** ** Float64 *)
(* ===================================================================== *)

(** A Float64 cell and a Python [float] are IEEE 754 binary64 numbers:
    the [spec_float] of the standard library at precision 53 and maximal
    exponent 1024, with its correctly rounded operations [SFdiv] and
    [SFmul]. *)
Module Ieee.

Definition prec : Z := 53.
Definition emax : Z := 1024.

Definition cero : spec_float := S754_zero false.

(** An integer as it stands, mantissa [z] and exponent 0, before any
    rounding. *)
Definition entero (z : Z) : spec_float :=
  match z with
  | Z0 => S754_zero false
  | Zpos p => S754_finite false p 0
  | Zneg p => S754_finite true p 0
  end.

(** [float(z)], and the cast of an Int64 cell to Float64: the nearest
    double. *)
Definition of_int (z : Z) : spec_float :=
  binary_normalize prec emax z 0 false.

(** [100.0] *)
Definition cien : spec_float := S754_finite false 7036874417766400 (-46).

(** Polars' [x > 0] on a Float64 cell.  Polars compares floats in a total
    order in which NaN is greater than every number, so NaN passes the
    test, as do the positive numbers and [+inf]. *)
Definition gt_zero (x : spec_float) : bool :=
  match SFcompare x cero with
  | Some Gt => true
  | Some _ => false
  | None => true
  end.

(** The rational that a finite double stands for. *)
Definition valor (x : spec_float) : Q :=
  match x with
  | S754_finite s m e => inject_Z (cond_Zopp s (Zpos m)) * 2 ^ e
  | _ => 0
  end.

End Ieee.

(** Greater than zero in Polars' order, cell by cell: NaN, [+inf] or a
    positive number. *)
Definition mayor_que_cero (x : spec_float) : Prop :=
  x = S754_nan \/ x = S754_infinity false \/
  exists m e, x = S754_finite false m e.

(* ===================================================================== *)
(** ** Exceptions and the error monad *)
(* ===================================================================== *)

(** The exceptions the pipeline can meet.  [ColumnNotFoundError] and
    [InvalidOperationError] are raised by Polars, [ZeroDivisionError] by
    Python's [/]; [OtraExcepcion tipo msg] stands for everything the
    storage layer raises (missing credentials, network and file errors). *)
Inductive exn : Type :=
  | ColumnNotFoundError (c : string)
  | InvalidOperationError
  | ZeroDivisionError
  | OtraExcepcion (tipo : string) (mensaje : string).

(** [str(e)] *)
Definition str_exn (e : exn) : string :=
  match e with
  | ColumnNotFoundError c => c
  | InvalidOperationError => "invalid operation"
  | ZeroDivisionError => "division by zero"
  | OtraExcepcion _ m => m
  end.

Inductive res (A : Type) : Type :=
  | Ok (a : A)
  | Err (e : exn).
Arguments Ok {A} a.
Arguments Err {A} e.

Definition res_bind {A B} (m : res A) (k : A -> res B) : res B :=
  match m with
  | Ok a => k a
  | Err e => Err e
  end.

Notation "'let*' x ':=' m 'in' k" := (res_bind m (fun x => k))
  (at level 10, x pattern, m at level 200, k at level 200, only parsing).

Fixpoint mapM_res {A B} (f : A -> res B) (l : list A) : res (list B) :=
  match l with
  | [] => Ok []
  | x :: l' =>
      let* y := f x in
      let* ys := mapM_res f l' in
      Ok (y :: ys)
  end.

Fixpoint filterM_res {A} (f : A -> res bool) (l : list A) : res (list A) :=
  match l with
  | [] => Ok []
  | x :: l' =>
      let* b := f x in
      let* ys := filterM_res f l' in
      Ok (if b then x :: ys else ys)
  end.

(* ===================================================================== *)
(** ** The Polars fragment *)
(* ===================================================================== *)

(** What the frame operations use of Float64: the non-strict parse of a
    string ([None] when the text is not a number), the conversion of an
    integer, and the test [x > 0].  The properties that do not depend on
    what a float is are proved over this interface; [float64_ieee] below
    is Polars' Float64. *)
Class Float64 (F : Type) : Type := {
  f64_of_string : string -> option F;
  f64_of_int : Z -> F;
  f64_gt_zero : F -> bool
}.

(** The parse of [cast(pl.Float64, strict=False)] on a Utf8 cell: the
    double read from the text, or nothing when the text is not a
    number. *)
Class CastUtf8 : Type := cast_utf8 : string -> option spec_float.

(** Polars' Float64: doubles, with [>] in Polars' total order. *)
#[global] Instance float64_ieee `{CastUtf8} : Float64 spec_float := {|
  f64_of_string := cast_utf8;
  f64_of_int := Ieee.of_int;
  f64_gt_zero := Ieee.gt_zero
|}.

Section Polars.

Context {F : Type} `{Float64 F}.

(** A cell of a frame. *)
Inductive value : Type :=
  | VNull
  | VInt (z : Z)
  | VFloat (x : F)
  | VStr (s : string)
  | VBool (b : bool).

(** A record of the frame: column name to cell; a name without entry
    reads as null. *)
Definition row : Type := gmap string value.

Definition cell (r : row) (c : string) : value := default VNull (r !! c).

Record DataFrame : Type := {
  columns : list string;
  rows : list row
}.

(** [len(df)] *)
Definition len (df : DataFrame) : Z := Z.of_nat (length (rows df)).

(** The expressions [pl.col(...)...] that the filter builds. *)
Inductive Expr : Type :=
  | col (c : string)
  | fill_null (e : Expr) (z : Z)
  | add (e1 e2 : Expr)
  | gt_zero (e : Expr)
  | is_null (e : Expr)
  | is_not_null (e : Expr)
  | and_ (e1 e2 : Expr)
  | when_then_otherwise (c t o : Expr)
  | cast_float64 (e : Expr).

Fixpoint columnas_usadas (e : Expr) : list string :=
  match e with
  | col c => [c]
  | fill_null e _ | gt_zero e | is_null e | is_not_null e
  | cast_float64 e => columnas_usadas e
  | add e1 e2 | and_ e1 e2 => columnas_usadas e1 ++ columnas_usadas e2
  | when_then_otherwise c t o =>
      columnas_usadas c ++ columnas_usadas t ++ columnas_usadas o
  end.

Definition v_fill_null (v : value) (z : Z) : value :=
  match v with
  | VNull => VInt z
  | _ => v
  end.

(** [+] on Int64 cells; null is absorbing.  The filter adds Int64 columns
    only; operands of another dtype are outside the trip schema and the
    model refuses them. *)
Definition v_add (a b : value) : res value :=
  match a, b with
  | VInt x, VInt y => Ok (VInt (Int64.add x y))
  | VNull, (VNull | VInt _) | VInt _, VNull => Ok VNull
  | _, _ => Err InvalidOperationError
  end.

(** [> 0] on a numeric cell; null compares to null. *)
Definition v_gt_zero (a : value) : res value :=
  match a with
  | VInt x => Ok (VBool (0 <? x))
  | VFloat x => Ok (VBool (f64_gt_zero x))
  | VNull => Ok VNull
  | _ => Err InvalidOperationError
  end.

Definition v_is_null (a : value) : bool :=
  match a with
  | VNull => true
  | _ => false
  end.

(** [&] on nullable booleans (Kleene): false wins over null. *)
Definition v_and (a b : value) : res value :=
  match a, b with
  | VBool x, VBool y => Ok (VBool (x && y))
  | VBool false, VNull | VNull, VBool false => Ok (VBool false)
  | VBool true, VNull | VNull, VBool true | VNull, VNull => Ok VNull
  | _, _ => Err InvalidOperationError
  end.

(** [when(c).then(t).otherwise(o)]: a null condition selects [o]. *)
Definition v_when (c t o : value) : res value :=
  match c with
  | VBool true => Ok t
  | VBool false | VNull => Ok o
  | _ => Err InvalidOperationError
  end.

(** [cast(pl.Float64, strict=False)]: never raises; text that is not a
    number becomes null. *)
Definition v_cast_float64 (a : value) : value :=
  match a with
  | VNull => VNull
  | VInt z => VFloat (f64_of_int z)
  | VFloat x => VFloat x
  | VStr s => match f64_of_string s with
              | Some x => VFloat x
              | None => VNull
              end
  | VBool b => VFloat (f64_of_int (if b then 1 else 0))
  end.

Fixpoint eval (r : row) (e : Expr) : res value :=
  match e with
  | col c => Ok (cell r c)
  | fill_null e z => let* v := eval r e in Ok (v_fill_null v z)
  | add e1 e2 => let* a := eval r e1 in let* b := eval r e2 in v_add a b
  | gt_zero e => let* a := eval r e in v_gt_zero a
  | is_null e => let* a := eval r e in Ok (VBool (v_is_null a))
  | is_not_null e => let* a := eval r e in Ok (VBool (negb (v_is_null a)))
  | and_ e1 e2 => let* a := eval r e1 in let* b := eval r e2 in v_and a b
  | when_then_otherwise c t o =>
      let* vc := eval r c in
      let* vt := eval r t in
      let* vo := eval r o in
      v_when vc vt vo
  | cast_float64 e => let* a := eval r e in Ok (v_cast_float64 a)
  end.

(** An expression over a column the frame does not have raises, whatever
    the number of rows. *)
Fixpoint comprobar_columnas (cols : list string) (used : list string)
  : res unit :=
  match used with
  | [] => Ok tt
  | c :: used' =>
      if bool_decide (c ∈ cols) then comprobar_columnas cols used'
      else Err (ColumnNotFoundError c)
  end.

(** A new name is appended to the schema, an existing one keeps its
    place. *)
Definition agregar_columna (cols : list string) (c : string) : list string :=
  if bool_decide (c ∈ cols) then cols else cols ++ [c].

Definition agregar_columnas (cols : list string) (cs : list string)
  : list string :=
  fold_left agregar_columna cs cols.

Fixpoint asignar (r : row) (nvs : list (string * value)) : row :=
  match nvs with
  | [] => r
  | (n, v) :: nvs' => asignar (<[n := v]> r) nvs'
  end.

(** [df.with_columns([e1.alias(n1), ...])]: every expression is evaluated
    on the frame as it was, then the columns are set. *)
Definition with_columns (es : list (string * Expr)) (df : DataFrame)
  : res DataFrame :=
  let* _ := comprobar_columnas (columns df)
            (concat (map (fun ne => columnas_usadas (snd ne)) es)) in
  let* rs := mapM_res
               (fun r =>
                  let* vs := mapM_res
                               (fun ne => let* v := eval r (snd ne) in
                                          Ok (fst ne, v)) es in
                  Ok (asignar r vs))
               (rows df) in
  Ok {| columns := agregar_columnas (columns df) (map fst es);
        rows := rs |}.

(** The mask of [df.filter(e)]: a null mask drops the row. *)
Definition mascara (e : Expr) (r : row) : res bool :=
  let* v := eval r e in
  match v with
  | VBool b => Ok b
  | VNull => Ok false
  | _ => Err InvalidOperationError
  end.

Definition filter (e : Expr) (df : DataFrame) : res DataFrame :=
  let* _ := comprobar_columnas (columns df) (columnas_usadas e) in
  let* rs := filterM_res (mascara e) (rows df) in
  Ok {| columns := columns df; rows := rs |}.

Definition quitar (r : row) (cs : list string) : row :=
  fold_left (fun acc c => delete c acc) cs r.

(** [df.drop(cs)] *)
Definition drop (cs : list string) (df : DataFrame) : res DataFrame :=
  let* _ := comprobar_columnas (columns df) cs in
  Ok {| columns := List.filter (fun c => negb (bool_decide (c ∈ cs)))
                     (columns df);
        rows := map (fun r => quitar r cs) (rows df) |}.

End Polars.

Arguments value F : clear implicits.
Arguments row F : clear implicits.
Arguments DataFrame F : clear implicits.

Notation "a +' b" := (add a b) (at level 50, left associativity).
Notation "a &' b" := (and_ a b) (at level 57, left associativity).

(* ===================================================================== *)
(** ** The partition filter *)
(* ===================================================================== *)

(** A Python number: an [int] or a [float]. *)
Inductive Numero : Type :=
  | NInt (z : Z)
  | NFloat (x : spec_float).

(** The statistics dictionary that [aplicar_filtros] returns.  The counts
    are Python integers; [pct_retenido] is the float computed by [/] and
    [*], or the integer [0] of the guard. *)
Record Stats : Type := {
  n_inicial : Z;
  n_filtrados_tiempo : Z;
  n_filtrados_paraderos : Z;
  n_filtrados_dist : Z;
  n_final : Z;
  pct_retenido : Numero
}.

(** Python's [a / b] on integers: the double nearest to the exact
    quotient of the two integers, rounded once. *)
Definition truediv (a b : Z) : res spec_float :=
  if b =? 0 then Err ZeroDivisionError
  else Ok (SFdiv Ieee.prec Ieee.emax (Ieee.entero a) (Ieee.entero b)).

(** [(n_final / n_inicial * 100) if n_inicial > 0 else 0]: the quotient
    is a float, [100] is converted to [100.0] and the product is rounded
    again. *)
Definition calcular_pct (n_final n_inicial : Z) : res Numero :=
  if 0 <? n_inicial then
    let* q := truediv n_final n_inicial in
    Ok (NFloat (SFmul Ieee.prec Ieee.emax q (Ieee.of_int 100)))
  else Ok (NInt 0).

Definition columnas_temporales : list string :=
  ["distancia_ruta_float"; "distancia_eucl_float"].

Section Filtro.

Context {F : Type} `{Float64 F}.

(** The three derived columns of the first [with_columns]. *)
Definition expr_t_vehiculo_total_seg : Expr :=
  fill_null (col "tv1") 0 +' fill_null (col "tv2") 0 +'
  fill_null (col "tv3") 0 +' fill_null (col "tv4") 0.

Definition expr_t_total_calculado_seg : Expr :=
  fill_null (col "te0") 0 +' fill_null (col "tv1") 0 +'
  fill_null (col "tc1") 0 +'
  fill_null (col "te1") 0 +' fill_null (col "tv2") 0 +'
  fill_null (col "tc2") 0 +'
  fill_null (col "te2") 0 +' fill_null (col "tv3") 0 +'
  fill_null (col "tc3") 0 +'
  fill_null (col "te3") 0 +' fill_null (col "tv4") 0.

Definition expr_d_vehiculo_eucl_total_m : Expr :=
  fill_null (col "dveh_euc1") 0 +' fill_null (col "dveh_euc2") 0 +'
  fill_null (col "dveh_euc3") 0 +' fill_null (col "dveh_euc4") 0.

Definition columnas_calculadas : list (string * Expr) :=
  [("t_vehiculo_total_seg", expr_t_vehiculo_total_seg);
   ("t_total_calculado_seg", expr_t_total_calculado_seg);
   ("d_vehiculo_eucl_total_m", expr_d_vehiculo_eucl_total_m)].

(** A) the filter on times *)
Definition filtro_tiempo : Expr :=
  gt_zero (col "t_vehiculo_total_seg") &'
  gt_zero (col "t_total_calculado_seg").

(** B) the filter on stops *)
Definition filtro_paraderos : Expr :=
  is_not_null (col "paradero_inicio_viaje") &'
  is_not_null (col "paradero_fin_viaje").

(** C) imputation, parsed distances and the filter on distances *)
Definition imputar_dveh_eucfinal : list (string * Expr) :=
  [("dveh_eucfinal",
    when_then_otherwise (is_null (col "dveh_eucfinal"))
      (col "d_vehiculo_eucl_total_m")
      (col "dveh_eucfinal"))].

Definition distancias_float : list (string * Expr) :=
  [("distancia_ruta_float", cast_float64 (col "distancia_ruta"));
   ("distancia_eucl_float", cast_float64 (col "distancia_eucl"))].

Definition filtro_distancias : Expr :=
  is_not_null (col "distancia_ruta_float") &'
  gt_zero (col "distancia_ruta_float") &'
  is_not_null (col "distancia_eucl_float") &'
  gt_zero (col "distancia_eucl_float") &'
  is_not_null (col "dveh_eucfinal") &'
  gt_zero (col "dveh_eucfinal").

(** Stage 1: derived columns, then the filter on times. *)
Definition etapa_tiempo (df : DataFrame F) : res (DataFrame F) :=
  let* df := with_columns columnas_calculadas df in
  filter filtro_tiempo df.

(** Stage 2. *)
Definition etapa_paraderos (df : DataFrame F) : res (DataFrame F) :=
  filter filtro_paraderos df.

(** Stage 3, up to and including the filter. *)
Definition etapa_distancias (df : DataFrame F) : res (DataFrame F) :=
  let* df := with_columns imputar_dveh_eucfinal df in
  let* df := with_columns distancias_float df in
  filter filtro_distancias df.

(** The removal of the temporary columns. *)
Definition eliminar_temporales (df : DataFrame F) : res (DataFrame F) :=
  let columnas_a_eliminar :=
    List.filter (fun c => bool_decide (c ∈ columns df)) columnas_temporales in
  match columnas_a_eliminar with
  | [] => Ok df
  | _ => drop columnas_a_eliminar df
  end.

Definition aplicar_filtros (df : DataFrame F)
  : res (DataFrame F * Stats) :=
  let n_inicial := len df in
  let* df := etapa_tiempo df in
  let n_despues_tiempo := len df in
  let n_filtrados_tiempo := n_inicial - n_despues_tiempo in
  let* df := etapa_paraderos df in
  let n_despues_paraderos := len df in
  let n_filtrados_paraderos := n_despues_tiempo - n_despues_paraderos in
  let* df := etapa_distancias df in
  let* df := eliminar_temporales df in
  let n_final := len df in
  let n_filtrados_dist := n_despues_paraderos - n_final in
  let* pct := calcular_pct n_final n_inicial in
  Ok (df,
      {| n_inicial := n_inicial;
         n_filtrados_tiempo := n_filtrados_tiempo;
         n_filtrados_paraderos := n_filtrados_paraderos;
         n_filtrados_dist := n_filtrados_dist;
         n_final := n_final;
         pct_retenido := pct |}).

End Filtro.

(** A carrier for concrete frames: the floats that are whole numbers,
    written as unsigned decimal literals. *)
Module Decimal.

Definition digito (a : Ascii.ascii) : option Z :=
  let n := Z.of_nat (Ascii.nat_of_ascii a) in
  if (48 <=? n) && (n <=? 57) then Some (n - 48) else None.

Fixpoint leer (acc : Z) (s : string) : option Z :=
  match s with
  | EmptyString => Some acc
  | String a s' =>
      match digito a with
      | Some d => leer (10 * acc + d) s'
      | None => None
      end
  end.

Definition parse (s : string) : option Z :=
  match s with
  | EmptyString => None
  | _ => leer 0 s
  end.

#[global] Instance float64 : Float64 Z := {|
  f64_of_string := parse;
  f64_of_int := fun z => z;
  f64_gt_zero := fun z => 0 <? z
|}.

End Decimal.

Definition fila (l : list (string * value Z)) : row Z := list_to_map l.

Definition ejemplo_cols : list string :=
  ["tv1"; "tv2"; "tv3"; "tv4"; "te0"; "te1"; "te2"; "te3";
   "tc1"; "tc2"; "tc3";
   "dveh_euc1"; "dveh_euc2"; "dveh_euc3"; "dveh_euc4"; "dveh_eucfinal";
   "distancia_ruta"; "distancia_eucl";
   "paradero_inicio_viaje"; "paradero_fin_viaje"].

Definition ejemplo_fila : row Z :=
  fila [("tv1", VInt 100); ("tv2", VNull); ("tv3", VInt 50); ("tv4", VInt 0);
        ("te0", VInt 10);
        ("dveh_euc1", VInt 70); ("dveh_euc3", VInt 50);
        ("dveh_eucfinal", VNull);
        ("distancia_ruta", VStr "1500"); ("distancia_eucl", VStr "1200");
        ("paradero_inicio_viaje", VStr "PA1");
        ("paradero_fin_viaje", VStr "PB2")].

Definition ejemplo_df : DataFrame Z :=
  {| columns := ejemplo_cols; rows := [ejemplo_fila] |}.

(* ===================================================================== *)
(** ** What the filter does to one record *)
(* ===================================================================== *)

Definition tiempos_vehiculo : list string := ["tv1"; "tv2"; "tv3"; "tv4"].

Definition tiempos_todos : list string :=
  ["te0"; "tv1"; "tc1"; "te1"; "tv2"; "tc2"; "te2"; "tv3"; "tc3"; "te3";
   "tv4"].

Definition tramos_eucl : list string :=
  ["dveh_euc1"; "dveh_euc2"; "dveh_euc3"; "dveh_euc4"].

(** The columns the filter reads as Int64. *)
Definition columnas_enteras : list string :=
  tiempos_todos ++ tramos_eucl ++ ["dveh_eucfinal"].

(** The columns the filter reads at all. *)
Definition columnas_requeridas : list string :=
  columnas_enteras ++
  ["paradero_inicio_viaje"; "paradero_fin_viaje";
   "distancia_ruta"; "distancia_eucl"].

Definition columnas_derivadas : list string :=
  ["t_vehiculo_total_seg"; "t_total_calculado_seg";
   "d_vehiculo_eucl_total_m"].

Section Registro.

Context {F : Type} `{Float64 F}.

Definition es_entero_o_null (v : value F) : bool :=
  match v with
  | VNull | VInt _ => true
  | _ => false
  end.

(** A trip record: its Int64 cells hold an integer or null. *)
Definition fila_viaje (r : row F) : bool :=
  forallb (fun c => es_entero_o_null (cell r c)) columnas_enteras.

(** A trip frame: the columns the filter reads are there, and every row
    is a trip record. *)
Definition trip_frame (df : DataFrame F) : bool :=
  forallb (fun c => bool_decide (c ∈ columns df)) columnas_requeridas &&
  forallb fila_viaje (rows df).

(** The integer in a cell, null counted as 0. *)
Definition z_cell (r : row F) (c : string) : Z :=
  match cell r c with
  | VInt z => z
  | _ => 0
  end.

(** The null-safe sum of the cells [cs] of [r], as an integer. *)
Definition suma_null_safe (r : row F) (cs : list string) : Z :=
  fold_right (fun c acc => z_cell r c + acc) 0 cs.

(** The same sum as the Int64 column holds it. *)
Definition suma_int64 (r : row F) (cs : list string) : Z :=
  Int64.wrap (suma_null_safe r cs).

Definition t_vehiculo_total_seg (r : row F) : Z :=
  suma_int64 r tiempos_vehiculo.
Definition t_total_calculado_seg (r : row F) : Z :=
  suma_int64 r tiempos_todos.
Definition d_vehiculo_eucl_total_m (r : row F) : Z :=
  suma_int64 r tramos_eucl.

(** The record with its three derived cells. *)
Definition derivar (r : row F) : row F :=
  <["d_vehiculo_eucl_total_m" := VInt (d_vehiculo_eucl_total_m r)]>
    (<["t_total_calculado_seg" := VInt (t_total_calculado_seg r)]>
       (<["t_vehiculo_total_seg" := VInt (t_vehiculo_total_seg r)]> r)).

Definition pasa_tiempo (r : row F) : bool :=
  (0 <? t_vehiculo_total_seg r) && (0 <? t_total_calculado_seg r).

Definition pasa_paraderos (r : row F) : bool :=
  negb (v_is_null (cell r "paradero_inicio_viaje")) &&
  negb (v_is_null (cell r "paradero_fin_viaje")).

(** [dveh_eucfinal] after the imputation. *)
Definition dveh_eucfinal_imputado (r : row F) : value F :=
  match cell r "dveh_eucfinal" with
  | VNull => VInt (d_vehiculo_eucl_total_m r)
  | v => v
  end.

Definition distancia_ruta_float (r : row F) : value F :=
  v_cast_float64 (cell r "distancia_ruta").
Definition distancia_eucl_float (r : row F) : value F :=
  v_cast_float64 (cell r "distancia_eucl").

(** Non-null and strictly positive. *)
Definition positivo (v : value F) : bool :=
  match v with
  | VInt z => 0 <? z
  | VFloat x => f64_gt_zero x
  | _ => false
  end.

Definition pasa_distancias (r : row F) : bool :=
  positivo (distancia_ruta_float r) &&
  positivo (distancia_eucl_float r) &&
  positivo (dveh_eucfinal_imputado r).

(** The record as stage 3 filters it. *)
Definition con_distancias (r : row F) : row F :=
  <["distancia_eucl_float" := distancia_eucl_float r]>
    (<["distancia_ruta_float" := distancia_ruta_float r]>
       (<["dveh_eucfinal" := dveh_eucfinal_imputado r]> (derivar r))).

(** The record as the filter returns it. *)
Definition registro_salida (r : row F) : row F :=
  quitar (con_distancias r) columnas_temporales.

End Registro.

(** [fill_null(0)] of the columns [cs] added to [e0] from left to right,
    the shape of the three sums of the source. *)
Definition sumar (e0 : Expr) (cs : list string) : Expr :=
  fold_left (fun acc c => acc +' fill_null (col c) 0) cs e0.

(** The schema of the returned frame. *)
Definition columnas_salida (cols : list string) : list string :=
  List.filter (fun c => negb (bool_decide (c ∈ columnas_temporales)))
    (agregar_columnas (agregar_columnas cols columnas_derivadas)
       columnas_temporales).

(** The retained percentage in closed form. *)
Definition pct_de (n_final n_inicial : Z) : Numero :=
  if 0 <? n_inicial
  then NFloat (SFmul Ieee.prec Ieee.emax
                 (SFdiv Ieee.prec Ieee.emax
                    (Ieee.entero n_final) (Ieee.entero n_inicial))
                 (Ieee.of_int 100))
  else NInt 0.

(** A double between 0 and 100: zero, or a positive mantissa [m] and an
    exponent [e] with [m * 2^e <= 100 = 25 * 2^2]. *)
Definition hasta_cien (x : spec_float) : Prop :=
  x = S754_zero false \/
  exists m e, x = S754_finite false m e /\
              e <= -46 /\ Zpos m <= 25 * 2 ^ (2 - e).

(** A mantissa with its two rounding bits, below the bound [c * 2^k] and
    exact when it reaches it. *)
Definition acotado (c k : Z) (mrs : shr_record) : Prop :=
  0 <= shr_m mrs <= c * 2 ^ k /\
  (shr_m mrs = c * 2 ^ k -> shr_r mrs = false /\ shr_s mrs = false).

(** The largest exponent of a double that is at most [c * 2^t]. *)
Definition tope (c t : Z) : Z := Zdigits2 c + t - Ieee.prec.

(* ===================================================================== *)
(** ** The partition worker *)
(* ===================================================================== *)

Definition GCS_BUCKET : string := "tesis-vonetto-datalake".
Definition SILVER_PATH : string := GCS_BUCKET ++ "/lake/silver".
Definition INPUT_PATH : string := SILVER_PATH ++ "/viajes_enriquecidos".
Definition OUTPUT_PATH : string := SILVER_PATH ++ "/viajes_limpios".

(** A partition descriptor. *)
Record Particion : Type := {
  year : Z;
  week : Z;
  path : string
}.

(** The dictionary a worker returns, by its ['status']. *)
Inductive Resultado : Type :=
  | Success (y w : Z) (stats : Stats)
  | Skipped (y w : Z)
  | Error (y w : Z) (error : string).

(** [f"{OUTPUT_PATH}/iso_year={year}/iso_week={week}"] *)
Definition output_partition (p : Particion) : string :=
  OUTPUT_PATH ++ "/iso_year=" ++ pretty (year p)
              ++ "/iso_week=" ++ pretty (week p).

(** [f"{output_partition}/data-0.parquet"] *)
Definition output_file (p : Particion) : string :=
  output_partition p ++ "/data-0.parquet".

(** The calls a worker makes on the storage layer and the collector. *)
Inductive Evento : Type :=
  | EvCredenciales
  | EvExists (f : string)
  | EvOpenInputFile (f : string)
  | EvReadTable (f : string)
  | EvMakedirs (d : string)
  | EvOpenOutput (f : string)
  | EvWriteParquet (f : string)
  | EvGcCollect.

(** How a call of the worker ends. *)
Inductive Salida : Type :=
  | Devuelve (r : Resultado)
  | Propaga (e : exn).

Section Worker.

Context {F : Type} `{Float64 F}.

(** The Arrow table [pq.read_table] returns. *)
Record Tabla : Type := { contenido : DataFrame F }.

(** The world a worker runs in: what each call on the storage layer
    answers, and the text [traceback.format_exc()] gives for an
    exception being handled. *)
Record Entorno : Type := {
  credenciales : res unit;
  gfs_exists : string -> res bool;
  open_input_file : string -> res unit;
  read_table : string -> res Tabla;
  from_arrow : Tabla -> res (DataFrame F);
  gfs_makedirs : string -> res unit;
  gfs_open_wb : string -> res unit;
  write_parquet : string -> DataFrame F -> res unit;
  format_exc : exn -> string
}.

(** The large structures a worker holds, and the calls made so far. *)
Record Estado : Type := {
  tabla : option Tabla;
  df : option (DataFrame F);
  df_filtrado : option (DataFrame F);
  traza : list Evento
}.

Definition estado_inicial : Estado :=
  {| tabla := None; df := None; df_filtrado := None; traza := [] |}.

Definition registrar (ev : Evento) (st : Estado) : Estado :=
  {| tabla := tabla st; df := df st; df_filtrado := df_filtrado st;
     traza := (traza st ++ [ev])%list |}.

Definition set_tabla (t : option Tabla) (st : Estado) : Estado :=
  {| tabla := t; df := df st; df_filtrado := df_filtrado st;
     traza := traza st |}.

Definition set_df (d : option (DataFrame F)) (st : Estado) : Estado :=
  {| tabla := tabla st; df := d; df_filtrado := df_filtrado st;
     traza := traza st |}.

Definition set_df_filtrado (d : option (DataFrame F)) (st : Estado)
  : Estado :=
  {| tabla := tabla st; df := df st; df_filtrado := d; traza := traza st |}.

(** A step of the worker: a result or an exception, and the state it
    leaves. *)
Definition W (A : Type) : Type := Estado -> res A * Estado.

Definition retW {A} (a : A) : W A := fun st => (Ok a, st).

Definition bindW {A B} (m : W A) (k : A -> W B) : W B :=
  fun st =>
    match m st with
    | (Ok a, st') => k a st'
    | (Err e, st') => (Err e, st')
    end.

Notation "'let+' x ':=' m 'in' k" := (bindW m (fun x => k))
  (at level 10, x pattern, m at level 200, k at level 200, only parsing).

(** A call on the outside world, written to the trace. *)
Definition llamar {A} (ev : Evento) (r : res A) : W A :=
  fun st => (r, registrar ev st).

(** A computation that touches neither the world nor the state. *)
Definition puro {A} (r : res A) : W A := fun st => (r, st).

Definition modificar (f : Estado -> Estado) : W unit :=
  fun st => (Ok tt, f st).

(** The body of the second [try]. *)
Definition leer_filtrar_guardar (env : Entorno) (particion : Particion)
  : W Resultado :=
  let input_file := path particion in
  let+ _ := llamar (EvOpenInputFile input_file)
              (open_input_file env input_file) in
  let+ t := llamar (EvReadTable input_file) (read_table env input_file) in
  let+ _ := modificar (set_tabla (Some t)) in
  let+ d := puro (from_arrow env t) in
  let+ _ := modificar (set_df (Some d)) in
  (* del tabla; tabla = None; gc.collect() *)
  let+ _ := modificar (set_tabla None) in
  let+ _ := llamar EvGcCollect (Ok tt) in
  let+ (d_filtrado, stats) := puro (aplicar_filtros d) in
  let+ _ := modificar (set_df_filtrado (Some d_filtrado)) in
  (* del df; df = None; gc.collect() *)
  let+ _ := modificar (set_df None) in
  let+ _ := llamar EvGcCollect (Ok tt) in
  let+ _ := llamar (EvMakedirs (output_partition particion))
              (gfs_makedirs env (output_partition particion)) in
  let+ _ := llamar (EvOpenOutput (output_file particion))
              (gfs_open_wb env (output_file particion)) in
  let+ _ := llamar (EvWriteParquet (output_file particion))
              (write_parquet env (output_file particion) d_filtrado) in
  (* del df_filtrado; df_filtrado = None; gc.collect() *)
  let+ _ := modificar (set_df_filtrado None) in
  let+ _ := llamar EvGcCollect (Ok tt) in
  retW (Success (year particion) (week particion) stats).

(** The [except] of the second [try]: what is still held is deleted, the
    collector runs, and the error result carries [str(e)], a newline and
    the formatted traceback. *)
Definition manejar_excepcion (env : Entorno) (particion : Particion)
    (e : exn) (st : Estado) : Salida * Estado :=
  let st := match tabla st with Some _ => set_tabla None st | None => st end in
  let st := match df st with Some _ => set_df None st | None => st end in
  let st := match df_filtrado st with
            | Some _ => set_df_filtrado None st
            | None => st
            end in
  let st := registrar EvGcCollect st in
  let error_detail := format_exc env e in
  (Devuelve (Error (year particion) (week particion)
               (str_exn e ++ String (Ascii.ascii_of_nat 10) "" ++ error_detail)),
   st).

Definition procesar_particion (env : Entorno) (particion : Particion)
    (force_reprocess : bool) : Salida * Estado :=
  let st := registrar EvCredenciales estado_inicial in
  match credenciales env with
  | Err e =>
      (Devuelve (Error (year particion) (week particion)
                   ("Error de autenticación GCS: " ++ str_exn e)),
       st)
  | Ok _ =>
      let st := registrar (EvExists (output_file particion)) st in
      match gfs_exists env (output_file particion) with
      | Err e => (Propaga e, st)
      | Ok existe =>
          if existe && negb force_reprocess then
            (Devuelve (Skipped (year particion) (week particion)), st)
          else
            match leer_filtrar_guardar env particion st with
            | (Ok r, st') => (Devuelve r, st')
            | (Err e, st') => manejar_excepcion env particion e st'
            end
      end
  end.

(** The worker holds none of its large structures. *)
Definition liberado (st : Estado) : Prop :=
  tabla st = None /\ df st = None /\ df_filtrado st = None.

(** [e] is the first exception raised by the steps of the second [try]:
    opening and reading the input, converting it, filtering, creating the
    output directory, opening and writing the output. *)
Inductive falla_cuerpo (env : Entorno) (p : Particion) : exn -> Prop :=
  | falla_open e :
      open_input_file env (path p) = Err e ->
      falla_cuerpo env p e
  | falla_read e :
      open_input_file env (path p) = Ok tt ->
      read_table env (path p) = Err e ->
      falla_cuerpo env p e
  | falla_from_arrow e t :
      open_input_file env (path p) = Ok tt ->
      read_table env (path p) = Ok t ->
      from_arrow env t = Err e ->
      falla_cuerpo env p e
  | falla_filtros e t d :
      open_input_file env (path p) = Ok tt ->
      read_table env (path p) = Ok t ->
      from_arrow env t = Ok d ->
      aplicar_filtros d = Err e ->
      falla_cuerpo env p e
  | falla_makedirs e t d out stats :
      open_input_file env (path p) = Ok tt ->
      read_table env (path p) = Ok t ->
      from_arrow env t = Ok d ->
      aplicar_filtros d = Ok (out, stats) ->
      gfs_makedirs env (output_partition p) = Err e ->
      falla_cuerpo env p e
  | falla_open_wb e t d out stats :
      open_input_file env (path p) = Ok tt ->
      read_table env (path p) = Ok t ->
      from_arrow env t = Ok d ->
      aplicar_filtros d = Ok (out, stats) ->
      gfs_makedirs env (output_partition p) = Ok tt ->
      gfs_open_wb env (output_file p) = Err e ->
      falla_cuerpo env p e
  | falla_write e t d out stats :
      open_input_file env (path p) = Ok tt ->
      read_table env (path p) = Ok t ->
      from_arrow env t = Ok d ->
      aplicar_filtros d = Ok (out, stats) ->
      gfs_makedirs env (output_partition p) = Ok tt ->
      gfs_open_wb env (output_file p) = Ok tt ->
      write_parquet env (output_file p) out = Err e ->
      falla_cuerpo env p e.

End Worker.

Arguments Tabla F : clear implicits.
Arguments Entorno F : clear implicits.
Arguments Estado F : clear implicits.

(* ===================================================================== *)
(** ** The orchestrator *)
(* ===================================================================== *)

(** What [future.result()] gives: the worker's result, or the exception
    that ended the worker or its process. *)
Inductive Futuro : Type :=
  | Resultado_de (r : Resultado)
  | Excepcion_de (e : exn).

(** [stats_globales] *)
Record StatsGlobales : Type := {
  g_n_inicial : Z;
  g_n_filtrados_tiempo : Z;
  g_n_filtrados_paraderos : Z;
  g_n_filtrados_dist : Z;
  g_n_final : Z;
  particiones_procesadas : Z;
  particiones_skipped : Z;
  particiones_fallidas : Z
}.

Definition stats_globales_inicial : StatsGlobales :=
  {| g_n_inicial := 0; g_n_filtrados_tiempo := 0;
     g_n_filtrados_paraderos := 0; g_n_filtrados_dist := 0; g_n_final := 0;
     particiones_procesadas := 0; particiones_skipped := 0;
     particiones_fallidas := 0 |}.

(** One turn of the loop over [as_completed(futures)]. The two branches
    of [if VERBOSE] update [stats_globales] alike; they differ in what
    they print. *)
Definition acumular (g : StatsGlobales) (f : Futuro) : StatsGlobales :=
  match f with
  | Resultado_de (Success _ _ stats) =>
      {| g_n_inicial := g_n_inicial g + n_inicial stats;
         g_n_filtrados_tiempo :=
           g_n_filtrados_tiempo g + n_filtrados_tiempo stats;
         g_n_filtrados_paraderos :=
           g_n_filtrados_paraderos g + n_filtrados_paraderos stats;
         g_n_filtrados_dist := g_n_filtrados_dist g + n_filtrados_dist stats;
         g_n_final := g_n_final g + n_final stats;
         particiones_procesadas := particiones_procesadas g + 1;
         particiones_skipped := particiones_skipped g;
         particiones_fallidas := particiones_fallidas g |}
  | Resultado_de (Skipped _ _) =>
      {| g_n_inicial := g_n_inicial g;
         g_n_filtrados_tiempo := g_n_filtrados_tiempo g;
         g_n_filtrados_paraderos := g_n_filtrados_paraderos g;
         g_n_filtrados_dist := g_n_filtrados_dist g;
         g_n_final := g_n_final g;
         particiones_procesadas := particiones_procesadas g;
         particiones_skipped := particiones_skipped g + 1;
         particiones_fallidas := particiones_fallidas g |}
  | Resultado_de (Error _ _ _) | Excepcion_de _ =>
      {| g_n_inicial := g_n_inicial g;
         g_n_filtrados_tiempo := g_n_filtrados_tiempo g;
         g_n_filtrados_paraderos := g_n_filtrados_paraderos g;
         g_n_filtrados_dist := g_n_filtrados_dist g;
         g_n_final := g_n_final g;
         particiones_procesadas := particiones_procesadas g;
         particiones_skipped := particiones_skipped g;
         particiones_fallidas := particiones_fallidas g + 1 |}
  end.

(** The loop, over the futures in the order they complete. *)
Definition recorrer (fs : list Futuro) : StatsGlobales :=
  fold_left acumular fs stats_globales_inicial.

(** [return 0 if stats_globales['particiones_fallidas'] == 0 else 1] *)
Definition codigo_salida (g : StatsGlobales) : Z :=
  if particiones_fallidas g =? 0 then 0 else 1.

(** The world of the orchestrator: its own credentials, the listing of
    the input partitions, and what the pool answers for the partitions
    submitted, in completion order. *)
Record EntornoMain : Type := {
  main_credenciales : res unit;
  listar_particiones : res (list Particion);
  as_completed : list Particion -> list Futuro
}.

Definition main (env : EntornoMain) : Z * option StatsGlobales :=
  match main_credenciales env with
  | Err _ => (1, None)
  | Ok _ =>
      match listar_particiones env with
      | Err _ => (1, None)
      | Ok [] => (0, None)
      | Ok particiones =>
          let stats_globales := recorrer (as_completed env particiones) in
          (codigo_salida stats_globales, Some stats_globales)
      end
  end.

(** A future that counts as failed: an [error] result, or an exception
    out of [future.result()]. *)
Definition es_fallo (f : Futuro) : bool :=
  match f with
  | Resultado_de (Error _ _ _) | Excepcion_de _ => true
  | _ => false
  end.

Definition es_skipped (f : Futuro) : bool :=
  match f with
  | Resultado_de (Skipped _ _) => true
  | _ => false
  end.

(** The statistics of the [success] results, in order. *)
Fixpoint exitos (fs : list Futuro) : list Stats :=
  match fs with
  | [] => []
  | Resultado_de (Success _ _ stats) :: fs' => stats :: exitos fs'
  | _ :: fs' => exitos fs'
  end.

Definition suma_Z (l : list Z) : Z := fold_right Z.add 0 l.

Definition contar {A} (f : A -> bool) (l : list A) : Z :=
  Z.of_nat (length (List.filter f l)).

(** [t] occurs in [s]. *)
Definition incluye (s t : string) : Prop :=
  exists pre post, s = pre ++ t ++ post.

(* ===================================================================== *)
(** ** Concrete frames and worlds *)
(* ===================================================================== *)

(** A trip record whose vehicle times leave the Int64 range when added:
    [tv1 = tv2 = 2^62]. *)
Definition fila_desborde_tiempo : row Z :=
  fila [("tv1", VInt (2 ^ 62)); ("tv2", VInt (2 ^ 62)); ("tv3", VNull);
        ("tv4", VNull); ("te0", VInt 10);
        ("dveh_euc1", VInt 70); ("dveh_euc3", VInt 50);
        ("dveh_eucfinal", VNull);
        ("distancia_ruta", VStr "1500"); ("distancia_eucl", VStr "1200");
        ("paradero_inicio_viaje", VStr "PA1");
        ("paradero_fin_viaje", VStr "PB2")].

Definition df_desborde_tiempo : DataFrame Z :=
  {| columns := ejemplo_cols; rows := [fila_desborde_tiempo] |}.

(** A record whose euclidean legs overflow: [dveh_euc1 = dveh_euc2 = 2^62]
    with [dveh_eucfinal] null. *)
Definition fila_desborde_eucl : row Z :=
  fila [("tv1", VInt 100); ("tv3", VInt 50); ("te0", VInt 10);
        ("dveh_euc1", VInt (2 ^ 62)); ("dveh_euc2", VInt (2 ^ 62));
        ("dveh_eucfinal", VNull);
        ("distancia_ruta", VStr "1500"); ("distancia_eucl", VStr "1200");
        ("paradero_inicio_viaje", VStr "PA1");
        ("paradero_fin_viaje", VStr "PB2")].

Definition df_desborde_eucl : DataFrame Z :=
  {| columns := ejemplo_cols; rows := [fila_desborde_eucl] |}.

(** A record whose vehicle times are all null or zero, and one whose
    route distance does not parse. *)
Definition fila_sin_vehiculo : row Z :=
  fila [("tv1", VNull); ("tv2", VInt 0); ("te0", VInt 10);
        ("dveh_euc1", VInt 70);
        ("distancia_ruta", VStr "1500"); ("distancia_eucl", VStr "1200");
        ("paradero_inicio_viaje", VStr "PA1");
        ("paradero_fin_viaje", VStr "PB2")].

Definition fila_ruta_abc : row Z :=
  fila [("tv1", VInt 100); ("te0", VInt 10);
        ("dveh_euc1", VInt 70); ("dveh_eucfinal", VInt 80);
        ("distancia_ruta", VStr "abc"); ("distancia_eucl", VStr "1200");
        ("paradero_inicio_viaje", VStr "PA1");
        ("paradero_fin_viaje", VStr "PB2")].

Definition df_mixto : DataFrame Z :=
  {| columns := ejemplo_cols;
     rows := [ejemplo_fila; fila_sin_vehiculo; fila_ruta_abc] |}.

Definition df_vacio : DataFrame Z :=
  {| columns := ejemplo_cols; rows := [] |}.

(** The parse of the frames of doubles below: the text ["NaN"], and the
    unsigned decimal literals, read as the nearest double. *)
#[global] Instance cast_decimal : CastUtf8 := fun s =>
  if String.eqb s "NaN" then Some S754_nan
  else option_map Ieee.of_int (Decimal.parse s).

Definition fila_ieee (l : list (string * value spec_float))
  : row spec_float := list_to_map l.

(** The record of the specification, one whose route distance does not
    parse, and one whose route distance is the text ["NaN"]. *)
Definition ejemplo_fila_ieee : row spec_float :=
  fila_ieee
    [("tv1", VInt 100); ("tv2", VNull); ("tv3", VInt 50); ("tv4", VInt 0);
     ("te0", VInt 10);
     ("dveh_euc1", VInt 70); ("dveh_euc3", VInt 50);
     ("dveh_eucfinal", VNull);
     ("distancia_ruta", VStr "1500"); ("distancia_eucl", VStr "1200");
     ("paradero_inicio_viaje", VStr "PA1");
     ("paradero_fin_viaje", VStr "PB2")].

Definition fila_ruta_abc_ieee : row spec_float :=
  fila_ieee
    [("tv1", VInt 100); ("te0", VInt 10);
     ("dveh_euc1", VInt 70); ("dveh_eucfinal", VInt 80);
     ("distancia_ruta", VStr "abc"); ("distancia_eucl", VStr "1200");
     ("paradero_inicio_viaje", VStr "PA1");
     ("paradero_fin_viaje", VStr "PB2")].

Definition fila_ruta_nan : row spec_float :=
  fila_ieee
    [("tv1", VInt 100); ("te0", VInt 10);
     ("dveh_euc1", VInt 70); ("dveh_eucfinal", VInt 80);
     ("distancia_ruta", VStr "NaN"); ("distancia_eucl", VStr "1200");
     ("paradero_inicio_viaje", VStr "PA1");
     ("paradero_fin_viaje", VStr "PB2")].

Definition df_ieee : DataFrame spec_float :=
  {| columns := ejemplo_cols;
     rows := [ejemplo_fila_ieee; fila_ruta_abc_ieee; fila_ruta_nan] |}.

Definition particion_2025_14 : Particion :=
  {| year := 2025; week := 14;
     path := INPUT_PATH ++ "/iso_year=2025/iso_week=14/data-0.parquet" |}.

Definition traceback (e : exn) : string :=
  "Traceback (most recent call last): File batch_process_data_quality.py, in procesar_particion: "
  ++ str_exn e.

(** A world where every call succeeds; [existe] is the answer of
    [gfs.exists]. *)
Definition env_sano (existe : bool) : Entorno Z :=
  {| credenciales := Ok tt;
     gfs_exists := fun _ => Ok existe;
     open_input_file := fun _ => Ok tt;
     read_table := fun _ => Ok {| contenido := df_mixto |};
     from_arrow := fun t => Ok (contenido t);
     gfs_makedirs := fun _ => Ok tt;
     gfs_open_wb := fun _ => Ok tt;
     write_parquet := fun _ _ => Ok tt;
     format_exc := traceback |}.

Definition adc_ausente : exn :=
  OtraExcepcion "FileNotFoundError" "No se encontró ADC".

(** A world without credentials, where the output artifact exists. *)
Definition env_sin_credenciales : Entorno Z :=
  {| credenciales := Err adc_ausente;
     gfs_exists := fun _ => Ok true;
     open_input_file := fun _ => Ok tt;
     read_table := fun _ => Ok {| contenido := df_mixto |};
     from_arrow := fun t => Ok (contenido t);
     gfs_makedirs := fun _ => Ok tt;
     gfs_open_wb := fun _ => Ok tt;
     write_parquet := fun _ _ => Ok tt;
     format_exc := traceback |}.

Definition lectura_rota : exn := OtraExcepcion "OSError" "read failed".

(** A world where reading the input fails. *)
Definition env_lectura_rota : Entorno Z :=
  {| credenciales := Ok tt;
     gfs_exists := fun _ => Ok false;
     open_input_file := fun _ => Ok tt;
     read_table := fun _ => Err lectura_rota;
     from_arrow := fun t => Ok (contenido t);
     gfs_makedirs := fun _ => Ok tt;
     gfs_open_wb := fun _ => Ok tt;
     write_parquet := fun _ _ => Ok tt;
     format_exc := traceback |}.

Definition stats_a : Stats :=
  {| n_inicial := 10; n_filtrados_tiempo := 2; n_filtrados_paraderos := 1;
     n_filtrados_dist := 3; n_final := 4; pct_retenido := pct_de 4 10 |}.

Definition stats_b : Stats :=
  {| n_inicial := 5; n_filtrados_tiempo := 0; n_filtrados_paraderos := 2;
     n_filtrados_dist := 0; n_final := 3; pct_retenido := pct_de 3 5 |}.

Definition env_main_ejemplo : EntornoMain :=
  {| main_credenciales := Ok tt;
     listar_particiones := Ok [particion_2025_14; particion_2025_14];
     as_completed := fun _ =>
       [Resultado_de (Success 2025 14 stats_a);
        Resultado_de (Skipped 2025 15);
        Resultado_de (Success 2025 16 stats_b)] |}.

(* ===================================================================== *)
(** ** Frames put together *)
(* ===================================================================== *)

(** Two frames of one schema stacked, as [pl.concat] does with the
    partitions of a dataset. *)
Definition concat_vertical {F} (df1 df2 : DataFrame F) : DataFrame F :=
  {| columns := columns df1; rows := (rows df1 ++ rows df2)%list |}.

(** The names the filter writes to: the three derived columns, the
    imputed [dveh_eucfinal] and the two temporary columns. *)
Definition columnas_escritas : list string :=
  (columnas_derivadas ++ ["dveh_eucfinal"] ++ columnas_temporales)%list.

(* ===================================================================== *)
(** ** From the worker to the future *)
(* ===================================================================== *)

(** What [future.result()] makes of the way a worker ended: a returned
    dictionary is the result, a propagated exception is raised again in
    the orchestrator. *)
Definition futuro_de (s : Salida) : Futuro :=
  match s with
  | Devuelve r => Resultado_de r
  | Propaga e => Excepcion_de e
  end.

(** The calls that touch the output location. *)
Definition toca_salida (ev : Evento) : bool :=
  match ev with
  | EvMakedirs _ | EvOpenOutput _ | EvWriteParquet _ => true
  | _ => false
  end.

(** No character of [s] is [c]. *)
Fixpoint sin_caracter (c : Ascii.ascii) (s : string) : bool :=
  match s with
  | EmptyString => true
  | String a s' => negb (Ascii.eqb a c) && sin_caracter c s'
  end.

(* ===================================================================== *)
(** ** Credentials: [enable_adc_crossplatform] *)
(* ===================================================================== *)

Definition GOOGLE_APPLICATION_CREDENTIALS : string :=
  "GOOGLE_APPLICATION_CREDENTIALS".

(** The process and the machine as [enable_adc_crossplatform] sees them:
    [os.environ], [sys.platform], and what [os.path.exists],
    [os.path.join] and [os.path.expanduser] answer. *)
Record Sistema : Type := {
  environ : gmap string string;
  platform : string;
  path_exists : string -> bool;
  path_join : string -> list string -> string;
  expanduser : string -> string
}.

Definition con_environ (s : Sistema) (e : gmap string string) : Sistema :=
  {| environ := e; platform := platform s; path_exists := path_exists s;
     path_join := path_join s; expanduser := expanduser s |}.

(** The truth value of [os.getenv(k)]: an unset variable gives [None], an
    empty one [""]; both are false. *)
Definition getenv_verdadero (e : gmap string string) (k : string) : bool :=
  match e !! k with
  | Some (String _ _) => true
  | _ => false
  end.

(** The path of the default credentials, by platform;
    [os.environ["APPDATA"]] raises [KeyError] when the variable is not
    set. *)
Definition adc_path (s : Sistema) : res string :=
  if String.prefix "win" (platform s) then
    match environ s !! "APPDATA" with
    | Some appdata =>
        Ok (path_join s appdata
              ["gcloud"; "application_default_credentials.json"])
    | None => Err (OtraExcepcion "KeyError" "'APPDATA'")
    end
  else
    Ok (expanduser s "~/.config/gcloud/application_default_credentials.json").

(** The function returns nothing; what it leaves is [os.environ]. *)
Definition enable_adc_crossplatform (s : Sistema)
  : res (gmap string string) :=
  if getenv_verdadero (environ s) GOOGLE_APPLICATION_CREDENTIALS then
    Ok (environ s)
  else
    let* p := adc_path s in
    if negb (path_exists s p) then
      Err (OtraExcepcion "FileNotFoundError"
             ("No se encontró ADC en " ++ p
              ++ ". Ejecuta: gcloud auth application-default login"))
    else Ok (<[GOOGLE_APPLICATION_CREDENTIALS := p]> (environ s)).

(* ===================================================================== *)
(** ** Discovery of the partitions in [main] *)
(* ===================================================================== *)

Fixpoint saltar (n : nat) (s : string) : string :=
  match n, s with
  | O, _ => s
  | S n', String _ s' => saltar n' s'
  | S _, EmptyString => EmptyString
  end.

(** The first occurrence of [sep] in [s]: what precedes it and what
    follows it. *)
Fixpoint buscar (sep s : string) : option (string * string) :=
  if String.prefix sep s then Some (EmptyString, saltar (String.length sep) s)
  else
    match s with
    | EmptyString => None
    | String a s' =>
        match buscar sep s' with
        | Some (antes, despues) => Some (String a antes, despues)
        | None => None
        end
    end.

(** [sep in s] *)
Definition contiene (sep s : string) : bool :=
  match buscar sep s with
  | Some _ => true
  | None => false
  end.

Fixpoint split_desde (n : nat) (sep s : string) : list string :=
  match n with
  | O => [s]
  | S n' =>
      match buscar sep s with
      | Some (antes, despues) => antes :: split_desde n' sep despues
      | None => [s]
      end
  end.

(** [s.split(sep)]; an empty separator raises [ValueError]. *)
Definition py_split (sep s : string) : res (list string) :=
  match sep with
  | EmptyString => Err (OtraExcepcion "ValueError" "empty separator")
  | _ => Ok (split_desde (String.length s) sep s)
  end.

(** [s.split(sep)[1]] *)
Definition split_1 (sep s : string) : res string :=
  let* partes := py_split sep s in
  match partes with
  | _ :: x :: _ => Ok x
  | _ => Err (OtraExcepcion "IndexError" "list index out of range")
  end.

(** The store as the discovery sees it: [gfs.ls] and [gfs.exists]. *)
Record Lago : Type := {
  gfs_ls : string -> res (list string);
  lago_exists : string -> res bool
}.

Section Descubrimiento.

(** Python's [int] on a string. *)
Variable py_int : string -> res Z.

(** The inner loop: the weeks of one year directory. *)
Definition particiones_de_semana (gfs : Lago) (year : Z) (week_dir : string)
  : res (list Particion) :=
  let* texto := split_1 "iso_week=" week_dir in
  let* week := py_int texto in
  let data_file := week_dir ++ "/data-0.parquet" in
  let* existe := lago_exists gfs data_file in
  Ok (if existe
      then [{| year := year; week := week; path := data_file |}]
      else []).

(** The outer loop: one year directory. *)
Definition particiones_de_year (gfs : Lago) (year_dir : string)
  : res (list Particion) :=
  let* texto := split_1 "iso_year=" year_dir in
  let* year := py_int texto in
  let* listado := gfs_ls gfs year_dir in
  let weeks_dirs := List.filter (contiene "iso_week=") listado in
  let* ps := mapM_res (particiones_de_semana gfs year) weeks_dirs in
  Ok (concat ps).

(** The listing of [main]: any exception in it makes [main] print the
    error and return 1. *)
Definition descubrir_particiones (gfs : Lago) : res (list Particion) :=
  let* listado := gfs_ls gfs INPUT_PATH in
  let years_dirs := List.filter (contiene "iso_year=") listado in
  let* ps := mapM_res (particiones_de_year gfs) years_dirs in
  Ok (concat ps).

(** The world of [main] whose listing is the discovery on [gfs]. *)
Definition entorno_main_de (gfs : Lago) (cred : res unit)
    (pool : list Particion -> list Futuro) : EntornoMain :=
  {| main_credenciales := cred;
     listar_particiones := descubrir_particiones gfs;
     as_completed := pool |}.

End Descubrimiento.

(** No occurrence of [sep] can begin inside [x], whatever follows [x]: no
    non-empty suffix of [x] is a prefix of [sep] or has [sep] as a
    prefix. *)
Fixpoint sin_comienzo (sep x : string) : bool :=
  match x with
  | EmptyString => true
  | String _ x' =>
      negb (String.prefix sep x) && negb (String.prefix x sep)
      && sin_comienzo sep x'
  end.

(** The layout the discovery expects under a root, which is also the one
    the worker writes under [OUTPUT_PATH]:
    [<raiz>/iso_year=<Y>/iso_week=<W>/data-0.parquet]. *)
Definition dir_year (raiz : string) (y : Z) : string :=
  raiz ++ "/iso_year=" ++ pretty y.

Definition dir_week (raiz : string) (y w : Z) : string :=
  raiz ++ "/iso_year=" ++ pretty y ++ "/iso_week=" ++ pretty w.

Definition particion_de (raiz : string) (y w : Z) : Particion :=
  {| year := y; week := w;
     path := dir_week raiz y w ++ "/data-0.parquet" |}.

Definition literal_invalido (s : string) : exn :=
  OtraExcepcion "ValueError"
    ("invalid literal for int() with base 10: '" ++ s ++ "'").

(** [int] on the plain decimal numerals, an optional minus sign and
    digits, which is what [str] of an integer gives: the instance of
    [py_int] on which the discovery is run below. *)
Definition int_decimal (s : string) : res Z :=
  match s with
  | EmptyString => Err (literal_invalido s)
  | String c s' =>
      if Ascii.eqb c "-"
      then match s' with
           | EmptyString => Err (literal_invalido s)
           | _ => match Decimal.leer 0 s' with
                  | Some n => Ok (- n)
                  | None => Err (literal_invalido s)
                  end
           end
      else match Decimal.leer 0 s with
           | Some n => Ok n
           | None => Err (literal_invalido s)
           end
  end.

(** A small lake: one year with two week directories, of which only week
    14 holds a data file, and a stray object beside the year directory. *)
Definition lago_ejemplo : Lago :=
  {| gfs_ls := fun d =>
       if String.eqb d INPUT_PATH
       then Ok [INPUT_PATH ++ "/_SUCCESS"; dir_year INPUT_PATH 2025]
       else if String.eqb d (dir_year INPUT_PATH 2025)
       then Ok [dir_week INPUT_PATH 2025 14; dir_week INPUT_PATH 2025 15]
       else Err (OtraExcepcion "FileNotFoundError" d);
     lago_exists := fun f =>
       Ok (String.eqb f (path (particion_de INPUT_PATH 2025 14))) |}.

(** The same lake with a year directory whose name does not end in a
    number. *)
Definition lago_ilegible : Lago :=
  {| gfs_ls := fun d =>
       if String.eqb d INPUT_PATH
       then Ok [dir_year INPUT_PATH 2025; INPUT_PATH ++ "/iso_year=2025.bak"]
       else gfs_ls lago_ejemplo d;
     lago_exists := lago_exists lago_ejemplo |}.

(** A Linux account with credentials in the default place and no
    credentials variable. *)
Definition adc_linux : string :=
  "/home/ana/.config/gcloud/application_default_credentials.json".

Definition sistema_linux : Sistema :=
  {| environ := {[ "HOME" := "/home/ana" ]};
     platform := "linux";
     path_exists := fun p => String.eqb p adc_linux;
     path_join := fun a l => fold_left (fun x y => x ++ "/" ++ y) l a;
     expanduser := fun p =>
       match p with
       | String c resto =>
           if Ascii.eqb c "~" then "/home/ana" ++ resto else p
       | EmptyString => p
       end |}.

(** A frame of trips that lacks the column [tv3]. *)
Definition df_sin_tv3 : DataFrame Z :=
  {| columns := List.filter (fun c => negb (String.eqb c "tv3")) ejemplo_cols;
     rows := [] |}.

(** The futures of a run of three workers: one that succeeds, one whose
    read fails, and one lost with its process. *)
Definition futuros_de_tres_workers : list Futuro :=
  [futuro_de (fst (procesar_particion (env_sano false)
                     particion_2025_14 false));
   futuro_de (fst (procesar_particion env_lectura_rota
                     particion_2025_14 false));
   Excepcion_de lectura_rota].

(** The world of [env_sano false] after partition (2025, 14) was written:
    its output file exists, no other does. *)
Definition env_tras_2025_14 : Entorno Z :=
  {| credenciales := Ok tt;
     gfs_exists := fun f =>
       Ok (String.eqb f (output_file particion_2025_14));
     open_input_file := fun _ => Ok tt;
     read_table := fun _ => Ok {| contenido := df_mixto |};
     from_arrow := fun t => Ok (contenido t);
     gfs_makedirs := fun _ => Ok tt;
     gfs_open_wb := fun _ => Ok tt;
     write_parquet := fun _ _ => Ok tt;
     format_exc := traceback |}.

(* ===================================================================== *)
(** ** Int64: wrap-around *)
(* ===================================================================== *)

Lemma Int64_wrap_in_range z : Int64.in_range (Int64.wrap z).
Proof.
  unfold Int64.in_range, Int64.wrap, Int64.min_int, Int64.max_int.
  pose proof (Z.mod_pos_bound (z + 2 ^ 63) (2 ^ 64) ltac:(lia)). lia.
Qed.

Lemma Int64_wrap_id z : Int64.in_range z -> Int64.wrap z = z.
Proof.
  unfold Int64.in_range, Int64.wrap, Int64.min_int, Int64.max_int. intros Hz.
  rewrite Z.mod_small by lia. lia.
Qed.

Lemma Int64_wrap_add_l a b :
  Int64.wrap (Int64.wrap a + b) = Int64.wrap (a + b).
Proof.
  unfold Int64.wrap.
  replace ((a + 2 ^ 63) mod 2 ^ 64 - 2 ^ 63 + b + 2 ^ 63)
    with ((a + 2 ^ 63) mod 2 ^ 64 + b) by lia.
  rewrite Zplus_mod_idemp_l. f_equal. f_equal. lia.
Qed.

Lemma Int64_add_wrap_l a b :
  Int64.add (Int64.wrap a) b = Int64.wrap (a + b).
Proof. apply Int64_wrap_add_l. Qed.

Lemma Int64_add_exact a b :
  Int64.in_range (a + b) -> Int64.add a b = a + b.
Proof. apply Int64_wrap_id. Qed.

(* ===================================================================== *)
(** ** Properties of the Polars fragment *)
(* ===================================================================== *)

Lemma mapM_res_map_ok {A B C} (f : B -> res C) (g : A -> B) (h : A -> C)
    (l : list A) :
  (forall x, In x l -> f (g x) = Ok (h x)) ->
  mapM_res f (map g l) = Ok (map h l).
Proof.
  induction l as [|x l IH]; intros Hf; simpl; [reflexivity|].
  rewrite (Hf x) by (left; reflexivity). simpl.
  rewrite IH by (intros y Hy; apply Hf; right; exact Hy).
  reflexivity.
Qed.

Lemma mapM_res_ok {A B} (f : A -> res B) (g : A -> B) (l : list A) :
  (forall x, In x l -> f x = Ok (g x)) ->
  mapM_res f l = Ok (map g l).
Proof.
  intros Hf. pose proof (mapM_res_map_ok f (fun x => x) g l Hf) as E.
  rewrite map_id in E. exact E.
Qed.

Lemma filterM_res_map_ok {A B} (f : B -> res bool) (g : A -> B)
    (p : A -> bool) (l : list A) :
  (forall x, In x l -> f (g x) = Ok (p x)) ->
  filterM_res f (map g l) = Ok (map g (List.filter p l)).
Proof.
  induction l as [|x l IH]; intros Hf; simpl; [reflexivity|].
  rewrite (Hf x) by (left; reflexivity). simpl.
  rewrite IH by (intros y Hy; apply Hf; right; exact Hy). simpl.
  destruct (p x); reflexivity.
Qed.

Lemma filterM_res_ok {A} (f : A -> res bool) (p : A -> bool) (l : list A) :
  (forall x, In x l -> f x = Ok (p x)) ->
  filterM_res f l = Ok (List.filter p l).
Proof.
  intros Hf. pose proof (filterM_res_map_ok f (fun x => x) p l Hf) as E.
  rewrite !map_id in E. exact E.
Qed.

Lemma mapM_res_length {A B} (f : A -> res B) (l : list A) (l' : list B) :
  mapM_res f l = Ok l' -> length l' = length l.
Proof.
  revert l'. induction l as [|x l IH]; intros l'; simpl.
  - intros [= <-]. reflexivity.
  - destruct (f x) as [y|e]; simpl; [|discriminate].
    destruct (mapM_res f l) as [ys|e]; simpl; [|discriminate].
    intros [= <-]. simpl. f_equal. apply IH. reflexivity.
Qed.

Lemma filterM_res_length {A} (f : A -> res bool) (l l' : list A) :
  filterM_res f l = Ok l' -> (length l' <= length l)%nat.
Proof.
  revert l'. induction l as [|x l IH]; intros l'; simpl.
  - intros [= <-]. reflexivity.
  - destruct (f x) as [b|e]; simpl; [|discriminate].
    destruct (filterM_res f l) as [ys|e]; simpl; [|discriminate].
    intros [= <-]. specialize (IH ys eq_refl).
    destruct b; simpl; lia.
Qed.

Lemma filter_length_le_Z {A} (p : A -> bool) (l : list A) :
  Z.of_nat (length (List.filter p l)) <= Z.of_nat (length l).
Proof. pose proof (List.filter_length_le p l). lia. Qed.

Section PolarsProps.

Context {F : Type} `{Float64 F}.

Lemma cell_insert (r : row F) c v : cell (<[c := v]> r) c = v.
Proof. unfold cell, row in *. rewrite lookup_insert_eq. reflexivity. Qed.

Lemma cell_insert_ne (r : row F) c c' v :
  c <> c' -> cell (<[c := v]> r) c' = cell r c'.
Proof.
  intros Hne. unfold cell, row in *.
  rewrite lookup_insert_ne by exact Hne. reflexivity.
Qed.

Lemma cell_delete (r : row F) c : cell (delete c r) c = VNull.
Proof. unfold cell, row in *. rewrite lookup_delete_eq. reflexivity. Qed.

Lemma cell_delete_ne (r : row F) c c' :
  c <> c' -> cell (delete c r) c' = cell r c'.
Proof.
  intros Hne. unfold cell, row in *.
  rewrite lookup_delete_ne by exact Hne. reflexivity.
Qed.

Lemma v_and_bool (x y : bool) :
  v_and (VBool x) (VBool y) = Ok (VBool (F := F) (x && y)).
Proof. destruct x; reflexivity. Qed.

Lemma comprobar_columnas_ok (cols used : list string) :
  (forall c, c ∈ used -> c ∈ cols) ->
  comprobar_columnas cols used = Ok tt.
Proof.
  induction used as [|c used IH]; intros Hin; simpl; [reflexivity|].
  rewrite bool_decide_eq_true_2 by (apply Hin; left).
  apply IH. intros c' Hc'. apply Hin. right. exact Hc'.
Qed.

Lemma agregar_columna_old (cols : list string) c c' :
  c' ∈ cols -> c' ∈ agregar_columna cols c.
Proof.
  intros Hin. unfold agregar_columna. case_bool_decide; [exact Hin|].
  apply elem_of_app. left. exact Hin.
Qed.

Lemma agregar_columna_new (cols : list string) c :
  c ∈ agregar_columna cols c.
Proof.
  unfold agregar_columna. case_bool_decide as Hc; [exact Hc|].
  apply elem_of_app. right. left.
Qed.

Lemma agregar_columnas_old (cs cols : list string) c' :
  c' ∈ cols -> c' ∈ agregar_columnas cols cs.
Proof.
  revert cols. induction cs as [|c cs IH]; intros cols Hin; simpl; [exact Hin|].
  apply IH. apply agregar_columna_old. exact Hin.
Qed.

Lemma agregar_columnas_new (cs cols : list string) c :
  c ∈ cs -> c ∈ agregar_columnas cols cs.
Proof.
  revert cols. induction cs as [|c0 cs IH]; intros cols Hin.
  - inversion Hin.
  - simpl. apply elem_of_cons in Hin as [->|Hin].
    + apply agregar_columnas_old. apply agregar_columna_new.
    + apply IH. exact Hin.
Qed.

Lemma agregar_columna_fresh (cols : list string) c :
  c ∉ cols -> agregar_columna cols c = (cols ++ [c])%list.
Proof. intros Hc. unfold agregar_columna. rewrite bool_decide_eq_false_2; done. Qed.

Lemma agregar_columna_present (cols : list string) c :
  c ∈ cols -> agregar_columna cols c = cols.
Proof. intros Hc. unfold agregar_columna. rewrite bool_decide_eq_true_2; done. Qed.

(** [with_columns] keeps the number of rows, [filter] never adds one. *)
Lemma with_columns_len es (df df' : DataFrame F) :
  with_columns es df = Ok df' -> len df' = len df.
Proof.
  unfold with_columns.
  destruct (comprobar_columnas _ _); simpl; [|discriminate].
  destruct (mapM_res _ (rows df)) as [rs|e] eqn:E; simpl; [|discriminate].
  intros [= <-]. unfold len. simpl. f_equal. eapply mapM_res_length, E.
Qed.

Lemma filter_len e (df df' : DataFrame F) :
  filter e df = Ok df' -> len df' <= len df.
Proof.
  unfold filter.
  destruct (comprobar_columnas _ _); simpl; [|discriminate].
  destruct (filterM_res _ (rows df)) as [rs|e'] eqn:E; simpl; [|discriminate].
  intros [= <-]. unfold len. simpl.
  apply filterM_res_length in E. lia.
Qed.

Lemma drop_len cs (df df' : DataFrame F) :
  drop cs df = Ok df' -> len df' = len df.
Proof.
  unfold drop. destruct (comprobar_columnas _ _); simpl; [|discriminate].
  intros [= <-]. unfold len. simpl. rewrite length_map. reflexivity.
Qed.

End PolarsProps.

(* ===================================================================== *)
(** ** The filter, stage by stage *)
(* ===================================================================== *)

(** Membership in a list that is written out. *)
Ltac en_lista := simpl; repeat first [left; reflexivity | right].

Lemma elem_of_incl_dec (l1 l2 : list string) :
  forallb (fun c => bool_decide (c ∈ l2)) l1 = true ->
  forall c, c ∈ l1 -> c ∈ l2.
Proof.
  intros Hall c Hc. rewrite forallb_forall in Hall.
  apply list_elem_of_In in Hc. specialize (Hall c Hc).
  apply bool_decide_eq_true_1 in Hall. exact Hall.
Qed.

Lemma wrap_fold_add (zs : list Z) (z0 : Z) :
  fold_left Int64.add zs (Int64.wrap z0)
  = Int64.wrap (z0 + fold_right Z.add 0 zs).
Proof.
  revert z0. induction zs as [|z zs IH]; intros z0; simpl.
  - f_equal. lia.
  - rewrite Int64_add_wrap_l, IH. f_equal. lia.
Qed.

Section FiltroProps.

Context {F : Type} `{Float64 F}.

Implicit Types (r : row F) (df : DataFrame F).

Lemma fila_viaje_col r c :
  fila_viaje r = true -> In c columnas_enteras ->
  es_entero_o_null (cell r c) = true.
Proof.
  unfold fila_viaje. rewrite forallb_forall. intros Hall Hc. apply Hall, Hc.
Qed.

Lemma trip_frame_cols df c :
  trip_frame df = true -> c ∈ columnas_requeridas -> c ∈ columns df.
Proof.
  unfold trip_frame. intros [Hc _]%andb_prop Hin.
  eapply elem_of_incl_dec; eauto.
Qed.

Lemma trip_frame_rows df r :
  trip_frame df = true -> In r (rows df) -> fila_viaje r = true.
Proof.
  unfold trip_frame. intros [_ Hr]%andb_prop Hin.
  rewrite forallb_forall in Hr. apply Hr, Hin.
Qed.

Lemma eval_fill_null_col r c :
  es_entero_o_null (cell r c) = true ->
  eval r (fill_null (col c) 0) = Ok (VInt (z_cell r c)).
Proof.
  unfold z_cell. simpl. destruct (cell r c); simpl; intros Hv;
    try discriminate; reflexivity.
Qed.

Lemma eval_sumar r cs : forall e0 z0,
  eval r e0 = Ok (VInt z0) ->
  (forall c, In c cs -> es_entero_o_null (cell r c) = true) ->
  eval r (sumar e0 cs)
  = Ok (VInt (fold_left Int64.add (map (z_cell r) cs) z0)).
Proof.
  induction cs as [|c cs IH]; intros e0 z0 He0 Hcs; simpl; [exact He0|].
  apply IH.
  - cbn [eval]. rewrite He0. cbn [res_bind].
    pose proof (Hcs c (or_introl eq_refl)) as Hc. unfold z_cell.
    destruct (cell r c); simpl in Hc; try discriminate; reflexivity.
  - intros c' Hc'. apply Hcs. right. exact Hc'.
Qed.

(** A sum of at least two null-filled Int64 columns is the wrapped
    integer sum. *)
Lemma eval_suma_columnas r c1 c2 cs :
  (forall c, In c (c1 :: c2 :: cs) -> es_entero_o_null (cell r c) = true) ->
  eval r (sumar (fill_null (col c1) 0) (c2 :: cs))
  = Ok (VInt (suma_int64 r (c1 :: c2 :: cs))).
Proof.
  intros Hcs.
  rewrite (eval_sumar r (c2 :: cs) _ (z_cell r c1)).
  - f_equal. f_equal. cbn [map fold_left]. unfold Int64.add at 2.
    rewrite wrap_fold_add. unfold suma_int64, suma_null_safe.
    f_equal. cbn [fold_right].
    assert (fold_right Z.add 0 (map (z_cell r) cs)
            = fold_right (fun c acc => z_cell r c + acc) 0 cs) as ->.
    { clear. induction cs as [|c cs IH]; simpl; [reflexivity|].
      rewrite IH. reflexivity. }
    lia.
  - apply eval_fill_null_col, Hcs. left. reflexivity.
  - intros c Hc. apply Hcs. right. exact Hc.
Qed.

Lemma eval_t_vehiculo_total_seg r :
  fila_viaje r = true ->
  eval r expr_t_vehiculo_total_seg = Ok (VInt (t_vehiculo_total_seg r)).
Proof.
  intros Hr. apply (eval_suma_columnas r "tv1" "tv2" ["tv3"; "tv4"]).
  intros c Hc. apply fila_viaje_col; [exact Hr|].
  simpl in Hc. decompose [or] Hc; subst; try contradiction; en_lista.
Qed.

Lemma eval_t_total_calculado_seg r :
  fila_viaje r = true ->
  eval r expr_t_total_calculado_seg = Ok (VInt (t_total_calculado_seg r)).
Proof.
  intros Hr.
  apply (eval_suma_columnas r "te0" "tv1"
           ["tc1"; "te1"; "tv2"; "tc2"; "te2"; "tv3"; "tc3"; "te3"; "tv4"]).
  intros c Hc. apply fila_viaje_col; [exact Hr|].
  simpl in Hc. decompose [or] Hc; subst; try contradiction; en_lista.
Qed.

Lemma eval_d_vehiculo_eucl_total_m r :
  fila_viaje r = true ->
  eval r expr_d_vehiculo_eucl_total_m = Ok (VInt (d_vehiculo_eucl_total_m r)).
Proof.
  intros Hr.
  apply (eval_suma_columnas r "dveh_euc1" "dveh_euc2"
           ["dveh_euc3"; "dveh_euc4"]).
  intros c Hc. apply fila_viaje_col; [exact Hr|].
  simpl in Hc. decompose [or] Hc; subst; try contradiction; en_lista.
Qed.

Lemma calculadas_fila r :
  fila_viaje r = true ->
  (let* vs := mapM_res (fun ne => let* v := eval r (snd ne) in
                                  Ok (fst ne, v)) columnas_calculadas in
   Ok (asignar r vs)) = Ok (derivar r).
Proof.
  intros Hr. unfold columnas_calculadas. cbn [mapM_res fst snd].
  rewrite eval_t_vehiculo_total_seg, eval_t_total_calculado_seg,
    eval_d_vehiculo_eucl_total_m by exact Hr.
  reflexivity.
Qed.

Lemma cell_derivar_t_vehiculo r :
  cell (derivar r) "t_vehiculo_total_seg" = VInt (t_vehiculo_total_seg r).
Proof.
  unfold derivar. rewrite !cell_insert_ne by discriminate.
  apply cell_insert.
Qed.

Lemma cell_derivar_t_total r :
  cell (derivar r) "t_total_calculado_seg" = VInt (t_total_calculado_seg r).
Proof.
  unfold derivar. rewrite cell_insert_ne by discriminate.
  apply cell_insert.
Qed.

Lemma cell_derivar_d r :
  cell (derivar r) "d_vehiculo_eucl_total_m"
  = VInt (d_vehiculo_eucl_total_m r).
Proof. unfold derivar. apply cell_insert. Qed.

(** The derived cells are new names: the cells of the input are kept. *)
Lemma cell_derivar_otro r c :
  c ∉ columnas_derivadas -> cell (derivar r) c = cell r c.
Proof.
  intros Hc. unfold derivar.
  rewrite !cell_insert_ne; [reflexivity|..];
    intros <-; apply Hc; apply list_elem_of_In; en_lista.
Qed.

Lemma mascara_filtro_tiempo r :
  mascara filtro_tiempo (derivar r) = Ok (pasa_tiempo r).
Proof.
  unfold mascara, filtro_tiempo. cbn [eval res_bind].
  rewrite cell_derivar_t_vehiculo, cell_derivar_t_total.
  cbn [v_gt_zero res_bind]. rewrite v_and_bool. reflexivity.
Qed.

(** Stage 1 in closed form. *)
Lemma etapa_tiempo_ok df :
  trip_frame df = true ->
  etapa_tiempo df
  = Ok {| columns := agregar_columnas (columns df) columnas_derivadas;
          rows := map derivar (List.filter pasa_tiempo (rows df)) |}.
Proof.
  intros Hdf. unfold etapa_tiempo, with_columns.
  rewrite comprobar_columnas_ok.
  2:{ intros c Hc. apply (trip_frame_cols df c Hdf).
      revert c Hc. apply elem_of_incl_dec. vm_compute. reflexivity. }
  cbn [res_bind].
  rewrite (mapM_res_ok _ derivar).
  2:{ intros r Hr. apply calculadas_fila. eapply trip_frame_rows; eauto. }
  cbn [res_bind]. unfold filter. cbn [columns rows].
  rewrite comprobar_columnas_ok.
  2:{ intros c Hc. apply agregar_columnas_new.
      revert c Hc. apply elem_of_incl_dec. vm_compute. reflexivity. }
  cbn [res_bind].
  rewrite (filterM_res_map_ok _ derivar pasa_tiempo).
  2:{ intros r _. apply mascara_filtro_tiempo. }
  reflexivity.
Qed.

Lemma mascara_filtro_paraderos r :
  mascara filtro_paraderos r = Ok (pasa_paraderos r).
Proof.
  unfold mascara, filtro_paraderos. cbn [eval res_bind].
  rewrite v_and_bool. reflexivity.
Qed.

Lemma pasa_paraderos_derivar r :
  pasa_paraderos (derivar r) = pasa_paraderos r.
Proof.
  unfold pasa_paraderos.
  rewrite !cell_derivar_otro; [reflexivity|..];
    intros Hin%list_elem_of_In; simpl in Hin;
    decompose [or] Hin; try discriminate; contradiction.
Qed.

(** Stage 2 in closed form, on the rows stage 1 produces. *)
Lemma etapa_paraderos_ok cols (l : list (row F)) :
  "paradero_inicio_viaje" ∈ cols -> "paradero_fin_viaje" ∈ cols ->
  etapa_paraderos {| columns := cols; rows := map derivar l |}
  = Ok {| columns := cols;
          rows := map derivar (List.filter pasa_paraderos l) |}.
Proof.
  intros Hi Hf. unfold etapa_paraderos, filter. cbn [columns rows].
  rewrite comprobar_columnas_ok.
  2:{ intros c Hc. apply list_elem_of_In in Hc. simpl in Hc.
      decompose [or] Hc; subst; try contradiction; assumption. }
  cbn [res_bind].
  rewrite (filterM_res_map_ok _ derivar pasa_paraderos).
  2:{ intros r _. rewrite mascara_filtro_paraderos.
      rewrite pasa_paraderos_derivar. reflexivity. }
  reflexivity.
Qed.

Lemma imputar_fila r :
  (let* vs := mapM_res (fun ne => let* v := eval (derivar r) (snd ne) in
                                  Ok (fst ne, v)) imputar_dveh_eucfinal in
   Ok (asignar (derivar r) vs))
  = Ok (<["dveh_eucfinal" := dveh_eucfinal_imputado r]> (derivar r)).
Proof.
  unfold imputar_dveh_eucfinal. cbn [mapM_res fst snd eval res_bind].
  rewrite cell_derivar_d.
  rewrite cell_derivar_otro.
  2:{ intros Hin%list_elem_of_In; simpl in Hin;
      decompose [or] Hin; try discriminate; contradiction. }
  unfold dveh_eucfinal_imputado.
  destruct (cell r "dveh_eucfinal"); reflexivity.
Qed.

Lemma distancias_float_fila r :
  let r1 := <["dveh_eucfinal" := dveh_eucfinal_imputado r]> (derivar r) in
  (let* vs := mapM_res (fun ne => let* v := eval r1 (snd ne) in
                                  Ok (fst ne, v)) distancias_float in
   Ok (asignar r1 vs))
  = Ok (con_distancias r).
Proof.
  intros r1. unfold distancias_float. cbn [mapM_res fst snd eval res_bind].
  unfold r1. rewrite !cell_insert_ne by discriminate.
  rewrite !cell_derivar_otro.
  2,3: intros Hin%list_elem_of_In; simpl in Hin;
       decompose [or] Hin; try discriminate; contradiction.
  reflexivity.
Qed.

Lemma cell_con_distancias_ruta r :
  cell (con_distancias r) "distancia_ruta_float" = distancia_ruta_float r.
Proof.
  unfold con_distancias. rewrite cell_insert_ne by discriminate.
  apply cell_insert.
Qed.

Lemma cell_con_distancias_eucl r :
  cell (con_distancias r) "distancia_eucl_float" = distancia_eucl_float r.
Proof. unfold con_distancias. apply cell_insert. Qed.

Lemma cell_con_distancias_final r :
  cell (con_distancias r) "dveh_eucfinal" = dveh_eucfinal_imputado r.
Proof.
  unfold con_distancias. rewrite !cell_insert_ne by discriminate.
  apply cell_insert.
Qed.

(** A cast to Float64 gives a float or null. *)
Lemma v_cast_float64_forma (v : value F) :
  v_cast_float64 v = VNull \/ exists x, v_cast_float64 v = VFloat x.
Proof.
  destruct v as [| z | x | s | b]; simpl; eauto.
  destruct (f64_of_string s); eauto.
Qed.

(** On a trip record the imputed [dveh_eucfinal] is an integer: the value
    of the column, or the Int64 sum of the legs when the column is null. *)
Lemma dveh_eucfinal_imputado_entero r :
  fila_viaje r = true ->
  dveh_eucfinal_imputado r
  = VInt (match cell r "dveh_eucfinal" with
          | VInt z => z
          | _ => d_vehiculo_eucl_total_m r
          end).
Proof.
  intros Hr. unfold dveh_eucfinal_imputado.
  pose proof (fila_viaje_col r "dveh_eucfinal" Hr ltac:(en_lista)) as Hc.
  destruct (cell r "dveh_eucfinal"); simpl in Hc; try discriminate;
    reflexivity.
Qed.

Lemma mascara_filtro_distancias r :
  fila_viaje r = true ->
  mascara filtro_distancias (con_distancias r) = Ok (pasa_distancias r).
Proof.
  intros Hr. unfold mascara, filtro_distancias. cbn [eval res_bind].
  rewrite cell_con_distancias_ruta, cell_con_distancias_eucl,
    cell_con_distancias_final.
  unfold pasa_distancias.
  rewrite (dveh_eucfinal_imputado_entero r Hr).
  unfold distancia_ruta_float, distancia_eucl_float.
  destruct (v_cast_float64_forma (cell r "distancia_ruta")) as [-> | [x ->]];
  destruct (v_cast_float64_forma (cell r "distancia_eucl")) as [-> | [y ->]];
    simpl;
    repeat match goal with
           | |- context [f64_gt_zero ?a] => destruct (f64_gt_zero a); simpl
           | |- context [0 <? ?a] => destruct (0 <? a); simpl
           end; reflexivity.
Qed.

(** Stage 3 in closed form, on the rows stages 1 and 2 produce. *)
Lemma etapa_distancias_ok cols (l : list (row F)) :
  "dveh_eucfinal" ∈ cols -> "d_vehiculo_eucl_total_m" ∈ cols ->
  "distancia_ruta" ∈ cols -> "distancia_eucl" ∈ cols ->
  (forall r, In r l -> fila_viaje r = true) ->
  etapa_distancias {| columns := cols; rows := map derivar l |}
  = Ok {| columns := agregar_columnas cols columnas_temporales;
          rows := map con_distancias (List.filter pasa_distancias l) |}.
Proof.
  intros Hfin Hd Hruta Heucl Hl. unfold etapa_distancias, with_columns.
  cbn [columns rows].
  rewrite comprobar_columnas_ok.
  2:{ intros c Hc. apply list_elem_of_In in Hc. simpl in Hc.
      decompose [or] Hc; subst; try contradiction; assumption. }
  cbn [res_bind].
  rewrite (mapM_res_map_ok _ derivar
             (fun r => <["dveh_eucfinal" := dveh_eucfinal_imputado r]>
                         (derivar r))).
  2:{ intros r _. apply imputar_fila. }
  cbn [res_bind columns rows].
  assert (agregar_columnas cols (map fst imputar_dveh_eucfinal) = cols) as ->.
  { simpl. apply agregar_columna_present, Hfin. }
  rewrite comprobar_columnas_ok.
  2:{ intros c Hc. apply list_elem_of_In in Hc. simpl in Hc.
      decompose [or] Hc; subst; try contradiction; assumption. }
  cbn [res_bind].
  rewrite (mapM_res_map_ok _ _ con_distancias).
  2:{ intros r _. apply distancias_float_fila. }
  cbn [res_bind]. unfold filter. cbn [columns rows].
  rewrite comprobar_columnas_ok.
  2:{ intros c Hc. apply list_elem_of_In in Hc. simpl in Hc.
      decompose [or] Hc; subst; try contradiction;
        first [ solve [apply agregar_columnas_new, list_elem_of_In; en_lista]
              | apply agregar_columnas_old; assumption ]. }
  cbn [res_bind].
  rewrite (filterM_res_map_ok _ con_distancias pasa_distancias).
  2:{ intros r Hr. apply mascara_filtro_distancias, Hl, Hr. }
  reflexivity.
Qed.

Lemma calcular_pct_ok (nf ni : Z) : calcular_pct nf ni = Ok (pct_de nf ni).
Proof.
  unfold calcular_pct, pct_de, truediv.
  destruct (0 <? ni) eqn:E; [|reflexivity].
  apply Z.ltb_lt in E.
  destruct (ni =? 0) eqn:E0; [apply Z.eqb_eq in E0; lia|]. reflexivity.
Qed.

Lemma eliminar_temporales_ok cols (l : list (row F)) :
  eliminar_temporales
    {| columns := agregar_columnas cols columnas_temporales;
       rows := map con_distancias l |}
  = Ok {| columns :=
            List.filter (fun c => negb (bool_decide (c ∈ columnas_temporales)))
              (agregar_columnas cols columnas_temporales);
          rows := map registro_salida l |}.
Proof.
  unfold eliminar_temporales. cbn [columns].
  assert (List.filter
            (fun c => bool_decide
                        (c ∈ agregar_columnas cols columnas_temporales))
            columnas_temporales = columnas_temporales) as ->.
  { unfold columnas_temporales at 2 3. cbn [List.filter].
    rewrite !bool_decide_eq_true_2;
      [reflexivity|apply agregar_columnas_new, list_elem_of_In; en_lista..]. }
  unfold columnas_temporales at 1. unfold drop. cbn [columns rows].
  rewrite comprobar_columnas_ok.
  2:{ intros c Hc. apply agregar_columnas_new. exact Hc. }
  cbn [res_bind]. rewrite map_map. reflexivity.
Qed.

(** The whole filter in closed form: the rows that pass the three
    predicates, in their order, each with its derived and imputed cells;
    the statistics count the rows after each stage. *)
Lemma aplicar_filtros_ok df :
  trip_frame df = true ->
  let l1 := List.filter pasa_tiempo (rows df) in
  let l2 := List.filter pasa_paraderos l1 in
  let l3 := List.filter pasa_distancias l2 in
  aplicar_filtros df
  = Ok ({| columns := columnas_salida (columns df);
           rows := map registro_salida l3 |},
        {| n_inicial := len df;
           n_filtrados_tiempo := len df - Z.of_nat (length l1);
           n_filtrados_paraderos :=
             Z.of_nat (length l1) - Z.of_nat (length l2);
           n_filtrados_dist := Z.of_nat (length l2) - Z.of_nat (length l3);
           n_final := Z.of_nat (length l3);
           pct_retenido := pct_de (Z.of_nat (length l3)) (len df) |}).
Proof.
  intros Hdf l1 l2 l3. unfold aplicar_filtros.
  rewrite (etapa_tiempo_ok df Hdf). cbn [res_bind].
  assert (forall c, c ∈ columnas_requeridas ->
                    c ∈ agregar_columnas (columns df) columnas_derivadas)
    as Hcols.
  { intros c Hc. apply agregar_columnas_old, (trip_frame_cols df c Hdf Hc). }
  rewrite etapa_paraderos_ok
    by (apply Hcols, list_elem_of_In; en_lista).
  cbn [res_bind].
  rewrite etapa_distancias_ok.
  2-5: first [ solve [apply Hcols, list_elem_of_In; en_lista]
             | apply agregar_columnas_new, list_elem_of_In; en_lista ].
  2:{ intros r Hr. apply (trip_frame_rows df r Hdf).
      apply List.filter_In in Hr as [Hr _].
      apply List.filter_In in Hr as [Hr _]. exact Hr. }
  cbn [res_bind]. rewrite eliminar_temporales_ok. cbn [res_bind].
  unfold len. cbn [rows]. rewrite !length_map. fold l1 l2 l3.
  rewrite calcular_pct_ok. reflexivity.
Qed.

(** Stages 1 to 3 in closed form. *)
Lemma hasta_distancias_ok df :
  trip_frame df = true ->
  (let* d1 := etapa_tiempo df in etapa_paraderos d1)
  = Ok {| columns := agregar_columnas (columns df) columnas_derivadas;
          rows := map derivar
                    (List.filter pasa_paraderos
                       (List.filter pasa_tiempo (rows df))) |} /\
  etapa_distancias
    {| columns := agregar_columnas (columns df) columnas_derivadas;
       rows := map derivar
                 (List.filter pasa_paraderos
                    (List.filter pasa_tiempo (rows df))) |}
  = Ok {| columns :=
            agregar_columnas
              (agregar_columnas (columns df) columnas_derivadas)
              columnas_temporales;
          rows := map con_distancias
                    (List.filter pasa_distancias
                       (List.filter pasa_paraderos
                          (List.filter pasa_tiempo (rows df)))) |}.
Proof.
  intros Hdf.
  assert (forall c, c ∈ columnas_requeridas ->
                    c ∈ agregar_columnas (columns df) columnas_derivadas)
    as Hcols.
  { intros c Hc. apply agregar_columnas_old, (trip_frame_cols df c Hdf Hc). }
  split.
  - rewrite (etapa_tiempo_ok df Hdf). cbn [res_bind].
    apply etapa_paraderos_ok; apply Hcols, list_elem_of_In; en_lista.
  - apply etapa_distancias_ok.
    1-4: first [ solve [apply Hcols, list_elem_of_In; en_lista]
               | apply agregar_columnas_new, list_elem_of_In; en_lista ].
    intros r Hr. apply (trip_frame_rows df r Hdf).
    apply List.filter_In in Hr as [Hr _].
    apply List.filter_In in Hr as [Hr _]. exact Hr.
Qed.

(** Whatever the frame, when the filter returns its statistics count the
    rows of the input and of the output, the deltas are non-negative and
    add up. *)
Lemma aplicar_filtros_stats df out stats :
  aplicar_filtros df = Ok (out, stats) ->
  n_inicial stats = len df /\ n_final stats = len out /\
  0 <= n_filtrados_tiempo stats /\ 0 <= n_filtrados_paraderos stats /\
  0 <= n_filtrados_dist stats /\
  n_inicial stats
  = n_filtrados_tiempo stats + n_filtrados_paraderos stats
    + n_filtrados_dist stats + n_final stats.
Proof.
  unfold aplicar_filtros, etapa_tiempo, etapa_paraderos, etapa_distancias.
  destruct (with_columns columnas_calculadas df) as [d0|] eqn:E0;
    cbn [res_bind]; [|discriminate].
  destruct (filter filtro_tiempo d0) as [d1|] eqn:E1;
    cbn [res_bind]; [|discriminate].
  destruct (filter filtro_paraderos d1) as [d2|] eqn:E2;
    cbn [res_bind]; [|discriminate].
  destruct (with_columns imputar_dveh_eucfinal d2) as [d3|] eqn:E3;
    cbn [res_bind]; [|discriminate].
  destruct (with_columns distancias_float d3) as [d4|] eqn:E4;
    cbn [res_bind]; [|discriminate].
  destruct (filter filtro_distancias d4) as [d5|] eqn:E5;
    cbn [res_bind]; [|discriminate].
  destruct (eliminar_temporales d5) as [d6|] eqn:E6;
    cbn [res_bind]; [|discriminate].
  rewrite calcular_pct_ok. cbn [res_bind]. intros [= <- <-].
  cbn [n_inicial n_filtrados_tiempo n_filtrados_paraderos n_filtrados_dist
       n_final].
  apply with_columns_len in E0, E3, E4.
  apply filter_len in E1, E2, E5.
  assert (len d6 = len d5) as E6'.
  { unfold eliminar_temporales in E6.
    destruct (List.filter _ columnas_temporales).
    - injection E6 as <-. reflexivity.
    - eapply drop_len, E6. }
  lia.
Qed.

End FiltroProps.

(* ===================================================================== *)
(** ** Doubles: rounding below a bound *)
(* ===================================================================== *)

Lemma digits2_pos_size (p : positive) : digits2_pos p = Pos.size p.
Proof. induction p as [p IH|p IH|]; simpl; congruence. Qed.

Lemma Zdigits2_log2 (m : Z) : 0 < m -> Zdigits2 m = Z.log2 m + 1.
Proof.
  destruct m as [|p|p]; try lia. intros _. unfold Zdigits2.
  rewrite digits2_pos_size. destruct p as [p|p|]; simpl; lia.
Qed.

Lemma Zdigits2_cota (m c k : Z) :
  0 < c -> 0 <= k -> 0 <= m <= c * 2 ^ k ->
  Zdigits2 m <= Zdigits2 c + k.
Proof.
  intros Hc Hk [Hm0 Hm].
  assert (0 < Zdigits2 c) as Hdc
    by (rewrite Zdigits2_log2 by exact Hc; pose proof (Z.log2_nonneg c); lia).
  destruct (Z.eq_dec m 0) as [-> | Hne]; [simpl; lia|].
  rewrite (Zdigits2_log2 m) by lia. rewrite (Zdigits2_log2 c) by exact Hc.
  pose proof (Z.log2_le_mono m (c * 2 ^ k) Hm) as Hl.
  rewrite Z.log2_mul_pow2 in Hl by lia. lia.
Qed.

Lemma shr_1_acotado (c k : Z) (mrs : shr_record) :
  0 < c -> 0 < k -> acotado c k mrs -> acotado c (k - 1) (shr_1 mrs).
Proof.
  intros Hc Hk [[H0 Hle] Hex].
  assert (c * 2 ^ k = 2 * (c * 2 ^ (k - 1))) as EK.
  { replace k with (Z.succ (k - 1)) at 1 by lia.
    rewrite Z.pow_succ_r by lia. ring. }
  assert (0 < c * 2 ^ (k - 1)) as HK'
    by (apply Z.mul_pos_pos; [exact Hc|apply Z.pow_pos_nonneg; lia]).
  destruct mrs as [m r s]. cbn [shr_m shr_r shr_s] in *.
  unfold acotado.
  destruct m as [|[p|p|]|p]; cbn [shr_1 shr_m shr_r shr_s];
    try pose proof (Pos2Z.inj_xO p) as Hp0;
    try pose proof (Pos2Z.inj_xI p) as Hp1; try lia;
    (split; [lia|]); intros E; try (exfalso; lia).
  destruct (Hex ltac:(lia)) as [-> ->]. auto.
Qed.

Lemma iter_shr_1_acotado (c : Z) (p : positive) : forall k mrs,
  0 < c -> Zpos p <= k -> acotado c k mrs ->
  acotado c (k - Zpos p) (SpecFloat.iter_pos shr_1 p mrs).
Proof.
  induction p as [p IH|p IH|]; intros k mrs Hc Hk Hm; cbn [SpecFloat.iter_pos].
  - replace (k - Z.pos p~1) with (k - 1 - Z.pos p - Z.pos p) by lia.
    apply IH; [exact Hc|lia|]. apply IH; [exact Hc|lia|].
    apply shr_1_acotado; [exact Hc|lia|exact Hm].
  - replace (k - Z.pos p~0) with (k - Z.pos p - Z.pos p) by lia.
    apply IH; [exact Hc|lia|]. apply IH; [exact Hc|lia|exact Hm].
  - apply shr_1_acotado; [exact Hc|lia|exact Hm].
Qed.

Lemma shr_acotado (c k : Z) (mrs : shr_record) (e n : Z) :
  0 < c -> n <= k -> acotado c k mrs ->
  snd (shr mrs e n) = e + Z.max 0 n /\
  acotado c (k - Z.max 0 n) (fst (shr mrs e n)).
Proof.
  intros Hc Hn Hm. destruct n as [|p|p]; cbn [shr fst snd].
  - rewrite Z.max_id, Z.add_0_r, Z.sub_0_r. auto.
  - rewrite Z.max_r by lia. split; [reflexivity|].
    apply iter_shr_1_acotado; assumption.
  - rewrite Z.max_l by lia. rewrite Z.add_0_r, Z.sub_0_r. auto.
Qed.

Section Cota.

(** The bound [c * 2^t], with [c] of at most [prec] bits. *)
Variables c t : Z.
Hypothesis Hc : 0 < c.

Hypothesis Hdig : Zdigits2 c <= Ieee.prec.
Hypothesis Hemin : emin Ieee.prec Ieee.emax <= tope c t.
Hypothesis Hemax : tope c t <= Ieee.emax - Ieee.prec.

Lemma shr_fexp_acotado (m e : Z) (l : location) :
  e <= tope c t ->
  0 <= m <= c * 2 ^ (t - e) ->
  (m = c * 2 ^ (t - e) -> l = loc_Exact) ->
  let e' := snd (shr_fexp Ieee.prec Ieee.emax m e l) in
  e <= e' <= tope c t /\
  acotado c (t - e') (fst (shr_fexp Ieee.prec Ieee.emax m e l)).
Proof.
  intros He Hm Hl. unfold shr_fexp.
  set (n := fexp Ieee.prec Ieee.emax (Zdigits2 m + e) - e).
  assert (t - e >= 0) as Hte by (unfold tope in He; lia).
  assert (e + n <= tope c t) as Hn.
  { unfold n, fexp.
    pose proof (Zdigits2_cota m c (t - e) Hc ltac:(lia) Hm) as Hd.
    unfold tope in *. lia. }
  assert (acotado c (t - e) (shr_record_of_loc m l)) as Hinv.
  { unfold acotado.
    destruct l as [|[]]; cbn [shr_record_of_loc shr_m shr_r shr_s];
      (split; [exact Hm|]); intros E; specialize (Hl E);
      try discriminate; auto. }
  destruct (shr_acotado c (t - e) (shr_record_of_loc m l) e n Hc
              ltac:(unfold tope in *; lia) Hinv) as [Es Ha].
  cbn zeta. rewrite Es. split; [lia|].
  replace (t - (e + Z.max 0 n)) with (t - e - Z.max 0 n) by lia. exact Ha.
Qed.

Lemma round_acotado (k : Z) (mrs : shr_record) :
  acotado c k mrs ->
  0 <= round_nearest_even (shr_m mrs) (loc_of_shr_record mrs) <= c * 2 ^ k.
Proof.
  intros [[H0 Hle] Hex]. destruct mrs as [m r s].
  cbn [shr_m shr_r shr_s] in *.
  assert (r = true \/ s = true -> m < c * 2 ^ k) as Hlt.
  { intros Hrs. destruct (Z.eq_dec m (c * 2 ^ k)) as [E|]; [|lia].
    destruct (Hex E) as [-> ->]. destruct Hrs; discriminate. }
  destruct r, s; cbn [loc_of_shr_record round_nearest_even];
    try destruct (Z.even m); try specialize (Hlt ltac:(auto)); lia.
Qed.

(** A rounding of a quantity below [c * 2^t] stays below it. *)
Lemma binary_round_aux_acotado (sx : bool) (mx ex : Z) (lx : location) :
  ex <= tope c t ->
  0 <= mx <= c * 2 ^ (t - ex) ->
  (mx = c * 2 ^ (t - ex) -> lx = loc_Exact) ->
  binary_round_aux Ieee.prec Ieee.emax sx mx ex lx = S754_zero sx \/
  exists m e,
    binary_round_aux Ieee.prec Ieee.emax sx mx ex lx = S754_finite sx m e /\
    e <= tope c t /\ Zpos m <= c * 2 ^ (t - e).
Proof.
  intros He Hm Hl. unfold binary_round_aux.
  pose proof (shr_fexp_acotado mx ex lx He Hm Hl) as H1. cbn zeta in H1.
  destruct (shr_fexp Ieee.prec Ieee.emax mx ex lx) as [mrs' e'].
  cbn [fst snd] in H1. destruct H1 as [He' Ha'].
  pose proof (round_acotado _ _ Ha') as Hr.
  pose proof (shr_fexp_acotado _ e' loc_Exact ltac:(lia) Hr
                ltac:(reflexivity)) as H2.
  cbn zeta in H2.
  destruct (shr_fexp Ieee.prec Ieee.emax
              (round_nearest_even (shr_m mrs') (loc_of_shr_record mrs'))
              e' loc_Exact) as [mrs'' e''].
  cbn [fst snd] in H2. destruct H2 as [He'' [[H0 Hle] _]].
  destruct (shr_m mrs'') as [|m|m] eqn:Em; [left; reflexivity| |lia].
  right. exists m, e''.
  replace (e'' <=? Ieee.emax - Ieee.prec) with true
    by (symmetry; apply Z.leb_le; lia).
  split; [reflexivity|]. split; [lia|exact Hle].
Qed.

End Cota.

(** Python's [a / b] on positive integers with [a <= b]: at most 1. *)
Lemma cociente_acotado (a b : positive) :
  (a <= b)%positive ->
  SFdiv Ieee.prec Ieee.emax (S754_finite false a 0) (S754_finite false b 0)
  = S754_zero false \/
  exists m e,
    SFdiv Ieee.prec Ieee.emax (S754_finite false a 0) (S754_finite false b 0)
    = S754_finite false m e /\
    e <= -52 /\ Zpos m <= 2 ^ (- e).
Proof.
  intros Hab. unfold SFdiv, SFdiv_core_binary. cbn [xorb].
  assert (Zdigits2 (Zpos a) <= Zdigits2 (Zpos b)) as Hd.
  { rewrite !Zdigits2_log2 by lia.
    pose proof (Z.log2_le_mono (Zpos a) (Zpos b) ltac:(lia)). lia. }
  set (e' := Z.min (fexp Ieee.prec Ieee.emax
                      (Zdigits2 (Zpos a) + 0 - (Zdigits2 (Zpos b) + 0)))
                   (0 - 0)).
  assert (-1074 <= e' <= -53) as He'.
  { unfold e', fexp, emin, Ieee.prec, Ieee.emax. lia. }
  destruct (0 - 0 - e') as [|s|s] eqn:Es; try lia.
  rewrite Z.shiftl_mul_pow2 by lia.
  pose proof (Z_div_mod (Zpos a * 2 ^ Zpos s) (Zpos b) ltac:(lia)) as Hdiv.
  destruct (Z.div_eucl (Zpos a * 2 ^ Zpos s) (Zpos b)) as [q r].
  destruct Hdiv as [Hq Hr].
  assert (0 < 2 ^ Zpos s) as Hp by (apply Z.pow_pos_nonneg; lia).
  assert (0 <= q <= 2 ^ Zpos s) as Hqb by nia.
  destruct (binary_round_aux_acotado 1 0 ltac:(lia)
              ltac:(vm_compute; discriminate)
              ltac:(vm_compute; discriminate)
              ltac:(vm_compute; discriminate)
              false q e' (new_location (Zpos b) r))
    as [E | (m & e & E & He & Hm)].
  - change (tope 1 0) with (-52). lia.
  - replace (0 - e') with (Zpos s) by lia. lia.
  - replace (0 - e') with (Zpos s) by lia. intros Eq.
    assert (r = 0) as -> by nia.
    unfold new_location, new_location_even, new_location_odd.
    destruct (Z.even (Zpos b)); reflexivity.
  - left. exact E.
  - right. exists m, e. split; [exact E|].
    change (tope 1 0) with (-52) in He. split; [exact He|].
    replace (- e) with (0 - e) by lia. lia.
Qed.

(** A double that is at most 1, times 100: at most 100. *)
Lemma por_cien_acotado (m : positive) (e : Z) :
  e <= -52 -> Zpos m <= 2 ^ (- e) ->
  SFmul Ieee.prec Ieee.emax (S754_finite false m e) Ieee.cien
  = S754_zero false \/
  exists m' e',
    SFmul Ieee.prec Ieee.emax (S754_finite false m e) Ieee.cien
    = S754_finite false m' e' /\
    e' <= -46 /\ Zpos m' <= 25 * 2 ^ (2 - e').
Proof.
  intros He Hm. unfold SFmul, Ieee.cien. cbn [xorb].
  destruct (binary_round_aux_acotado 25 2 ltac:(lia)
              ltac:(vm_compute; discriminate)
              ltac:(vm_compute; discriminate)
              ltac:(vm_compute; discriminate)
              false (Zpos (m * 7036874417766400)) (e + -46) loc_Exact)
    as [E | (m' & e' & E & He' & Hm')].
  - change (tope 25 2) with (-46). lia.
  - split; [lia|]. rewrite Pos2Z.inj_mul.
    replace (2 - (e + -46)) with (48 + - e) by lia.
    rewrite Z.pow_add_r by lia.
    change 7036874417766400 with (25 * 2 ^ 48).
    assert (0 < 2 ^ 48) by (apply Z.pow_pos_nonneg; lia). nia.
  - reflexivity.
  - left. exact E.
  - right. exists m', e'. split; [exact E|].
    change (tope 25 2) with (-46) in He'. split; assumption.
Qed.

Lemma hasta_cien_orden (x : spec_float) :
  hasta_cien x ->
  SFleb Ieee.cero x = true /\ SFleb x Ieee.cien = true.
Proof.
  intros [-> | (m & e & -> & He & Hm)]; [split; reflexivity|].
  split; [reflexivity|].
  unfold SFleb, SFcompare, Ieee.cien.
  destruct (Z.compare_spec e (-46)) as [-> | Hlt | Hgt];
    [|reflexivity|lia].
  change (25 * 2 ^ (2 - -46)) with (Zpos 7036874417766400) in Hm.
  revert Hm. generalize 7036874417766400%positive. intros k Hm.
  destruct (Pos.compare_cont Eq m k) eqn:E; try reflexivity.
  exfalso. apply Hm. exact E.
Qed.

Lemma hasta_cien_valor (x : spec_float) :
  hasta_cien x -> (0 <= Ieee.valor x)%Q /\ (Ieee.valor x <= 100)%Q.
Proof.
  intros [-> | (m & e & -> & He & Hm)];
    [split; unfold Ieee.valor; [apply Qle_refl|discriminate]|].
  unfold Ieee.valor. cbn [cond_Zopp].
  assert (0 <= 2 ^ e)%Q as Hp by (apply Qpower_0_le; discriminate).
  split.
  - apply Qmult_le_0_compat; [|exact Hp]. unfold Qle. simpl. lia.
  - apply Qle_trans with (inject_Z (25 * 2 ^ (2 - e)) * 2 ^ e)%Q.
    + apply Qmult_le_compat_r; [|exact Hp].
      rewrite <- Zle_Qle. exact Hm.
    + rewrite inject_Z_mult, Zpower_Qpower by lia.
      rewrite <- Qmult_assoc, <- Qpower_plus by discriminate.
      replace (2 - e + e) with 2 by lia. apply Qle_refl.
Qed.

Lemma of_int_100 : Ieee.of_int 100 = Ieee.cien.
Proof. vm_compute. reflexivity. Qed.

(** The retained percentage of [nf] records out of [ni]. *)
Lemma pct_de_hasta_cien (nf ni : Z) :
  0 <= nf <= ni -> 0 < ni ->
  exists x, pct_de nf ni = NFloat x /\ hasta_cien x.
Proof.
  intros Hnf Hni. unfold pct_de.
  destruct (0 <? ni) eqn:E; [|apply Z.ltb_ge in E; lia].
  eexists. split; [reflexivity|]. rewrite of_int_100.
  destruct ni as [|b|b]; try lia.
  destruct nf as [|a|a]; try lia; cbn [Ieee.entero].
  - left. reflexivity.
  - destruct (cociente_acotado a b ltac:(lia))
      as [-> | (m & e & -> & He & Hm)]; [left; reflexivity|].
    destruct (por_cien_acotado m e He Hm)
      as [-> | (m' & e' & -> & He' & Hm')]; [left; reflexivity|].
    right. exists m', e'. auto.
Qed.

(* ===================================================================== *)
(** ** The partition filter: the stated properties *)
(* ===================================================================== *)


Section Propiedades.

Context {F : Type} `{Float64 F}.

Implicit Types (r : row F) (df : DataFrame F).

Lemma suma_null_safe_cero r cs :
  (forall c, In c cs -> cell r c = VNull \/ cell r c = VInt 0) ->
  suma_null_safe r cs = 0.
Proof.
  induction cs as [|c cs IH]; intros Hcs; simpl; [reflexivity|].
  rewrite IH by (intros c' Hc'; apply Hcs; right; exact Hc').
  unfold z_cell. destruct (Hcs c (or_introl eq_refl)) as [-> | ->];
    reflexivity.
Qed.

(** C1 (as amended). On every trip frame, stage 1 stores in
    [t_vehiculo_total_seg] the null-safe sum of [tv1..tv4] and in
    [t_total_calculado_seg] the null-safe sum of [te0..te3], [tv1..tv4] and
    [tc1..tc3], both reduced to Int64 (wrapped modulo 2^64, hence the exact
    sums whenever those fit in 64 bits), and keeps exactly the records, in
    their order, for which both stored sums are strictly positive.  A
    record whose vehicle times are all null or zero is dropped. *)
Theorem etapa_tiempo_sumas_int64 df :
  trip_frame df = true ->
  exists out,
    etapa_tiempo df = Ok out /\
    rows out = map derivar (List.filter pasa_tiempo (rows df)) /\
    (forall r,
       cell (derivar r) "t_vehiculo_total_seg"
       = VInt (Int64.wrap (suma_null_safe r tiempos_vehiculo)) /\
       cell (derivar r) "t_total_calculado_seg"
       = VInt (Int64.wrap (suma_null_safe r tiempos_todos)) /\
       pasa_tiempo r
       = (0 <? Int64.wrap (suma_null_safe r tiempos_vehiculo)) &&
         (0 <? Int64.wrap (suma_null_safe r tiempos_todos))) /\
    (forall r cs,
       Int64.in_range (suma_null_safe r cs) ->
       Int64.wrap (suma_null_safe r cs) = suma_null_safe r cs) /\
    (forall r,
       (forall c, In c tiempos_vehiculo ->
                  cell r c = VNull \/ cell r c = VInt 0) ->
       pasa_tiempo r = false).
Proof.
  intros Hdf. eexists. split; [apply etapa_tiempo_ok, Hdf|].
  cbn [rows]. split; [reflexivity|]. split; [|split].
  - intros r. split; [apply cell_derivar_t_vehiculo|].
    split; [apply cell_derivar_t_total|reflexivity].
  - intros r cs Hr. apply Int64_wrap_id, Hr.
  - intros r Hr. unfold pasa_tiempo, t_vehiculo_total_seg, suma_int64.
    rewrite (suma_null_safe_cero r tiempos_vehiculo Hr). reflexivity.
Qed.

(** Stage 3 over any Float64: the imputation, the two casts and the
    records kept, those that [pasa_distancias] accepts. *)
Lemma etapa_distancias_forma df :
  trip_frame df = true ->
  exists d2 d3,
    (let* d1 := etapa_tiempo df in etapa_paraderos d1) = Ok d2 /\
    etapa_distancias d2 = Ok d3 /\
    rows d2
    = map derivar
        (List.filter pasa_paraderos (List.filter pasa_tiempo (rows df))) /\
    rows d3
    = map con_distancias
        (List.filter pasa_distancias
           (List.filter pasa_paraderos
              (List.filter pasa_tiempo (rows df)))) /\
    (forall r,
       In r (rows df) ->
       (cell r "dveh_eucfinal" = VNull ->
        cell (con_distancias r) "dveh_eucfinal"
        = VInt (Int64.wrap (suma_null_safe r tramos_eucl))) /\
       (cell r "dveh_eucfinal" <> VNull ->
        cell (con_distancias r) "dveh_eucfinal" = cell r "dveh_eucfinal") /\
       cell (con_distancias r) "distancia_ruta_float"
       = v_cast_float64 (cell r "distancia_ruta") /\
       cell (con_distancias r) "distancia_eucl_float"
       = v_cast_float64 (cell r "distancia_eucl") /\
       pasa_distancias r
       = positivo (cell (con_distancias r) "distancia_ruta_float") &&
         positivo (cell (con_distancias r) "distancia_eucl_float") &&
         positivo (cell (con_distancias r) "dveh_eucfinal") /\
       (forall s, cell r "distancia_ruta" = VStr s ->
                  f64_of_string s = None ->
                  pasa_distancias r = false)) /\
    (forall s, f64_of_string s = None ->
               v_cast_float64 (VStr s) = VNull (F := F)) /\
    (forall s x, f64_of_string s = Some x ->
                 v_cast_float64 (VStr s) = VFloat x).
Proof.
  intros Hdf. destruct (hasta_distancias_ok df Hdf) as [E2 E3].
  eexists. eexists. split; [exact E2|]. split; [exact E3|].
  cbn [rows]. split; [reflexivity|]. split; [reflexivity|].
  split; [|split].
  - intros r Hr.
    rewrite cell_con_distancias_final, cell_con_distancias_ruta,
      cell_con_distancias_eucl.
    split; [|split; [|split; [|split; [|split]]]]; try reflexivity.
    + intros E. unfold dveh_eucfinal_imputado. rewrite E. reflexivity.
    + intros E. unfold dveh_eucfinal_imputado.
      destruct (cell r "dveh_eucfinal"); [contradiction|reflexivity..].
    + intros s Es Hs. unfold pasa_distancias, distancia_ruta_float.
      rewrite Es. simpl. rewrite Hs. reflexivity.
  - intros s Hs. simpl. rewrite Hs. reflexivity.
  - intros s x Hs. simpl. rewrite Hs. reflexivity.
Qed.

(** C3. On every trip frame the filter returns, and its statistics
    satisfy [n_final <= n_despues_paraderos <= n_despues_tiempo <=
    n_inicial], with [n_despues_tiempo = n_inicial - n_filtrados_tiempo]
    and [n_despues_paraderos = n_despues_tiempo - n_filtrados_paraderos];
    each of the three deltas is non-negative. *)
Theorem stats_monotonas df :
  trip_frame df = true ->
  exists out stats,
    aplicar_filtros df = Ok (out, stats) /\
    let n_despues_tiempo := n_inicial stats - n_filtrados_tiempo stats in
    let n_despues_paraderos :=
      n_despues_tiempo - n_filtrados_paraderos stats in
    n_final stats <= n_despues_paraderos /\
    n_despues_paraderos <= n_despues_tiempo /\
    n_despues_tiempo <= n_inicial stats /\
    0 <= n_filtrados_tiempo stats /\
    0 <= n_filtrados_paraderos stats /\
    0 <= n_filtrados_dist stats.
Proof.
  intros Hdf. eexists. eexists. split; [apply aplicar_filtros_ok, Hdf|].
  cbn [n_inicial n_filtrados_tiempo n_filtrados_paraderos n_filtrados_dist
       n_final]. unfold len.
  pose proof (filter_length_le_Z pasa_tiempo (rows df)).
  pose proof (filter_length_le_Z pasa_paraderos
                (List.filter pasa_tiempo (rows df))).
  pose proof (filter_length_le_Z pasa_distancias
                (List.filter pasa_paraderos
                   (List.filter pasa_tiempo (rows df)))).
  lia.
Qed.

(** C4. On every trip frame the filter returns without raising; when the
    input has rows, [pct_retenido] is the float
    [n_final / n_inicial * 100], each operation rounded to the nearest
    double, and it lies between 0 and 100: it is a finite double that is
    not negative, it compares [>= 0.0] and [<= 100.0], and the rational it
    stands for is between 0 and 100; when the input has no rows,
    [pct_retenido] is the integer 0 and the returned frame has no rows.
    The guard of the division never lets [/] see a zero divisor. *)
Theorem pct_retenido_acotado df :
  trip_frame df = true ->
  exists out stats,
    aplicar_filtros df = Ok (out, stats) /\
    (rows df <> [] ->
     exists x,
       pct_retenido stats
       = NFloat (SFmul Ieee.prec Ieee.emax
                   (SFdiv Ieee.prec Ieee.emax
                      (Ieee.entero (n_final stats))
                      (Ieee.entero (n_inicial stats)))
                   (Ieee.of_int 100)) /\
       pct_retenido stats = NFloat x /\
       (x = S754_zero false \/ exists m e, x = S754_finite false m e) /\
       SFleb Ieee.cero x = true /\ SFleb x Ieee.cien = true /\
       (0 <= Ieee.valor x)%Q /\ (Ieee.valor x <= 100)%Q) /\
    (rows df = [] -> pct_retenido stats = NInt 0 /\ rows out = []) /\
    (forall nf ni, calcular_pct nf ni <> Err ZeroDivisionError).
Proof.
  intros Hdf. eexists. eexists. split; [apply aplicar_filtros_ok, Hdf|].
  cbn [pct_retenido n_final n_inicial rows]. split; [|split].
  - intros Hne.
    assert (0 < len df) as Hpos.
    { unfold len. destruct (rows df); [contradiction|]. simpl. lia. }
    destruct (pct_de_hasta_cien
                (Z.of_nat
                   (length
                      (List.filter pasa_distancias
                         (List.filter pasa_paraderos
                            (List.filter pasa_tiempo (rows df))))))
                (len df)) as (x & Ex & Hx).
    + split; [lia|]. unfold len.
      pose proof (filter_length_le_Z pasa_tiempo (rows df)).
      pose proof (filter_length_le_Z pasa_paraderos
                    (List.filter pasa_tiempo (rows df))).
      pose proof (filter_length_le_Z pasa_distancias
                    (List.filter pasa_paraderos
                       (List.filter pasa_tiempo (rows df)))).
      lia.
    + exact Hpos.
    + exists x. split.
      { unfold pct_de. apply Z.ltb_lt in Hpos. rewrite Hpos. reflexivity. }
      split; [exact Ex|]. split.
      { destruct Hx as [-> | (m & e & -> & _)]; [left|right]; eauto. }
      destruct (hasta_cien_orden x Hx) as [H0 H100].
      destruct (hasta_cien_valor x Hx) as [V0 V100].
      repeat (split; [assumption|]). exact V100.
  - intros E. unfold len. rewrite E. split; reflexivity.
  - intros nf ni. rewrite calcular_pct_ok. discriminate.
Qed.

(** C10. On every trip frame the statistics split the input exactly:
    [n_inicial = n_filtrados_tiempo + n_filtrados_paraderos +
    n_filtrados_dist + n_final], [n_inicial] is the number of input
    records and [n_final] the number of records returned. *)
Theorem stats_particionan df :
  trip_frame df = true ->
  exists out stats,
    aplicar_filtros df = Ok (out, stats) /\
    n_inicial stats
    = n_filtrados_tiempo stats + n_filtrados_paraderos stats
      + n_filtrados_dist stats + n_final stats /\
    n_inicial stats = len df /\
    n_final stats = len out.
Proof.
  intros Hdf. eexists. eexists. split; [apply aplicar_filtros_ok, Hdf|].
  cbn [n_inicial n_filtrados_tiempo n_filtrados_paraderos n_filtrados_dist
       n_final].
  split; [lia|]. split; [reflexivity|].
  unfold len. cbn [rows]. rewrite length_map. reflexivity.
Qed.

Lemma filter_todos {A} (f : A -> bool) (l : list A) :
  (forall x, In x l -> f x = true) -> List.filter f l = l.
Proof.
  induction l as [|x l IH]; intros Hf; simpl; [reflexivity|].
  rewrite (Hf x) by (left; reflexivity).
  rewrite IH by (intros y Hy; apply Hf; right; exact Hy). reflexivity.
Qed.

Lemma agregar_columnas_fresh (cs : list string) : forall cols,
  NoDup cs -> (forall c, In c cs -> ~ In c cols) ->
  agregar_columnas cols cs = (cols ++ cs)%list.
Proof.
  unfold agregar_columnas.
  induction cs as [|c cs IH]; intros cols Hnd Hnew; cbn [fold_left].
  - rewrite app_nil_r. reflexivity.
  - apply NoDup_cons in Hnd as [Hc Hnd].
    rewrite agregar_columna_fresh.
    2:{ intros Hin%list_elem_of_In. apply (Hnew c); [left; reflexivity|].
        exact Hin. }
    rewrite IH; [|exact Hnd|].
    + rewrite <- app_assoc. reflexivity.
    + intros c' Hc' Hin. apply in_app_or in Hin as [Hin | Hin].
      * apply (Hnew c'); [right; exact Hc'|exact Hin].
      * destruct Hin as [<- | []]. apply Hc, list_elem_of_In, Hc'.
Qed.

(** The schema of the output when the input has none of the five names
    the filter introduces. *)
Lemma columnas_salida_nuevas (cols : list string) :
  (forall c, In c (columnas_derivadas ++ columnas_temporales)%list ->
             c ∉ cols) ->
  columnas_salida cols = (cols ++ columnas_derivadas)%list.
Proof.
  intros Hnew. unfold columnas_salida.
  assert (forall c, In c (columnas_derivadas ++ columnas_temporales)%list
                    -> ~ In c cols) as Hnew'.
  { intros c Hc Hin. apply (Hnew c Hc), list_elem_of_In, Hin. }
  assert (agregar_columnas
            (agregar_columnas cols columnas_derivadas) columnas_temporales
          = (cols ++ columnas_derivadas ++ columnas_temporales)%list) as ->.
  { unfold agregar_columnas. rewrite <- fold_left_app.
    apply agregar_columnas_fresh.
    - unfold columnas_derivadas, columnas_temporales. cbn [app].
      repeat (apply NoDup_cons_2;
              [intros Hin%list_elem_of_In; simpl in Hin;
               decompose [or] Hin; try discriminate; contradiction|]).
      apply NoDup_nil_2.
    - exact Hnew'. }
  rewrite List.filter_app. f_equal.
  apply filter_todos. intros c Hc.
  apply negb_true_iff, bool_decide_eq_false_2.
  intros Hin%list_elem_of_In. apply (Hnew' c); [|exact Hc].
  apply in_or_app. right. exact Hin.
Qed.

(** C5 (as amended). On every trip frame the returned frame has neither
    of the two temporary parsed-float columns, in its schema or in its
    rows; it does keep the three derived columns [t_vehiculo_total_seg],
    [t_total_calculado_seg] and [d_vehiculo_eucl_total_m], filled with the
    sums of stage 1, and every other column of the input.  When the input
    has none of those five names, the output schema is the input schema
    followed by the three derived columns. *)
Theorem esquema_salida df :
  trip_frame df = true ->
  exists out stats,
    aplicar_filtros df = Ok (out, stats) /\
    (forall c, c ∈ columnas_temporales -> c ∉ columns out) /\
    (forall c, c ∈ columnas_derivadas -> c ∈ columns out) /\
    (forall c, c ∈ columns df -> c ∉ columnas_temporales ->
               c ∈ columns out) /\
    ((forall c, In c (columnas_derivadas ++ columnas_temporales)%list ->
                c ∉ columns df) ->
     columns out = (columns df ++ columnas_derivadas)%list) /\
    (forall r', In r' (rows out) ->
       r' !! "distancia_ruta_float" = None /\
       r' !! "distancia_eucl_float" = None /\
       exists r,
         In r (rows df) /\
         cell r' "t_vehiculo_total_seg" = VInt (t_vehiculo_total_seg r) /\
         cell r' "t_total_calculado_seg" = VInt (t_total_calculado_seg r) /\
         cell r' "d_vehiculo_eucl_total_m"
         = VInt (d_vehiculo_eucl_total_m r)).
Proof.
  intros Hdf. eexists. eexists. split; [apply aplicar_filtros_ok, Hdf|].
  cbn [columns rows]. unfold columnas_salida.
  split; [|split; [|split; [|split]]].
  - intros c Hc Hin%list_elem_of_In. apply List.filter_In in Hin as [_ Hin].
    apply negb_true_iff, bool_decide_eq_false_1 in Hin. contradiction.
  - intros c Hc. apply list_elem_of_In, List.filter_In. split.
    + apply list_elem_of_In, agregar_columnas_old, agregar_columnas_new, Hc.
    + apply list_elem_of_In in Hc. simpl in Hc.
      decompose [or] Hc; subst; try contradiction; reflexivity.
  - intros c Hc Hn. apply list_elem_of_In, List.filter_In. split.
    + apply list_elem_of_In. do 2 apply agregar_columnas_old. exact Hc.
    + apply negb_true_iff, bool_decide_eq_false_2, Hn.
  - apply columnas_salida_nuevas.
  - intros r' Hr'. apply in_map_iff in Hr' as [r [<- Hr]].
    unfold registro_salida, quitar, columnas_temporales. cbn [fold_left].
    unfold row in *. split; [|split].
    + rewrite lookup_delete_ne by discriminate. apply lookup_delete_eq.
    + apply lookup_delete_eq.
    + exists r. split.
      { apply List.filter_In in Hr as [Hr _].
        apply List.filter_In in Hr as [Hr _].
        apply List.filter_In in Hr as [Hr _]. exact Hr. }
      fold (row F).
      rewrite !cell_delete_ne by discriminate.
      unfold con_distancias. rewrite !cell_insert_ne by discriminate.
      split; [apply cell_derivar_t_vehiculo|].
      split; [apply cell_derivar_t_total|apply cell_derivar_d].
Qed.

End Propiedades.

(* ===================================================================== *)
(** ** The filter on Polars' Float64 *)
(* ===================================================================== *)

Lemma gt_zero_mayor_que_cero (x : spec_float) :
  Ieee.gt_zero x = true <-> mayor_que_cero x.
Proof.
  unfold mayor_que_cero.
  destruct x as [[]|[]| |[] m e]; cbn;
    (split;
     [intros Hx; try discriminate Hx; eauto 6
     |intros [Hx | [Hx | (m' & e' & Hx)]]; try discriminate Hx;
      reflexivity]).
Qed.

Section PropiedadesIeee.

Context `{CastUtf8}.

(** A cell cast to Float64 passes [> 0] exactly when it holds a float
    that is greater than zero in Polars' order. *)
Lemma positivo_cast (v : value spec_float) :
  positivo (v_cast_float64 v) = true <->
  exists x, v_cast_float64 v = VFloat x /\ mayor_que_cero x.
Proof.
  destruct (v_cast_float64_forma v) as [-> | [x ->]]; cbn [positivo].
  - split; [discriminate|]. intros (x & Hx & _). discriminate.
  - change (f64_gt_zero x) with (Ieee.gt_zero x).
    rewrite gt_zero_mayor_que_cero. split.
    + intros Hx. exists x. auto.
    + intros (y & [= <-] & Hy). exact Hy.
Qed.

(** C2 (as amended). For the records that survive stages 1 and 2, stage 3
    replaces a null [dveh_eucfinal] by [d_vehiculo_eucl_total_m], the
    null-safe sum of [dveh_euc1..4] reduced to Int64, and leaves a non-null
    one as it is; it casts [distancia_ruta] and [distancia_eucl] to Float64
    without raising, text that does not parse becoming null; and it keeps
    exactly the records, in their order, whose [dveh_eucfinal] is an
    integer greater than 0 and whose two parsed distances are floats
    greater than zero in Polars' order: a positive number, [+inf] or NaN.
    A record whose [distancia_ruta] does not parse is dropped. *)
Theorem etapa_distancias_imputa_y_filtra (df : DataFrame spec_float) :
  trip_frame df = true ->
  exists d2 d3,
    (let* d1 := etapa_tiempo df in etapa_paraderos d1) = Ok d2 /\
    etapa_distancias d2 = Ok d3 /\
    rows d2
    = map derivar
        (List.filter pasa_paraderos (List.filter pasa_tiempo (rows df))) /\
    rows d3
    = map con_distancias
        (List.filter pasa_distancias
           (List.filter pasa_paraderos
              (List.filter pasa_tiempo (rows df)))) /\
    (forall r,
       In r (rows df) ->
       (cell r "dveh_eucfinal" = VNull ->
        cell (con_distancias r) "dveh_eucfinal"
        = VInt (Int64.wrap (suma_null_safe r tramos_eucl))) /\
       (cell r "dveh_eucfinal" <> VNull ->
        cell (con_distancias r) "dveh_eucfinal" = cell r "dveh_eucfinal") /\
       cell (con_distancias r) "distancia_ruta_float"
       = v_cast_float64 (cell r "distancia_ruta") /\
       cell (con_distancias r) "distancia_eucl_float"
       = v_cast_float64 (cell r "distancia_eucl") /\
       (pasa_distancias r = true <->
        (exists x, cell (con_distancias r) "distancia_ruta_float" = VFloat x
                   /\ mayor_que_cero x) /\
        (exists y, cell (con_distancias r) "distancia_eucl_float" = VFloat y
                   /\ mayor_que_cero y) /\
        (exists z, cell (con_distancias r) "dveh_eucfinal" = VInt z
                   /\ 0 < z)) /\
       (forall s, cell r "distancia_ruta" = VStr s ->
                  cast_utf8 s = None ->
                  pasa_distancias r = false)) /\
    (forall s, cast_utf8 s = None ->
               v_cast_float64 (VStr s) = (VNull : value spec_float)) /\
    (forall s x, cast_utf8 s = Some x ->
                 v_cast_float64 (VStr s) = VFloat x) /\
    (forall s, cast_utf8 s = Some S754_nan ->
               positivo (v_cast_float64 (VStr s : value spec_float))
               = true).
Proof.
  intros Hdf.
  destruct (etapa_distancias_forma df Hdf)
    as (d2 & d3 & E2 & E3 & R2 & R3 & Hr & Hn & Hs).
  exists d2, d3. repeat (split; [assumption|]).
  split; [|split; [exact Hn|split; [exact Hs|]]].
  - intros r Hin.
    destruct (Hr r Hin) as (I1 & I2 & C1 & C2 & _ & Hno).
    repeat (split; [assumption|]). split; [|exact Hno].
    pose proof (trip_frame_rows df r Hdf Hin) as Hfila.
    rewrite C1, C2, cell_con_distancias_final.
    unfold pasa_distancias, distancia_ruta_float, distancia_eucl_float.
    rewrite !andb_true_iff, !positivo_cast.
    rewrite (dveh_eucfinal_imputado_entero r Hfila). cbn [positivo].
    rewrite Z.ltb_lt. split.
    + intros [[Hx Hy] Hz]. repeat (split; [assumption|]). eauto.
    + intros (Hx & Hy & z & [= <-] & Hz). auto.
  - intros s E. rewrite (Hs s S754_nan E). reflexivity.
Qed.

End PropiedadesIeee.

(* ===================================================================== *)
(** ** The partition worker: the stated properties *)
(* ===================================================================== *)

Lemma length_append (s t : string) :
  String.length (s ++ t) = (String.length s + String.length t)%nat.
Proof. induction s as [|a s IH]; simpl; [reflexivity|]. rewrite IH. reflexivity. Qed.

Lemma incluye_length (s t : string) :
  incluye s t -> (String.length t <= String.length s)%nat.
Proof. intros (pre & post & ->). rewrite !length_append. lia. Qed.

Section WorkerProps.

Context {F : Type} `{Float64 F}.

Implicit Types (env : Entorno F) (p : Particion) (st : Estado F).

Lemma falla_cuerpo_err env p e st :
  falla_cuerpo env p e ->
  fst (leer_filtrar_guardar env p st) = Err e.
Proof.
  intros Hf. unfold leer_filtrar_guardar, bindW, llamar, puro, modificar, retW.
  inversion Hf; subst;
    repeat match goal with
           | E : _ = _ |- _ => rewrite E; clear E; cbn [fst snd]
           end; reflexivity.
Qed.

Lemma manejar_excepcion_libera env p e st :
  liberado (snd (manejar_excepcion env p e st)).
Proof.
  unfold manejar_excepcion, liberado.
  destruct st as [[t|] [d|] [d'|] tr]; cbn; auto.
Qed.

Lemma manejar_excepcion_mensaje env p e st :
  fst (manejar_excepcion env p e st)
  = Devuelve (Error (year p) (week p)
                (str_exn e ++ String (Ascii.ascii_of_nat 10) ""
                         ++ format_exc env e)).
Proof. reflexivity. Qed.

(** When the body ends without exception it has released everything. *)
Lemma leer_filtrar_guardar_libera env p st r st' :
  leer_filtrar_guardar env p st = (Ok r, st') -> liberado st'.
Proof.
  unfold leer_filtrar_guardar, bindW, llamar, puro, modificar, retW.
  destruct (open_input_file env (path p)); [|discriminate].
  destruct (read_table env (path p)) as [t|]; [|discriminate].
  destruct (from_arrow env t) as [d|]; [|discriminate].
  destruct (aplicar_filtros d) as [[out stats]|]; [|discriminate].
  destruct (gfs_makedirs env (output_partition p)); [|discriminate].
  destruct (gfs_open_wb env (output_file p)); [|discriminate].
  destruct (write_parquet env (output_file p) out); [|discriminate].
  intros [= <- <-]. unfold liberado. cbn. auto.
Qed.

(** With an existing output artifact and [force_reprocess] false the
    input file is neither opened nor read, whatever the credentials. *)
Lemma sin_lectura_si_existe env p :
  gfs_exists env (output_file p) = Ok true ->
  forall f, ~ In (EvOpenInputFile f)
              (traza (snd (procesar_particion env p false))) /\
            ~ In (EvReadTable f)
              (traza (snd (procesar_particion env p false))).
Proof.
  intros Hex. unfold procesar_particion. rewrite Hex.
  destruct (credenciales env) as [[]|e]; cbn; intros f.
  - split; intros [Hf | [Hf | []]]; discriminate.
  - split; intros [Hf | []]; discriminate.
Qed.

(** C6. A worker that has acquired its credentials and finds the output
    artifact [<OUTPUT_PATH>/iso_year=<Y>/iso_week=<W>/data-0.parquet]
    with [force_reprocess] false returns [skipped] immediately: it returns
    right after the existence check, the only calls it has made are the
    credential acquisition and that check, and it never opens or reads
    the input file. *)
Theorem omite_si_existe env p :
  credenciales env = Ok tt ->
  gfs_exists env (output_file p) = Ok true ->
  procesar_particion env p false
  = (Devuelve (Skipped (year p) (week p)),
     {| tabla := None; df := None; df_filtrado := None;
        traza := [EvCredenciales; EvExists (output_file p)] |}) /\
  (forall f, ~ In (EvOpenInputFile f)
               (traza (snd (procesar_particion env p false))) /\
             ~ In (EvReadTable f)
               (traza (snd (procesar_particion env p false)))).
Proof.
  intros Hc Hex. split; [|apply sin_lectura_si_existe, Hex].
  unfold procesar_particion. rewrite Hc, Hex. reflexivity.
Qed.

(** C7 (as amended). An exception raised while acquiring the credentials
    is caught and returned as an [error] result whose message is
    ["Error de autenticación GCS: "] followed by the text of the exception,
    without traceback.  An exception raised while reading, filtering or
    writing is caught and returned as an [error] result whose message is
    the text of the exception, a newline and the full traceback.  However
    the call ends, none of the three large structures is still held; and
    no exception leaves the worker from the credentials, the read, the
    filter or the write. *)
Theorem excepciones_del_worker env p force_reprocess :
  (forall e,
     credenciales env = Err e ->
     fst (procesar_particion env p force_reprocess)
     = Devuelve (Error (year p) (week p)
                   ("Error de autenticación GCS: " ++ str_exn e))) /\
  (forall e existe,
     credenciales env = Ok tt ->
     gfs_exists env (output_file p) = Ok existe ->
     existe && negb force_reprocess = false ->
     falla_cuerpo env p e ->
     fst (procesar_particion env p force_reprocess)
     = Devuelve (Error (year p) (week p)
                   (str_exn e ++ String (Ascii.ascii_of_nat 10) ""
                            ++ format_exc env e))) /\
  liberado (snd (procesar_particion env p force_reprocess)) /\
  (forall e,
     fst (procesar_particion env p force_reprocess) = Propaga e ->
     credenciales env = Ok tt /\
     gfs_exists env (output_file p) = Err e).
Proof.
  unfold procesar_particion. split; [|split; [|split]].
  - intros e ->. reflexivity.
  - intros e existe -> -> -> Hf.
    pose proof (falla_cuerpo_err env p e
                  (registrar (EvExists (output_file p))
                     (registrar EvCredenciales estado_inicial)) Hf) as E.
    destruct (leer_filtrar_guardar env p _) as [[r|e'] st']; cbn in E.
    + discriminate.
    + injection E as ->. apply manejar_excepcion_mensaje.
  - destruct (credenciales env); [|cbv; auto].
    destruct (gfs_exists env (output_file p)) as [existe|]; [|cbv; auto].
    destruct (existe && negb force_reprocess); [cbv; auto|].
    destruct (leer_filtrar_guardar env p _) as [[r|e'] st'] eqn:E.
    + cbn. eapply leer_filtrar_guardar_libera, E.
    + apply manejar_excepcion_libera.
  - intros e. destruct (credenciales env) as [[]|]; [|discriminate].
    destruct (gfs_exists env (output_file p)) as [existe|e0].
    + destruct (existe && negb force_reprocess); [discriminate|].
      destruct (leer_filtrar_guardar env p _) as [[r|e'] st'];
        cbn; discriminate.
    + cbn. intros [= ->]. split; reflexivity.
Qed.

End WorkerProps.

(* ===================================================================== *)
(** ** The orchestrator: the stated properties *)
(* ===================================================================== *)

Lemma recorrer_desde (fs : list Futuro) : forall g,
  let g' := fold_left acumular fs g in
  g_n_inicial g' = g_n_inicial g + suma_Z (map n_inicial (exitos fs)) /\
  g_n_filtrados_tiempo g'
  = g_n_filtrados_tiempo g + suma_Z (map n_filtrados_tiempo (exitos fs)) /\
  g_n_filtrados_paraderos g'
  = g_n_filtrados_paraderos g
    + suma_Z (map n_filtrados_paraderos (exitos fs)) /\
  g_n_filtrados_dist g'
  = g_n_filtrados_dist g + suma_Z (map n_filtrados_dist (exitos fs)) /\
  g_n_final g' = g_n_final g + suma_Z (map n_final (exitos fs)) /\
  particiones_procesadas g'
  = particiones_procesadas g + Z.of_nat (length (exitos fs)) /\
  particiones_skipped g' = particiones_skipped g + contar es_skipped fs /\
  particiones_fallidas g' = particiones_fallidas g + contar es_fallo fs.
Proof.
  unfold contar.
  induction fs as [|f fs IH]; intros g; cbn [fold_left].
  - cbn. repeat split; lia.
  - specialize (IH (acumular g f)). cbn zeta in IH.
    destruct IH as (I1 & I2 & I3 & I4 & I5 & I6 & I7 & I8).
    cbn zeta. rewrite I1, I2, I3, I4, I5, I6, I7, I8.
    destruct f as [[y w stats | y w | y w msg] | e];
      cbn [acumular exitos map suma_Z fold_right List.filter es_skipped
           es_fallo length g_n_inicial g_n_filtrados_tiempo
           g_n_filtrados_paraderos g_n_filtrados_dist g_n_final
           particiones_procesadas particiones_skipped particiones_fallidas];
      fold (suma_Z (map n_inicial (exitos fs)));
      fold (suma_Z (map n_filtrados_tiempo (exitos fs)));
      fold (suma_Z (map n_filtrados_paraderos (exitos fs)));
      fold (suma_Z (map n_filtrados_dist (exitos fs)));
      fold (suma_Z (map n_final (exitos fs)));
      repeat split; lia.
Qed.

(** C9. The batch totals are the componentwise sums of the statistics of
    exactly the [success] results; the three partition counters count the
    [success] results, the [skipped] results, and the [error] results
    together with the futures that raised.  A result that is not a
    [success] leaves the five numeric totals as they were. *)
Theorem totales_del_lote (fs : list Futuro) :
  g_n_inicial (recorrer fs) = suma_Z (map n_inicial (exitos fs)) /\
  g_n_filtrados_tiempo (recorrer fs)
  = suma_Z (map n_filtrados_tiempo (exitos fs)) /\
  g_n_filtrados_paraderos (recorrer fs)
  = suma_Z (map n_filtrados_paraderos (exitos fs)) /\
  g_n_filtrados_dist (recorrer fs)
  = suma_Z (map n_filtrados_dist (exitos fs)) /\
  g_n_final (recorrer fs) = suma_Z (map n_final (exitos fs)) /\
  particiones_procesadas (recorrer fs) = Z.of_nat (length (exitos fs)) /\
  particiones_skipped (recorrer fs) = contar es_skipped fs /\
  particiones_fallidas (recorrer fs) = contar es_fallo fs /\
  (forall g f,
     exitos [f] = [] ->
     g_n_inicial (acumular g f) = g_n_inicial g /\
     g_n_filtrados_tiempo (acumular g f) = g_n_filtrados_tiempo g /\
     g_n_filtrados_paraderos (acumular g f) = g_n_filtrados_paraderos g /\
     g_n_filtrados_dist (acumular g f) = g_n_filtrados_dist g /\
     g_n_final (acumular g f) = g_n_final g /\
     particiones_procesadas (acumular g f) = particiones_procesadas g /\
     particiones_skipped (acumular g f) + particiones_fallidas (acumular g f)
     = particiones_skipped g + particiones_fallidas g + 1).
Proof.
  pose proof (recorrer_desde fs stats_globales_inicial) as Hr.
  cbn zeta in Hr. fold (recorrer fs) in Hr. cbn in Hr.
  destruct Hr as (I1 & I2 & I3 & I4 & I5 & I6 & I7 & I8).
  repeat (split; [assumption|]).
  intros g f Hf.
  destruct f as [[y w stats | y w | y w msg] | e]; cbn in Hf;
    [discriminate|..]; cbn; repeat split; lia.
Qed.

(** C8. A run that reaches dispatch (credentials acquired, a non-empty
    list of partitions found) returns 1 exactly when some future ended in
    an [error] result or raised, and 0 otherwise; a run whose futures are
    all [success] or [skipped] returns 0. *)
Theorem codigo_de_salida_del_lote (env : EntornoMain) (ps : list Particion) :
  main_credenciales env = Ok tt ->
  listar_particiones env = Ok ps ->
  ps <> [] ->
  (fst (main env) = 1 <->
   exists f, In f (as_completed env ps) /\ es_fallo f = true) /\
  (fst (main env) = 0 <->
   forall f, In f (as_completed env ps) -> es_fallo f = false) /\
  (forall y w, es_fallo (Resultado_de (Skipped y w)) = false) /\
  (forall y w stats, es_fallo (Resultado_de (Success y w stats)) = false).
Proof.
  intros Hc Hl Hps. unfold main. rewrite Hc, Hl.
  destruct ps as [|p0 ps']; [contradiction|]. cbn [fst].
  unfold codigo_salida.
  destruct (recorrer_desde (as_completed env (p0 :: ps'))
              stats_globales_inicial)
    as (_ & _ & _ & _ & _ & _ & _ & Hfall).
  fold (recorrer (as_completed env (p0 :: ps'))) in Hfall.
  rewrite Hfall. cbn [particiones_fallidas stats_globales_inicial Z.add].
  unfold contar.
  set (fs := as_completed env (p0 :: ps')).
  assert (List.filter es_fallo fs = [] <->
          forall f, In f fs -> es_fallo f = false) as Hnil.
  { split.
    - intros E f Hf. destruct (es_fallo f) eqn:Ef; [|reflexivity].
      assert (In f (List.filter es_fallo fs)) as Hin
        by (apply List.filter_In; auto).
      rewrite E in Hin. destruct Hin.
    - intros Hall. destruct (List.filter es_fallo fs) as [|f l] eqn:E;
        [reflexivity|].
      assert (In f (List.filter es_fallo fs)) as Hin
        by (rewrite E; left; reflexivity).
      apply List.filter_In in Hin as [Hin Hf].
      rewrite (Hall f Hin) in Hf. discriminate. }
  split; [|split; [|split]]; try reflexivity.
  - destruct (List.filter es_fallo fs) as [|f l] eqn:E.
    + cbn. split; [discriminate|].
      intros (f & Hf & Ef). destruct Hnil as [Hnil _].
      rewrite (Hnil eq_refl f Hf) in Ef. discriminate.
    + split; [intros _|].
      * exists f.
        assert (In f (List.filter es_fallo fs)) as Hin
          by (rewrite E; left; reflexivity).
        apply List.filter_In in Hin. exact Hin.
      * intros _. cbn [length].
        destruct (Z.of_nat (S (length l)) =? 0) eqn:E0; [|reflexivity].
        apply Z.eqb_eq in E0. lia.
  - rewrite <- Hnil.
    destruct (List.filter es_fallo fs) as [|f l].
    + cbn. split; reflexivity.
    + cbn [length].
      destruct (Z.of_nat (S (length l)) =? 0) eqn:E0.
      * apply Z.eqb_eq in E0. lia.
      * split; discriminate.
Qed.

(* ===================================================================== *)
(** ** Concrete runs *)
(* ===================================================================== *)

(** The example of the specification: vehicle times 100, null, 50, 0 give
    150; the legs 70 and 50 give the imputed distance 120; the record is
    returned. *)
Example ejemplo_retenido :
  exists out stats,
    aplicar_filtros ejemplo_df = Ok (out, stats) /\
    rows out = [registro_salida ejemplo_fila] /\
    cell (registro_salida ejemplo_fila) "t_vehiculo_total_seg" = VInt 150 /\
    cell (registro_salida ejemplo_fila) "dveh_eucfinal" = VInt 120 /\
    n_final stats = 1.
Proof.
  eexists. eexists. split; [apply aplicar_filtros_ok; reflexivity|].
  repeat split; vm_compute; reflexivity.
Qed.

(** Of the three records of [df_mixto] the one without vehicle time
    leaves at stage 1 and the one with route distance "abc" at stage 3. *)
Example mixto_estadisticas :
  exists out,
    aplicar_filtros df_mixto
    = Ok (out,
          {| n_inicial := 3; n_filtrados_tiempo := 1;
             n_filtrados_paraderos := 0; n_filtrados_dist := 1;
             n_final := 1;
             pct_retenido := pct_de 1 3 |}).
Proof.
  eexists. rewrite aplicar_filtros_ok by reflexivity. reflexivity.
Qed.

Example worker_success :
  fst (procesar_particion (env_sano false) particion_2025_14 false)
  = Devuelve (Success 2025 14
                {| n_inicial := 3; n_filtrados_tiempo := 1;
                   n_filtrados_paraderos := 0; n_filtrados_dist := 1;
                   n_final := 1; pct_retenido := pct_de 1 3 |}).
Proof. vm_compute. reflexivity. Qed.

Example worker_lectura_rota :
  falla_cuerpo env_lectura_rota particion_2025_14 lectura_rota /\
  fst (procesar_particion env_lectura_rota particion_2025_14 false)
  = Devuelve (Error 2025 14
                ("read failed" ++ String (Ascii.ascii_of_nat 10) ""
                               ++ traceback lectura_rota)).
Proof.
  split; [apply falla_read; reflexivity|]. vm_compute. reflexivity.
Qed.

(** C1, the claim as written fails: the record has the null-safe sums
    [2^63] and [2^63 + 10], both strictly positive, and stage 1 drops it,
    because the Int64 columns hold [-2^63] and [-2^63 + 10]. *)
Lemma etapa_tiempo_desborde :
  trip_frame df_desborde_tiempo = true /\
  suma_null_safe fila_desborde_tiempo tiempos_vehiculo = 2 ^ 63 /\
  suma_null_safe fila_desborde_tiempo tiempos_todos = 2 ^ 63 + 10 /\
  cell (derivar fila_desborde_tiempo) "t_vehiculo_total_seg"
  = VInt (- 2 ^ 63) /\
  exists out, etapa_tiempo df_desborde_tiempo = Ok out /\ rows out = [].
Proof.
  split; [reflexivity|]. split; [reflexivity|]. split; [reflexivity|].
  split; [vm_compute; reflexivity|].
  eexists. split; [apply etapa_tiempo_ok; reflexivity|]. reflexivity.
Qed.

(** Stage 1 on the three records of [df_mixto]. *)
Lemma etapa_tiempo_sumas_int64_witness :
  trip_frame df_mixto = true /\
  exists out,
    etapa_tiempo df_mixto = Ok out /\
    rows out = map derivar (List.filter pasa_tiempo (rows df_mixto)).
Proof.
  split; [reflexivity|].
  destruct (etapa_tiempo_sumas_int64 df_mixto eq_refl) as (out & E & R & _).
  exists out. split; assumption.
Defined.

(** C2, the claim as written fails: the record survives stages 1 and 2,
    its parsed distances are positive and its legs sum to [2^63], yet
    stage 3 drops it, because the imputed [dveh_eucfinal] is the Int64
    value [-2^63]. *)
Lemma etapa_distancias_desborde :
  trip_frame df_desborde_eucl = true /\
  pasa_tiempo fila_desborde_eucl = true /\
  pasa_paraderos fila_desborde_eucl = true /\
  cell fila_desborde_eucl "dveh_eucfinal" = VNull /\
  suma_null_safe fila_desborde_eucl tramos_eucl = 2 ^ 63 /\
  positivo (distancia_ruta_float fila_desborde_eucl) = true /\
  positivo (distancia_eucl_float fila_desborde_eucl) = true /\
  cell (con_distancias fila_desborde_eucl) "dveh_eucfinal"
  = VInt (- 2 ^ 63) /\
  exists d2 d3,
    (let* d1 := etapa_tiempo df_desborde_eucl in etapa_paraderos d1)
    = Ok d2 /\
    rows d2 = [derivar fila_desborde_eucl] /\
    etapa_distancias d2 = Ok d3 /\
    rows d3 = [].
Proof.
  assert (pasa_tiempo fila_desborde_eucl = true) as H1
    by (vm_compute; reflexivity).
  assert (pasa_paraderos fila_desborde_eucl = true) as H2
    by (vm_compute; reflexivity).
  assert (pasa_distancias fila_desborde_eucl = false) as H3
    by (vm_compute; reflexivity).
  repeat (split; [vm_compute; reflexivity|]).
  destruct (hasta_distancias_ok df_desborde_eucl eq_refl) as [E2 E3].
  eexists. eexists. split; [exact E2|].
  unfold df_desborde_eucl. cbn [rows List.filter].
  rewrite H1. cbn [List.filter]. rewrite H2. cbn [List.filter map].
  split; [reflexivity|]. split; [exact E3|].
  unfold df_desborde_eucl. cbn [rows List.filter].
  rewrite H1. cbn [List.filter]. rewrite H2.
  cbn [List.filter]. rewrite H3. reflexivity.
Qed.

(** Stages 1 to 3 on the three records of [df_ieee]: the record whose
    route distance does not parse is dropped, the other two are kept. *)
Lemma etapa_distancias_imputa_y_filtra_witness :
  trip_frame df_ieee = true /\
  exists d2 d3,
    (let* d1 := etapa_tiempo df_ieee in etapa_paraderos d1) = Ok d2 /\
    etapa_distancias d2 = Ok d3 /\
    rows d3
    = map con_distancias
        (List.filter pasa_distancias
           (List.filter pasa_paraderos
              (List.filter pasa_tiempo (rows df_ieee)))) /\
    pasa_distancias fila_ruta_abc_ieee = false.
Proof.
  split; [reflexivity|].
  destruct (etapa_distancias_imputa_y_filtra df_ieee eq_refl)
    as (d2 & d3 & E2 & E3 & _ & R3 & Hr & _).
  exists d2, d3. split; [exact E2|]. split; [exact E3|].
  split; [exact R3|].
  destruct (Hr fila_ruta_abc_ieee ltac:(right; left; reflexivity))
    as (_ & _ & _ & _ & _ & Hno).
  apply (Hno "abc"); reflexivity.
Defined.

(** A route distance that reads ["NaN"] parses to NaN, which Polars ranks
    above zero: the record passes stage 3 and is returned. *)
Example nan_pasa_el_filtro :
  v_cast_float64 (cell fila_ruta_nan "distancia_ruta") = VFloat S754_nan /\
  pasa_distancias fila_ruta_nan = true /\
  exists out stats,
    aplicar_filtros df_ieee = Ok (out, stats) /\
    rows out
    = [registro_salida ejemplo_fila_ieee; registro_salida fila_ruta_nan] /\
    n_final stats = 2.
Proof.
  assert (pasa_tiempo ejemplo_fila_ieee = true) as A1
    by (vm_compute; reflexivity).
  assert (pasa_tiempo fila_ruta_abc_ieee = true) as A2
    by (vm_compute; reflexivity).
  assert (pasa_tiempo fila_ruta_nan = true) as A3
    by (vm_compute; reflexivity).
  assert (pasa_paraderos ejemplo_fila_ieee = true) as B1
    by (vm_compute; reflexivity).
  assert (pasa_paraderos fila_ruta_abc_ieee = true) as B2
    by (vm_compute; reflexivity).
  assert (pasa_paraderos fila_ruta_nan = true) as B3
    by (vm_compute; reflexivity).
  assert (pasa_distancias ejemplo_fila_ieee = true) as C1
    by (vm_compute; reflexivity).
  assert (pasa_distancias fila_ruta_abc_ieee = false) as C2
    by (vm_compute; reflexivity).
  assert (pasa_distancias fila_ruta_nan = true) as C3
    by (vm_compute; reflexivity).
  split; [vm_compute; reflexivity|]. split; [exact C3|].
  eexists. eexists. split; [apply aplicar_filtros_ok; reflexivity|].
  unfold df_ieee. cbn [rows List.filter n_final].
  rewrite A1, A2, A3. cbn [List.filter]. rewrite B1, B2, B3.
  cbn [List.filter]. rewrite C1, C2, C3. cbn [List.filter map length].
  split; reflexivity.
Qed.

(** The ordering of the counts on [df_mixto]. *)
Lemma stats_monotonas_witness :
  trip_frame df_mixto = true /\
  exists out stats,
    aplicar_filtros df_mixto = Ok (out, stats) /\
    n_final stats
    <= n_inicial stats - n_filtrados_tiempo stats
       - n_filtrados_paraderos stats /\
    n_inicial stats - n_filtrados_tiempo stats <= n_inicial stats.
Proof.
  split; [reflexivity|].
  destruct (stats_monotonas df_mixto eq_refl)
    as (out & stats & E & H1 & _ & H3 & _).
  exists out, stats. split; [exact E|]. split; [exact H1|exact H3].
Defined.

(** One record retained out of three: [1 / 3 * 100] is the double
    [33.33333333333333], between 0 and 100. *)
Lemma pct_retenido_acotado_witness :
  trip_frame df_mixto = true /\
  rows df_mixto <> [] /\
  exists out stats x,
    aplicar_filtros df_mixto = Ok (out, stats) /\
    pct_retenido stats = NFloat x /\
    SFleb Ieee.cero x = true /\ SFleb x Ieee.cien = true /\
    (0 <= Ieee.valor x)%Q /\ (Ieee.valor x <= 100)%Q.
Proof.
  split; [reflexivity|]. split; [discriminate|].
  destruct (pct_retenido_acotado df_mixto eq_refl)
    as (out & stats & E & H1 & _).
  destruct (H1 ltac:(discriminate))
    as (x & _ & Ex & _ & H0 & H100 & V0 & V100).
  exists out, stats, x. repeat (split; [assumption|]). exact V100.
Defined.

(** The double of [1 / 3 * 100]. *)
Example pct_de_un_tercio :
  pct_de 1 3 = NFloat (S754_finite false 4691249611844266 (-47)).
Proof. vm_compute. reflexivity. Qed.

(** The empty partition: no rows out, [pct_retenido] the integer 0. *)
Example pct_de_la_particion_vacia :
  exists out stats,
    aplicar_filtros df_vacio = Ok (out, stats) /\
    pct_retenido stats = NInt 0 /\ rows out = [].
Proof.
  eexists. eexists. split; [apply aplicar_filtros_ok; reflexivity|].
  split; reflexivity.
Qed.

(** The counts of [df_mixto] add up. *)
Lemma stats_particionan_witness :
  trip_frame df_mixto = true /\
  exists out stats,
    aplicar_filtros df_mixto = Ok (out, stats) /\
    n_inicial stats
    = n_filtrados_tiempo stats + n_filtrados_paraderos stats
      + n_filtrados_dist stats + n_final stats /\
    n_final stats = len out.
Proof.
  split; [reflexivity|].
  destruct (stats_particionan df_mixto eq_refl)
    as (out & stats & E & H1 & _ & H3).
  exists out, stats. split; [exact E|]. split; [exact H1|exact H3].
Defined.

(** C5, the claim as written fails: on the one-record frame of the
    example the returned schema is the input schema followed by the three
    derived columns, so it differs from the input schema, and the returned
    record carries [t_vehiculo_total_seg = 150]. *)
Lemma salida_conserva_derivadas :
  trip_frame ejemplo_df = true /\
  exists out stats,
    aplicar_filtros ejemplo_df = Ok (out, stats) /\
    columns out
    = (ejemplo_cols ++ ["t_vehiculo_total_seg"; "t_total_calculado_seg";
                        "d_vehiculo_eucl_total_m"])%list /\
    columns out <> columns ejemplo_df /\
    "t_vehiculo_total_seg" ∈ columns out /\
    exists r',
      rows out = [r'] /\
      r' !! "t_vehiculo_total_seg" = Some (VInt 150) /\
      r' !! "t_total_calculado_seg" = Some (VInt 160) /\
      r' !! "d_vehiculo_eucl_total_m" = Some (VInt 120).
Proof.
  assert (pasa_tiempo ejemplo_fila = true) as H1
    by (vm_compute; reflexivity).
  assert (pasa_paraderos ejemplo_fila = true) as H2
    by (vm_compute; reflexivity).
  assert (pasa_distancias ejemplo_fila = true) as H3
    by (vm_compute; reflexivity).
  split; [reflexivity|].
  eexists. eexists. split; [apply aplicar_filtros_ok; reflexivity|].
  cbn [columns rows ejemplo_df].
  split; [vm_compute; reflexivity|].
  split; [vm_compute; discriminate|].
  split; [apply list_elem_of_In; vm_compute; tauto|].
  exists (registro_salida ejemplo_fila).
  split.
  { cbn [List.filter]. rewrite H1. cbn [List.filter]. rewrite H2.
    cbn [List.filter]. rewrite H3. reflexivity. }
  repeat split; vm_compute; reflexivity.
Qed.

(** The schema returned for the one-record frame of the example. *)
Lemma esquema_salida_witness :
  trip_frame ejemplo_df = true /\
  exists out stats,
    aplicar_filtros ejemplo_df = Ok (out, stats) /\
    (forall c, c ∈ columnas_temporales -> c ∉ columns out) /\
    (forall c, c ∈ columnas_derivadas -> c ∈ columns out).
Proof.
  split; [reflexivity|].
  destruct (esquema_salida ejemplo_df eq_refl)
    as (out & stats & E & H1 & H2 & _).
  exists out, stats. split; [exact E|]. split; [exact H1|exact H2].
Defined.

(** With credentials and an existing output, partition (2025, 14) is
    skipped after two calls: the credentials and the existence check. *)
Lemma omite_si_existe_witness :
  credenciales (env_sano true) = Ok tt /\
  gfs_exists (env_sano true) (output_file particion_2025_14) = Ok true /\
  procesar_particion (env_sano true) particion_2025_14 false
  = (Devuelve (Skipped 2025 14),
     {| tabla := None; df := None; df_filtrado := None;
        traza := [EvCredenciales;
                  EvExists (output_file particion_2025_14)] |}).
Proof.
  split; [reflexivity|]. split; [reflexivity|].
  destruct (omite_si_existe (env_sano true) particion_2025_14
              eq_refl eq_refl) as [Hs _].
  exact Hs.
Defined.

(** The path of the output artifact of partition (2025, 14). *)
Example output_file_2025_14 :
  output_file particion_2025_14
  = "tesis-vonetto-datalake/lake/silver/viajes_limpios/iso_year=2025/iso_week=14/data-0.parquet".
Proof. vm_compute. reflexivity. Qed.

(** C7, the claim as written fails: the exception raised while acquiring
    the credentials is returned with the message
    ["Error de autenticación GCS: No se encontró ADC"], which does not
    include the traceback of that exception. *)
Lemma error_de_credenciales_sin_traza :
  credenciales env_sin_credenciales = Err adc_ausente /\
  fst (procesar_particion env_sin_credenciales particion_2025_14 false)
  = Devuelve (Error 2025 14 "Error de autenticación GCS: No se encontró ADC") /\
  ~ incluye "Error de autenticación GCS: No se encontró ADC"
      (format_exc env_sin_credenciales adc_ausente).
Proof.
  split; [reflexivity|]. split; [vm_compute; reflexivity|].
  intros Hinc%incluye_length. vm_compute in Hinc. lia.
Qed.

(** A run of two [success] results and a [skipped] one. *)
Lemma codigo_de_salida_del_lote_witness :
  main_credenciales env_main_ejemplo = Ok tt /\
  listar_particiones env_main_ejemplo
  = Ok [particion_2025_14; particion_2025_14] /\
  [particion_2025_14; particion_2025_14] <> [] /\
  (fst (main env_main_ejemplo) = 0 <->
   forall f,
     In f (as_completed env_main_ejemplo
             [particion_2025_14; particion_2025_14]) ->
     es_fallo f = false).
Proof.
  split; [reflexivity|]. split; [reflexivity|]. split; [discriminate|].
  apply (codigo_de_salida_del_lote env_main_ejemplo
           [particion_2025_14; particion_2025_14]);
    [reflexivity|reflexivity|discriminate].
Defined.

(** Two processed partitions and a skipped one: the totals are the sums
    of the two statistics. *)
Example totales_de_dos_particiones :
  main env_main_ejemplo
  = (0, Some {| g_n_inicial := 15; g_n_filtrados_tiempo := 2;
                g_n_filtrados_paraderos := 3; g_n_filtrados_dist := 3;
                g_n_final := 7; particiones_procesadas := 2;
                particiones_skipped := 1; particiones_fallidas := 0 |}).
Proof. reflexivity. Qed.

(* ===================================================================== *)
(** ** More on the partition filter *)
(* ===================================================================== *)

Lemma comprobar_columnas_casos (cols used : list string) :
  (comprobar_columnas cols used = Ok tt /\ forall c, c ∈ used -> c ∈ cols) \/
  (exists c, c ∈ used /\ (c ∉ cols) /\
             comprobar_columnas cols used = Err (ColumnNotFoundError c)).
Proof.
  induction used as [|c used IH]; simpl.
  - left. split; [reflexivity|]. intros c Hc. inversion Hc.
  - case_bool_decide as Hc.
    + destruct IH as [[E Hall] | (c' & Hin & Hout & E)].
      * left. split; [exact E|]. intros c' Hc'.
        apply elem_of_cons in Hc' as [-> | Hc']; auto.
      * right. exists c'. split; [right; exact Hin|]. split; assumption.
    + right. exists c. split; [left|]. split; [exact Hc|reflexivity].
Qed.

Lemma agregar_columnas_elem (cs cols : list string) c :
  c ∈ agregar_columnas cols cs -> c ∈ cols \/ c ∈ cs.
Proof.
  unfold agregar_columnas. revert cols.
  induction cs as [|c0 cs IH]; intros cols Hc; cbn [fold_left] in Hc.
  - left. exact Hc.
  - apply IH in Hc as [Hc | Hc].
    + unfold agregar_columna in Hc. case_bool_decide.
      * left. exact Hc.
      * apply elem_of_app in Hc as [Hc | Hc]; [left; exact Hc|].
        right. apply list_elem_of_singleton in Hc as ->. left.
    + right. right. exact Hc.
Qed.

Lemma agregar_columnas_presentes (cs cols : list string) :
  (forall c, c ∈ cs -> c ∈ cols) -> agregar_columnas cols cs = cols.
Proof.
  unfold agregar_columnas.
  induction cs as [|c cs IH]; intros Hcs; cbn [fold_left]; [reflexivity|].
  rewrite agregar_columna_present by (apply Hcs; left).
  apply IH. intros c' Hc'. apply Hcs. right. exact Hc'.
Qed.

Lemma sublist_filter_bool {A} (f : A -> bool) (l : list A) :
  sublist (List.filter f l) l.
Proof.
  induction l as [|x l IH]; simpl; [constructor|].
  destruct (f x); [apply sublist_skip|apply sublist_cons]; exact IH.
Qed.

Section MasFiltro.

Context {F : Type} `{Float64 F}.

Implicit Types (r : row F) (df : DataFrame F).

(** X1. Stage 2 on any frame that has the two stop columns, whatever
    their dtype: the schema is unchanged and exactly the records whose two
    stop identifiers are non-null are kept, in their order.  Without one
    of the two columns the stage raises [ColumnNotFoundError]. *)
Theorem etapa_paraderos_no_nulos df :
  ("paradero_inicio_viaje" ∈ columns df ->
   "paradero_fin_viaje" ∈ columns df ->
   etapa_paraderos df
   = Ok {| columns := columns df;
           rows := List.filter
                     (fun r =>
                        negb (v_is_null (cell r "paradero_inicio_viaje")) &&
                        negb (v_is_null (cell r "paradero_fin_viaje")))
                     (rows df) |}) /\
  ("paradero_inicio_viaje" ∉ columns df ->
   etapa_paraderos df
   = Err (ColumnNotFoundError "paradero_inicio_viaje")) /\
  ("paradero_inicio_viaje" ∈ columns df ->
   "paradero_fin_viaje" ∉ columns df ->
   etapa_paraderos df = Err (ColumnNotFoundError "paradero_fin_viaje")).
Proof.
  unfold etapa_paraderos, filter. cbn [columnas_usadas filtro_paraderos app].
  cbn [comprobar_columnas]. split; [|split].
  - intros Hi Hf. rewrite !bool_decide_eq_true_2 by assumption.
    cbn [res_bind].
    rewrite (filterM_res_ok _ pasa_paraderos)
      by (intros r _; apply mascara_filtro_paraderos).
    reflexivity.
  - intros Hi. rewrite bool_decide_eq_false_2 by assumption. reflexivity.
  - intros Hi Hf. rewrite bool_decide_eq_true_2 by assumption.
    rewrite bool_decide_eq_false_2 by assumption. reflexivity.
Qed.

(** The cells of a returned record, name by name. *)
Lemma registro_salida_lookup r c :
  registro_salida r !! c
  = if decide ("distancia_eucl_float" = c) then None
    else if decide ("distancia_ruta_float" = c) then None
    else if decide ("dveh_eucfinal" = c)
         then Some (dveh_eucfinal_imputado r)
    else if decide ("d_vehiculo_eucl_total_m" = c)
         then Some (VInt (d_vehiculo_eucl_total_m r))
    else if decide ("t_total_calculado_seg" = c)
         then Some (VInt (t_total_calculado_seg r))
    else if decide ("t_vehiculo_total_seg" = c)
         then Some (VInt (t_vehiculo_total_seg r))
    else r !! c.
Proof.
  unfold registro_salida, quitar, columnas_temporales, con_distancias,
    derivar, row. cbn [fold_left].
  rewrite !lookup_delete, !lookup_insert.
  repeat case_decide; try reflexivity; congruence.
Qed.

Lemma cell_registro_salida_otro r c :
  ~ In c columnas_escritas -> registro_salida r !! c = r !! c.
Proof.
  intros Hc. rewrite registro_salida_lookup.
  repeat case_decide; try reflexivity; subst; exfalso; apply Hc; en_lista.
Qed.

Lemma cell_registro_salida_final r :
  cell (registro_salida r) "dveh_eucfinal" = dveh_eucfinal_imputado r.
Proof. unfold cell. rewrite registro_salida_lookup. reflexivity. Qed.

(** The imputed value on a trip record that passes stage 3 is a positive
    integer. *)
Lemma pasa_distancias_final r :
  fila_viaje r = true -> pasa_distancias r = true ->
  exists z, dveh_eucfinal_imputado r = VInt z /\ 0 < z.
Proof.
  intros Hr Hp. rewrite (dveh_eucfinal_imputado_entero r Hr) in *.
  eexists. split; [reflexivity|].
  unfold pasa_distancias in Hp.
  apply andb_prop in Hp as [_ Hp].
  rewrite (dveh_eucfinal_imputado_entero r Hr) in Hp. simpl in Hp.
  apply Z.ltb_lt, Hp.
Qed.

(** What every returned record satisfies, over any Float64. *)
Lemma registros_devueltos_positivos df :
  trip_frame df = true ->
  exists out stats,
    aplicar_filtros df = Ok (out, stats) /\
    forall r', In r' (rows out) ->
      cell r' "paradero_inicio_viaje" <> VNull /\
      cell r' "paradero_fin_viaje" <> VNull /\
      (exists t, cell r' "t_vehiculo_total_seg" = VInt t /\ 0 < t) /\
      (exists t, cell r' "t_total_calculado_seg" = VInt t /\ 0 < t) /\
      (exists z, cell r' "dveh_eucfinal" = VInt z /\ 0 < z) /\
      positivo (v_cast_float64 (cell r' "distancia_ruta")) = true /\
      positivo (v_cast_float64 (cell r' "distancia_eucl")) = true.
Proof.
  intros Hdf. eexists. eexists. split; [apply aplicar_filtros_ok, Hdf|].
  cbn [rows]. intros r' Hr'. apply in_map_iff in Hr' as [r [<- Hr]].
  apply List.filter_In in Hr as [Hr H3].
  apply List.filter_In in Hr as [Hr H2].
  apply List.filter_In in Hr as [Hr H1].
  pose proof (trip_frame_rows df r Hdf Hr) as Hfila.
  unfold cell. rewrite !registro_salida_lookup.
  repeat (rewrite decide_False by discriminate).
  rewrite !decide_True by reflexivity. cbn [default].
  fold (cell r "paradero_inicio_viaje") (cell r "paradero_fin_viaje")
       (cell r "distancia_ruta") (cell r "distancia_eucl").
  unfold pasa_paraderos in H2. apply andb_prop in H2 as [H2a H2b].
  unfold pasa_tiempo in H1. apply andb_prop in H1 as [H1a H1b].
  pose proof (pasa_distancias_final r Hfila H3) as Hz.
  unfold pasa_distancias in H3. apply andb_prop in H3 as [H3 _].
  apply andb_prop in H3 as [H3a H3b].
  split; [intros E; rewrite E in H2a; discriminate|].
  split; [intros E; rewrite E in H2b; discriminate|].
  split; [eexists; split; [reflexivity|apply Z.ltb_lt, H1a]|].
  split; [eexists; split; [reflexivity|apply Z.ltb_lt, H1b]|].
  split; [exact Hz|]. split; assumption.
Qed.

(** X3. The filter selects and annotates, it does not reorder or edit:
    the returned records come from a sublist of the input records, in
    order; each agrees with its input record on every column the filter
    does not write to, and keeps a [dveh_eucfinal] that was not null. *)
Theorem registros_devueltos_intactos df :
  trip_frame df = true ->
  exists out stats l,
    aplicar_filtros df = Ok (out, stats) /\
    sublist l (rows df) /\
    rows out = map registro_salida l /\
    (forall r c, ~ In c columnas_escritas ->
                 registro_salida r !! c = r !! c) /\
    (forall r, cell r "dveh_eucfinal" <> VNull ->
               cell (registro_salida r) "dveh_eucfinal"
               = cell r "dveh_eucfinal").
Proof.
  intros Hdf. eexists. eexists. eexists.
  split; [apply aplicar_filtros_ok, Hdf|]. cbn [rows].
  split; [|split; [reflexivity|split]].
  - etransitivity; [apply sublist_filter_bool|].
    etransitivity; apply sublist_filter_bool.
  - apply cell_registro_salida_otro.
  - intros r Hr. rewrite cell_registro_salida_final.
    unfold dveh_eucfinal_imputado.
    destruct (cell r "dveh_eucfinal"); [contradiction|reflexivity..].
Qed.

Lemma cell_registro_salida_no_escrita r c :
  ~ In c columnas_escritas -> cell (registro_salida r) c = cell r c.
Proof.
  intros Hc. unfold cell. rewrite cell_registro_salida_otro by exact Hc.
  reflexivity.
Qed.

Lemma suma_null_safe_ext r r' cs :
  (forall c, In c cs -> cell r' c = cell r c) ->
  suma_null_safe r' cs = suma_null_safe r cs.
Proof.
  induction cs as [|c cs IH]; intros Hcs; simpl; [reflexivity|].
  rewrite IH by (intros c' Hc'; apply Hcs; right; exact Hc').
  unfold z_cell. rewrite (Hcs c) by (left; reflexivity). reflexivity.
Qed.

Lemma suma_registro_salida r cs :
  (forall c, In c cs -> ~ In c columnas_escritas) ->
  suma_null_safe (registro_salida r) cs = suma_null_safe r cs.
Proof.
  intros Hcs. apply suma_null_safe_ext. intros c Hc.
  apply cell_registro_salida_no_escrita, Hcs, Hc.
Qed.

Ltac no_escrita :=
  let c := fresh "c" in
  let Hc := fresh "Hc" in
  let Hw := fresh "Hw" in
  intros c Hc Hw; simpl in Hc, Hw;
  decompose [or] Hc; subst; try contradiction;
  decompose [or] Hw; try discriminate; contradiction.

Lemma derivados_registro_salida r :
  t_vehiculo_total_seg (registro_salida r) = t_vehiculo_total_seg r /\
  t_total_calculado_seg (registro_salida r) = t_total_calculado_seg r /\
  d_vehiculo_eucl_total_m (registro_salida r) = d_vehiculo_eucl_total_m r.
Proof.
  unfold t_vehiculo_total_seg, t_total_calculado_seg,
    d_vehiculo_eucl_total_m, suma_int64.
  rewrite !suma_registro_salida by no_escrita. auto.
Qed.

Lemma dveh_eucfinal_imputado_no_nulo r :
  dveh_eucfinal_imputado r <> VNull.
Proof.
  unfold dveh_eucfinal_imputado.
  destruct (cell r "dveh_eucfinal") eqn:E; discriminate.
Qed.

Lemma imputado_registro_salida r :
  dveh_eucfinal_imputado (registro_salida r) = dveh_eucfinal_imputado r.
Proof.
  unfold dveh_eucfinal_imputado at 1. rewrite cell_registro_salida_final.
  pose proof (dveh_eucfinal_imputado_no_nulo r) as Hn.
  destruct (dveh_eucfinal_imputado r); [contradiction|reflexivity..].
Qed.

Lemma pasa_registro_salida r :
  pasa_tiempo (registro_salida r) = pasa_tiempo r /\
  pasa_paraderos (registro_salida r) = pasa_paraderos r /\
  pasa_distancias (registro_salida r) = pasa_distancias r.
Proof.
  destruct (derivados_registro_salida r) as (E1 & E2 & _).
  unfold pasa_tiempo, pasa_paraderos, pasa_distancias,
    distancia_ruta_float, distancia_eucl_float.
  rewrite E1, E2, imputado_registro_salida.
  rewrite !cell_registro_salida_no_escrita; [auto|..];
    simpl; intros Hw; decompose [or] Hw; try discriminate; contradiction.
Qed.

(** A returned record is a fixed point of the per-record transformation. *)
Lemma registro_salida_idem r :
  registro_salida (registro_salida r) = registro_salida r.
Proof.
  destruct (derivados_registro_salida r) as (E1 & E2 & E3).
  apply (map_eq (M := gmap string)). intros c.
  etransitivity; [apply registro_salida_lookup|].
  etransitivity; [|symmetry; apply registro_salida_lookup].
  rewrite E1, E2, E3, imputado_registro_salida.
  repeat case_decide; try reflexivity.
  etransitivity; [apply registro_salida_lookup|].
  repeat (rewrite decide_False by assumption). reflexivity.
Qed.

Lemma fila_viaje_registro_salida r :
  fila_viaje r = true -> fila_viaje (registro_salida r) = true.
Proof.
  intros Hr. unfold fila_viaje. apply forallb_forall. intros c Hc.
  destruct (decide (c = "dveh_eucfinal")) as [-> | Hne].
  - rewrite cell_registro_salida_final.
    rewrite (dveh_eucfinal_imputado_entero r Hr). reflexivity.
  - rewrite cell_registro_salida_no_escrita.
    + apply fila_viaje_col; assumption.
    + intros Hw. simpl in Hc, Hw.
      decompose [or] Hc; subst; try contradiction;
        decompose [or] Hw; try discriminate; try contradiction;
        congruence.
Qed.

Lemma columnas_salida_elem cols c :
  c ∈ columnas_salida cols <->
  (c ∈ cols \/ c ∈ columnas_derivadas) /\ (c ∉ columnas_temporales).
Proof.
  unfold columnas_salida. rewrite list_elem_of_In, List.filter_In.
  rewrite <- list_elem_of_In, negb_true_iff, bool_decide_eq_false.
  split; intros [Hc Hn]; (split; [|exact Hn]).
  - apply agregar_columnas_elem in Hc as [Hc | Hc]; [|contradiction].
    apply agregar_columnas_elem in Hc. exact Hc.
  - apply agregar_columnas_old.
    destruct Hc as [Hc | Hc];
      [apply agregar_columnas_old|apply agregar_columnas_new]; exact Hc.
Qed.

Lemma filter_filter_mismo {A} (f : A -> bool) (l : list A) :
  List.filter f (List.filter f l) = List.filter f l.
Proof.
  apply filter_todos. intros x Hx. apply List.filter_In in Hx as [_ Hx].
  exact Hx.
Qed.

Lemma columnas_salida_idem cols :
  columnas_salida (columnas_salida cols) = columnas_salida cols.
Proof.
  unfold columnas_salida at 1.
  rewrite (agregar_columnas_presentes columnas_derivadas).
  2:{ intros c Hc. apply columnas_salida_elem. split; [right; exact Hc|].
      intros Ht. apply list_elem_of_In in Hc, Ht. simpl in Hc, Ht.
      decompose [or] Hc; subst; try contradiction;
        decompose [or] Ht; try discriminate; contradiction. }
  rewrite agregar_columnas_fresh.
  - rewrite List.filter_app. unfold columnas_salida at 1.
    rewrite filter_filter_mismo. fold (columnas_salida cols).
    cbn. apply app_nil_r.
  - unfold columnas_temporales.
    repeat (apply NoDup_cons_2;
            [intros Hin%list_elem_of_In; simpl in Hin;
             decompose [or] Hin; try discriminate; contradiction|]).
    apply NoDup_nil_2.
  - intros c Hc Hin. apply list_elem_of_In, columnas_salida_elem in Hin.
    destruct Hin as [_ Hn]. apply Hn, list_elem_of_In, Hc.
Qed.

Lemma trip_frame_intro df :
  (forall c, In c columnas_requeridas -> c ∈ columns df) ->
  (forall r, In r (rows df) -> fila_viaje r = true) ->
  trip_frame df = true.
Proof.
  intros Hc Hr. unfold trip_frame. apply andb_true_intro. split.
  - apply forallb_forall. intros c Hin.
    apply bool_decide_eq_true_2, Hc, Hin.
  - apply forallb_forall. exact Hr.
Qed.

(** X4. Filtering is idempotent: on a trip frame, the frame the filter
    returns is again a trip frame, and filtering it returns it unchanged,
    with the three deltas 0 and [n_inicial = n_final]. *)
Theorem aplicar_filtros_idempotente df :
  trip_frame df = true ->
  exists out stats stats',
    aplicar_filtros df = Ok (out, stats) /\
    trip_frame out = true /\
    aplicar_filtros out = Ok (out, stats') /\
    n_inicial stats' = n_final stats /\
    n_filtrados_tiempo stats' = 0 /\
    n_filtrados_paraderos stats' = 0 /\
    n_filtrados_dist stats' = 0 /\
    n_final stats' = n_final stats.
Proof.
  intros Hdf.
  set (l3 := List.filter pasa_distancias
               (List.filter pasa_paraderos
                  (List.filter pasa_tiempo (rows df)))).
  set (out := {| columns := columnas_salida (columns df);
                 rows := map registro_salida l3 |}).
  assert (forall r, In r l3 ->
            fila_viaje r = true /\ pasa_tiempo r = true /\
            pasa_paraderos r = true /\ pasa_distancias r = true) as Hl3.
  { intros r Hr. unfold l3 in Hr.
    apply List.filter_In in Hr as [Hr H3].
    apply List.filter_In in Hr as [Hr H2].
    apply List.filter_In in Hr as [Hr H1].
    split; [apply (trip_frame_rows df r Hdf Hr)|auto]. }
  assert (trip_frame out = true) as Hout.
  { apply trip_frame_intro; cbn [columns rows out].
    - intros c Hc. apply columnas_salida_elem. split.
      + left. apply (trip_frame_cols df c Hdf), list_elem_of_In, Hc.
      + intros Ht%list_elem_of_In. simpl in Hc, Ht.
        decompose [or] Hc; subst; try contradiction;
          decompose [or] Ht; try discriminate; contradiction.
    - intros r' Hr'. apply in_map_iff in Hr' as [r [<- Hr]].
      apply fila_viaje_registro_salida, (Hl3 r Hr). }
  exists out. eexists. eexists.
  split; [apply aplicar_filtros_ok, Hdf|]. split; [exact Hout|].
  rewrite (aplicar_filtros_ok out Hout). cbn [rows columns out].
  assert (List.filter pasa_tiempo (map registro_salida l3)
          = map registro_salida l3) as E1.
  { apply filter_todos. intros r' Hr'.
    apply in_map_iff in Hr' as [r [<- Hr]].
    destruct (pasa_registro_salida r) as (-> & _). apply (Hl3 r Hr). }
  assert (List.filter pasa_paraderos (map registro_salida l3)
          = map registro_salida l3) as E2.
  { apply filter_todos. intros r' Hr'.
    apply in_map_iff in Hr' as [r [<- Hr]].
    destruct (pasa_registro_salida r) as (_ & -> & _). apply (Hl3 r Hr). }
  assert (List.filter pasa_distancias (map registro_salida l3)
          = map registro_salida l3) as E3.
  { apply filter_todos. intros r' Hr'.
    apply in_map_iff in Hr' as [r [<- Hr]].
    destruct (pasa_registro_salida r) as (_ & _ & ->). apply (Hl3 r Hr). }
  rewrite E1, E2, E3, columnas_salida_idem.
  rewrite map_map.
  rewrite (map_ext _ registro_salida) by (intros r; apply registro_salida_idem).
  fold out. split; [reflexivity|].
  cbn [n_inicial n_filtrados_tiempo n_filtrados_paraderos n_filtrados_dist
       n_final]. unfold len. cbn [rows out]. rewrite !length_map.
  repeat split; lia.
Qed.

(** X5. The filter works record by record: filtering two trip frames of
    one schema stacked gives the two filtered frames stacked, and each
    count of the statistics is the sum of the two counts. *)
Theorem aplicar_filtros_concat df1 df2 :
  trip_frame df1 = true -> trip_frame df2 = true ->
  columns df2 = columns df1 ->
  exists out1 s1 out2 s2 out s,
    aplicar_filtros df1 = Ok (out1, s1) /\
    aplicar_filtros df2 = Ok (out2, s2) /\
    aplicar_filtros (concat_vertical df1 df2) = Ok (out, s) /\
    out = concat_vertical out1 out2 /\
    columns out2 = columns out1 /\
    n_inicial s = n_inicial s1 + n_inicial s2 /\
    n_filtrados_tiempo s = n_filtrados_tiempo s1 + n_filtrados_tiempo s2 /\
    n_filtrados_paraderos s
    = n_filtrados_paraderos s1 + n_filtrados_paraderos s2 /\
    n_filtrados_dist s = n_filtrados_dist s1 + n_filtrados_dist s2 /\
    n_final s = n_final s1 + n_final s2.
Proof.
  intros H1 H2 Hcols.
  assert (trip_frame (concat_vertical df1 df2) = true) as H12.
  { apply trip_frame_intro; cbn [concat_vertical columns rows].
    - intros c Hc. apply (trip_frame_cols df1 c H1), list_elem_of_In, Hc.
    - intros r Hr. apply in_app_or in Hr as [Hr | Hr].
      + apply (trip_frame_rows df1 r H1 Hr).
      + apply (trip_frame_rows df2 r H2 Hr). }
  do 6 eexists.
  split; [apply aplicar_filtros_ok, H1|].
  split; [apply aplicar_filtros_ok, H2|].
  split; [apply aplicar_filtros_ok, H12|].
  cbn [concat_vertical columns rows n_inicial n_filtrados_tiempo
       n_filtrados_paraderos n_filtrados_dist n_final].
  rewrite !List.filter_app, map_app, Hcols.
  split; [reflexivity|]. split; [reflexivity|].
  unfold len. cbn [rows concat_vertical].
  rewrite ?List.filter_app, ?length_app.
  repeat split; lia.
Qed.

(** Stage 1 in closed form, asking only for the columns it reads. *)
Lemma etapa_tiempo_ok_gen df :
  (forall c, In c (tiempos_todos ++ tramos_eucl)%list -> c ∈ columns df) ->
  (forall r, In r (rows df) -> fila_viaje r = true) ->
  etapa_tiempo df
  = Ok {| columns := agregar_columnas (columns df) columnas_derivadas;
          rows := map derivar (List.filter pasa_tiempo (rows df)) |}.
Proof.
  intros Hcols Hrows. unfold etapa_tiempo, with_columns.
  rewrite comprobar_columnas_ok.
  2:{ intros c Hc. apply Hcols, list_elem_of_In.
      revert c Hc. apply elem_of_incl_dec. vm_compute. reflexivity. }
  cbn [res_bind].
  rewrite (mapM_res_ok _ derivar).
  2:{ intros r Hr. apply calculadas_fila, Hrows, Hr. }
  cbn [res_bind]. unfold filter. cbn [columns rows].
  rewrite comprobar_columnas_ok.
  2:{ intros c Hc. apply agregar_columnas_new.
      revert c Hc. apply elem_of_incl_dec. vm_compute. reflexivity. }
  cbn [res_bind].
  rewrite (filterM_res_map_ok _ derivar pasa_tiempo).
  2:{ intros r _. apply mascara_filtro_tiempo. }
  reflexivity.
Qed.

(** X6. A frame of trip records that lacks one of the columns the filter
    reads makes the filter raise [ColumnNotFoundError] for a required
    column that is missing, whatever the number of records, zero
    included. *)
Theorem columna_faltante df c :
  (forall r, In r (rows df) -> fila_viaje r = true) ->
  In c columnas_requeridas -> c ∉ columns df ->
  exists c',
    In c' columnas_requeridas /\ (c' ∉ columns df) /\
    aplicar_filtros df = Err (ColumnNotFoundError c').
Proof.
  intros Hrows Hc Hmiss.
  set (cols1 := agregar_columnas (columns df) columnas_derivadas).
  assert (forall c', c' ∉ cols1 -> c' ∉ columns df) as Hsub.
  { intros c' Hn Hin. apply Hn, agregar_columnas_old, Hin. }
  (* stage 1 *)
  destruct (comprobar_columnas_casos (columns df)
              (concat (map (fun ne => columnas_usadas (snd ne))
                         columnas_calculadas)))
    as [[E1 Hall1] | (c' & Hin & Hout & E1)].
  2:{ exists c'. split; [|split; [exact Hout|]].
      - apply list_elem_of_In.
        eapply elem_of_incl_dec; [|exact Hin]. vm_compute. reflexivity.
      - unfold aplicar_filtros, etapa_tiempo, with_columns.
        rewrite E1. reflexivity. }
  assert (etapa_tiempo df
          = Ok {| columns := cols1;
                  rows := map derivar (List.filter pasa_tiempo (rows df)) |})
    as Et.
  { apply etapa_tiempo_ok_gen; [|exact Hrows].
    intros c' Hc'. apply Hall1. apply list_elem_of_In in Hc'.
    revert c' Hc'. apply elem_of_incl_dec. vm_compute. reflexivity. }
  (* stage 2 *)
  destruct (comprobar_columnas_casos cols1
              (columnas_usadas filtro_paraderos))
    as [[E2 Hall2] | (c' & Hin & Hout & E2)].
  2:{ exists c'. split; [|split; [apply Hsub, Hout|]].
      - apply list_elem_of_In in Hin. simpl in Hin.
        decompose [or] Hin; subst; try contradiction; en_lista.
      - unfold aplicar_filtros. rewrite Et. cbn [res_bind].
        unfold etapa_paraderos, filter. cbn [columns]. rewrite E2.
        reflexivity. }
  assert ("paradero_inicio_viaje" ∈ cols1 /\ "paradero_fin_viaje" ∈ cols1)
    as [Hpi Hpf].
  { split; apply Hall2, list_elem_of_In; en_lista. }
  (* stage 3, imputation *)
  destruct (comprobar_columnas_casos cols1
              (concat (map (fun ne => columnas_usadas (snd ne))
                         imputar_dveh_eucfinal)))
    as [[E3 Hall3] | (c' & Hin & Hout & E3)].
  2:{ exists c'. split; [|split; [apply Hsub, Hout|]].
      - apply list_elem_of_In in Hin. simpl in Hin.
        decompose [or] Hin; subst; try contradiction; try en_lista.
        exfalso. apply Hout, agregar_columnas_new, list_elem_of_In. en_lista.
      - unfold aplicar_filtros. rewrite Et. cbn [res_bind].
        rewrite etapa_paraderos_ok by assumption. cbn [res_bind].
        unfold etapa_distancias, with_columns. cbn [columns]. rewrite E3.
        reflexivity. }
  assert ("dveh_eucfinal" ∈ cols1) as Hfin
    by (apply Hall3, list_elem_of_In; en_lista).
  (* stage 3, parsed distances *)
  destruct (comprobar_columnas_casos cols1
              (concat (map (fun ne => columnas_usadas (snd ne))
                         distancias_float)))
    as [[E4 Hall4] | (c' & Hin & Hout & E4)].
  2:{ exists c'. split; [|split; [apply Hsub, Hout|]].
      - apply list_elem_of_In in Hin. simpl in Hin.
        decompose [or] Hin; subst; try contradiction; en_lista.
      - unfold aplicar_filtros. rewrite Et. cbn [res_bind].
        rewrite etapa_paraderos_ok by assumption. cbn [res_bind].
        unfold etapa_distancias, with_columns. cbn [columns rows].
        rewrite E3. cbn [res_bind].
        rewrite (mapM_res_map_ok _ derivar
                   (fun r => <["dveh_eucfinal" := dveh_eucfinal_imputado r]>
                               (derivar r)))
          by (intros r _; apply imputar_fila).
        cbn [res_bind columns rows].
        assert (agregar_columnas cols1 (map fst imputar_dveh_eucfinal)
                = cols1) as ->.
        { simpl. apply agregar_columna_present, Hfin. }
        rewrite E4. reflexivity. }
  (* nothing is missing *)
  exfalso. apply Hmiss.
  assert (c ∈ cols1) as Hc1.
  { simpl in Hc.
    decompose [or] Hc; subst; try contradiction;
      first [ assumption
            | solve [apply Hall4, list_elem_of_In; en_lista]
            | solve [apply agregar_columnas_old, Hall1, list_elem_of_In;
                     en_lista] ]. }
  apply agregar_columnas_elem in Hc1 as [Hc1 | Hc1]; [exact Hc1|].
  exfalso. apply list_elem_of_In in Hc1. simpl in Hc, Hc1.
  decompose [or] Hc; subst; try contradiction;
    decompose [or] Hc1; try discriminate; contradiction.
Qed.

End MasFiltro.

Section MasFiltroIeee.

Context `{CastUtf8}.

(** X2. What every returned record satisfies, on a trip frame: its two
    stop identifiers are non-null, its two derived times and its
    [dveh_eucfinal] are integers greater than 0, and its route and
    euclidean distances cast to floats that are greater than zero in
    Polars' order: positive numbers, [+inf] or NaN. *)
Theorem registros_devueltos_validos (df : DataFrame spec_float) :
  trip_frame df = true ->
  exists out stats,
    aplicar_filtros df = Ok (out, stats) /\
    forall r', In r' (rows out) ->
      cell r' "paradero_inicio_viaje" <> VNull /\
      cell r' "paradero_fin_viaje" <> VNull /\
      (exists t, cell r' "t_vehiculo_total_seg" = VInt t /\ 0 < t) /\
      (exists t, cell r' "t_total_calculado_seg" = VInt t /\ 0 < t) /\
      (exists z, cell r' "dveh_eucfinal" = VInt z /\ 0 < z) /\
      (exists x, v_cast_float64 (cell r' "distancia_ruta") = VFloat x /\
                 mayor_que_cero x) /\
      (exists y, v_cast_float64 (cell r' "distancia_eucl") = VFloat y /\
                 mayor_que_cero y).
Proof.
  intros Hdf.
  destruct (registros_devueltos_positivos df Hdf) as (out & stats & E & Hr).
  exists out, stats. split; [exact E|]. intros r' Hin.
  destruct (Hr r' Hin) as (H1 & H2 & H3 & H4 & H5 & H6 & H7).
  repeat (split; [assumption|]).
  split; apply positivo_cast; assumption.
Qed.

End MasFiltroIeee.

(* ===================================================================== *)
(** ** More on the partition worker *)
(* ===================================================================== *)

Section MasWorker.

Context {F : Type} `{Float64 F}.

Implicit Types (env : Entorno F) (p : Particion) (st : Estado F).

(** Every way the worker can run: the calls on the world are taken one
    by one, each with its two outcomes. *)
Ltac casos_worker :=
  unfold procesar_particion, leer_filtrar_guardar, manejar_excepcion,
    bindW, llamar, puro, modificar, retW;
  repeat match goal with
         | |- context [match ?x with _ => _ end] =>
             lazymatch x with
             | context [match _ with _ => _ end] => fail
             | _ => destruct x eqn:?
             end
         | |- context [if ?x then _ else _] =>
             lazymatch x with
             | context [match _ with _ => _ end] => fail
             | context [if _ then _ else _] => fail
             | _ => destruct x eqn:?
             end
         | u : unit |- _ => destruct u
         end;
  cbn [fst snd tabla df df_filtrado traza registrar set_tabla set_df
       set_df_filtrado estado_inicial app].

(** What a [success] result says about the run. *)
Lemma success_pasos env p force_reprocess y w stats :
  fst (procesar_particion env p force_reprocess)
  = Devuelve (Success y w stats) ->
  y = year p /\ w = week p /\
  credenciales env = Ok tt /\
  exists existe t d out,
    gfs_exists env (output_file p) = Ok existe /\
    existe && negb force_reprocess = false /\
    open_input_file env (path p) = Ok tt /\
    read_table env (path p) = Ok t /\
    from_arrow env t = Ok d /\
    aplicar_filtros d = Ok (out, stats) /\
    gfs_makedirs env (output_partition p) = Ok tt /\
    gfs_open_wb env (output_file p) = Ok tt /\
    write_parquet env (output_file p) out = Ok tt.
Proof.
  casos_worker; try discriminate. intros [= <- <- <-].
  repeat split; try reflexivity.
  do 4 eexists. repeat split; eassumption.
Qed.

(** The calls of a run that ends in [success]. *)
Lemma traza_de_success env p force_reprocess y w stats :
  fst (procesar_particion env p force_reprocess)
  = Devuelve (Success y w stats) ->
  traza (snd (procesar_particion env p force_reprocess))
  = [EvCredenciales; EvExists (output_file p);
     EvOpenInputFile (path p); EvReadTable (path p);
     EvGcCollect; EvGcCollect;
     EvMakedirs (output_partition p); EvOpenOutput (output_file p);
     EvWriteParquet (output_file p); EvGcCollect].
Proof. casos_worker; try discriminate. intros _. reflexivity. Qed.

(** X7. The worker returns [skipped] in one case only: the credentials
    were acquired, the existence check answered true and
    [force_reprocess] is false.  With [force_reprocess] true, or with no
    output artifact, it never skips. *)
Theorem skipped_sii env p force_reprocess :
  (exists y w,
     fst (procesar_particion env p force_reprocess)
     = Devuelve (Skipped y w)) <->
  credenciales env = Ok tt /\
  gfs_exists env (output_file p) = Ok true /\
  force_reprocess = false.
Proof.
  split.
  - intros (y & w & E). revert E. casos_worker; try discriminate.
    intros _.
    repeat match goal with
           | Hb : ?b && negb ?f = true |- _ =>
               apply andb_prop in Hb as [-> Hb];
               apply negb_true_iff in Hb as ->
           end.
    auto.
  - intros (Hc & He & ->). exists (year p), (week p).
    unfold procesar_particion. rewrite Hc, He. reflexivity.
Qed.

(** X8. The worker returns [success] exactly when nothing was skipped
    and every step succeeded; the statistics it reports are those of the
    filter on the frame it read, the frame it writes to the output file of
    its partition is the one the filter returned, and the calls it made
    are, in order: credentials, existence check, open and read of the
    input, two collections, makedirs, open and write of the output, a
    last collection. *)
Theorem success_sii env p force_reprocess y w stats :
  (fst (procesar_particion env p force_reprocess)
   = Devuelve (Success y w stats) <->
   y = year p /\ w = week p /\
   credenciales env = Ok tt /\
   exists existe t d out,
     gfs_exists env (output_file p) = Ok existe /\
     existe && negb force_reprocess = false /\
     open_input_file env (path p) = Ok tt /\
     read_table env (path p) = Ok t /\
     from_arrow env t = Ok d /\
     aplicar_filtros d = Ok (out, stats) /\
     gfs_makedirs env (output_partition p) = Ok tt /\
     gfs_open_wb env (output_file p) = Ok tt /\
     write_parquet env (output_file p) out = Ok tt) /\
  (fst (procesar_particion env p force_reprocess)
   = Devuelve (Success y w stats) ->
   traza (snd (procesar_particion env p force_reprocess))
   = [EvCredenciales; EvExists (output_file p);
      EvOpenInputFile (path p); EvReadTable (path p);
      EvGcCollect; EvGcCollect;
      EvMakedirs (output_partition p); EvOpenOutput (output_file p);
      EvWriteParquet (output_file p); EvGcCollect]).
Proof.
  split; [split|].
  - apply success_pasos.
  - intros (-> & -> & Hc & existe & t & d & out &
            He & Hs & Ho & Hr & Hf & Ha & Hm & Hw & Hp).
    unfold procesar_particion, leer_filtrar_guardar, bindW, llamar, puro,
      modificar, retW.
    rewrite Hc, He, Hs, Ho. cbn [fst snd]. rewrite Hr. cbn [fst snd].
    rewrite Hf. cbn [fst snd]. rewrite Ha. cbn [fst snd].
    rewrite Hm. cbn [fst snd]. rewrite Hw. cbn [fst snd].
    rewrite Hp. reflexivity.
  - casos_worker; try discriminate. intros _. reflexivity.
Qed.

(** X9. A worker touches only the paths of its own partition, and the
    output location only once the input was read and filtered: every
    call on the input is on the descriptor's path, every call on the
    output is on the partition's own output directory or file, and if any
    of makedirs, open-for-write or write was made, then the read, the
    conversion and the filter had succeeded. *)
Theorem worker_solo_sus_rutas env p force_reprocess ev :
  In ev (traza (snd (procesar_particion env p force_reprocess))) ->
  match ev with
  | EvOpenInputFile f | EvReadTable f => f = path p
  | EvExists f | EvOpenOutput f | EvWriteParquet f => f = output_file p
  | EvMakedirs d => d = output_partition p
  | EvCredenciales | EvGcCollect => True
  end /\
  (toca_salida ev = true ->
   exists t d out stats,
     read_table env (path p) = Ok t /\
     from_arrow env t = Ok d /\
     aplicar_filtros d = Ok (out, stats)).
Proof.
  casos_worker; intros Hin; simpl in Hin;
    decompose [or] Hin; try contradiction; try discriminate;
    simplify_eq;
    (split; [first [reflexivity | exact I]|]);
    cbn [toca_salida]; intros Ht; try discriminate;
    do 4 eexists; repeat split; eassumption.
Qed.

End MasWorker.

(* ===================================================================== *)
(** ** The output path of a partition *)
(* ===================================================================== *)

Lemma append_inj_l (s t t' : string) : s ++ t = s ++ t' -> t = t'.
Proof. induction s as [|a s IH]; simpl; [auto|]. intros [= E]. auto. Qed.

Lemma append_inj_r (x s s' : string) : s ++ x = s' ++ x -> s = s'.
Proof.
  revert s'. induction s as [|a s IH]; intros [|a' s'] E.
  - reflexivity.
  - apply (f_equal String.length) in E.
    rewrite !length_append in E. simpl in E. lia.
  - apply (f_equal String.length) in E.
    rewrite !length_append in E. simpl in E. lia.
  - cbn [String.append] in E. injection E as -> E. f_equal. apply IH, E.
Qed.

(** Two strings cut at their first [c] agree piece by piece. *)
Lemma corte_unico (c : Ascii.ascii) (a a' t t' : string) :
  sin_caracter c a = true -> sin_caracter c a' = true ->
  a ++ String c t = a' ++ String c t' -> a = a' /\ t = t'.
Proof.
  revert a'. induction a as [|x a IH]; intros [|x' a'] Ha Ha' E;
    simpl in *.
  - injection E as ->. auto.
  - injection E as <- _. rewrite Ascii.eqb_refl in Ha'. discriminate.
  - injection E as -> _. rewrite Ascii.eqb_refl in Ha. discriminate.
  - injection E as -> E.
    apply andb_prop in Ha as [_ Ha]. apply andb_prop in Ha' as [_ Ha'].
    destruct (IH a' Ha Ha' E) as [-> ->]. auto.
Qed.

Lemma pretty_N_char_no_barra (x : N) :
  Ascii.eqb (pretty_N_char x) "/"%char = false.
Proof. unfold pretty_N_char. repeat case_match; reflexivity. Qed.

Lemma pretty_N_go_sin_barra (x : N) : forall s,
  sin_caracter "/"%char s = true -> sin_caracter "/"%char (pretty_N_go x s) = true.
Proof.
  induction (N.lt_wf_0 x) as [x _ IH]; intros s Hs.
  assert (x = 0 \/ 0 < x)%N as [-> | Hx] by lia.
  - rewrite pretty_N_go_0. exact Hs.
  - rewrite pretty_N_go_step by exact Hx. apply IH.
    + apply N.div_lt; lia.
    + simpl. rewrite pretty_N_char_no_barra. exact Hs.
Qed.

(** The decimal text of an integer has no slash. *)
Lemma pretty_Z_sin_barra (z : Z) : sin_caracter "/"%char (pretty z) = true.
Proof.
  assert (forall q : positive, sin_caracter "/"%char (pretty q) = true) as Hpos.
  { intros q. unfold pretty, pretty_positive, pretty, pretty_N.
    destruct (decide (N.pos q = 0%N)); [reflexivity|].
    apply pretty_N_go_sin_barra. reflexivity. }
  destruct z as [|q|q]; unfold pretty, pretty_Z.
  - reflexivity.
  - apply Hpos.
  - simpl. apply Hpos.
Qed.

Lemma output_partition_iny (p q : Particion) :
  output_partition p = output_partition q ->
  year p = year q /\ week p = week q.
Proof.
  unfold output_partition. intros E.
  apply append_inj_l in E.
  apply (append_inj_l "/iso_year=") in E.
  change ("/iso_week=" ++ pretty (week p))
    with (String "/"%char ("iso_week=" ++ pretty (week p))) in E.
  change ("/iso_week=" ++ pretty (week q))
    with (String "/"%char ("iso_week=" ++ pretty (week q))) in E.
  apply corte_unico in E as [Ey Ew]; try apply pretty_Z_sin_barra.
  apply append_inj_l in Ew.
  split; eapply (inj pretty); eassumption.
Qed.

Lemma output_file_iny (p q : Particion) :
  output_file p = output_file q -> year p = year q /\ week p = week q.
Proof.
  unfold output_file. intros E. apply append_inj_r in E.
  apply output_partition_iny, E.
Qed.

(** X10. Two partitions are written to the same output file exactly when
    they have the same year and the same week: distinct (year, week)
    pairs never share an output directory or file. *)
Theorem output_file_inyectivo (p q : Particion) :
  (output_file p = output_file q <-> year p = year q /\ week p = week q) /\
  (output_partition p = output_partition q <->
   year p = year q /\ week p = week q).
Proof.
  split; split.
  - apply output_file_iny.
  - unfold output_file, output_partition. intros [-> ->]. reflexivity.
  - apply output_partition_iny.
  - unfold output_partition. intros [-> ->]. reflexivity.
Qed.

Section SegundaPasada.

Context {F : Type} `{Float64 F}.

(** X20. A second pass skips what the first wrote, and nothing else:
    when a worker returned [success] for a partition, then in any world
    with credentials in which the files it wrote exist and the others are
    as they were, a worker without [force_reprocess] on the same partition
    returns [skipped] after the existence check alone, and the existence
    check of a partition of another (year, week) answers as before. *)
Theorem segunda_pasada_omite (env env' : Entorno F) (p q : Particion)
    (force_reprocess : bool) (y w : Z) (stats : Stats) :
  fst (procesar_particion env p force_reprocess)
  = Devuelve (Success y w stats) ->
  credenciales env' = Ok tt ->
  (forall f,
     In (EvWriteParquet f)
        (traza (snd (procesar_particion env p force_reprocess))) ->
     gfs_exists env' f = Ok true) ->
  (forall f,
     ~ In (EvWriteParquet f)
         (traza (snd (procesar_particion env p force_reprocess))) ->
     gfs_exists env' f = gfs_exists env f) ->
  procesar_particion env' p false
  = (Devuelve (Skipped (year p) (week p)),
     {| tabla := None; df := None; df_filtrado := None;
        traza := [EvCredenciales; EvExists (output_file p)] |}) /\
  (~ (year q = year p /\ week q = week p) ->
   gfs_exists env' (output_file q) = gfs_exists env (output_file q)).
Proof.
  intros Hs Hc Hw Ho.
  rewrite (traza_de_success _ _ _ _ _ _ Hs) in Hw, Ho. split.
  - unfold procesar_particion. rewrite Hc.
    rewrite (Hw (output_file p)) by (do 8 right; left; reflexivity).
    reflexivity.
  - intros Hq. apply Ho. intros Hin. apply Hq.
    apply output_file_iny.
    repeat (destruct Hin as [Hin | Hin];
            [first [discriminate Hin | congruence]|]).
    destruct Hin.
Qed.

End SegundaPasada.

(* ===================================================================== *)
(** ** More on the orchestrator *)
(* ===================================================================== *)

Lemma acumular_conmuta (g : StatsGlobales) (a b : Futuro) :
  acumular (acumular g a) b = acumular (acumular g b) a.
Proof.
  destruct a as [[? ? sa | ? ? | ? ? ?] | ?],
           b as [[? ? sb | ? ? | ? ? ?] | ?];
    cbn; f_equal; lia.
Qed.

Lemma fold_acumular_perm (fs fs' : list Futuro) :
  Permutation fs fs' ->
  forall g, fold_left acumular fs g = fold_left acumular fs' g.
Proof.
  induction 1 as [| f fs fs' _ IH | a b fs | fs1 fs2 fs3 _ IH1 _ IH2];
    intros g; cbn [fold_left].
  - reflexivity.
  - apply IH.
  - rewrite acumular_conmuta. reflexivity.
  - rewrite IH1. apply IH2.
Qed.

(** X11. The order in which the futures complete does not matter: any
    two orders of the same futures give the same [stats_globales], hence
    the same summary and the same exit status. *)
Theorem recorrer_orden_indiferente (fs fs' : list Futuro) :
  Permutation fs fs' ->
  recorrer fs = recorrer fs' /\
  codigo_salida (recorrer fs) = codigo_salida (recorrer fs').
Proof.
  intros Hp. unfold recorrer.
  rewrite (fold_acumular_perm fs fs' Hp). auto.
Qed.

Lemma cuenta_futuros (fs : list Futuro) :
  Z.of_nat (length (exitos fs)) + contar es_skipped fs + contar es_fallo fs
  = Z.of_nat (length fs).
Proof.
  unfold contar. induction fs as [|f fs IH]; [reflexivity|].
  destruct f as [[? ? s | ? ? | ? ? ?] | ?];
    cbn [exitos List.filter es_skipped es_fallo length]; lia.
Qed.

(** X12. Every future is counted once and in one counter only: after the
    loop, [particiones_procesadas + particiones_skipped +
    particiones_fallidas] is the number of futures, and the three
    counters are non-negative. *)
Theorem particiones_contadas (fs : list Futuro) :
  particiones_procesadas (recorrer fs) + particiones_skipped (recorrer fs)
  + particiones_fallidas (recorrer fs) = Z.of_nat (length fs) /\
  0 <= particiones_procesadas (recorrer fs) /\
  0 <= particiones_skipped (recorrer fs) /\
  0 <= particiones_fallidas (recorrer fs).
Proof.
  destruct (recorrer_desde fs stats_globales_inicial)
    as (_ & _ & _ & _ & _ & H6 & H7 & H8).
  fold (recorrer fs) in H6, H7, H8. cbn in H6, H7, H8.
  pose proof (cuenta_futuros fs). unfold contar in *. lia.
Qed.

Lemma suma_Z_cons (x : Z) (l : list Z) : suma_Z (x :: l) = x + suma_Z l.
Proof. reflexivity. Qed.

Lemma totales_conservan (ss : list Stats) :
  (forall s, In s ss ->
     n_inicial s
     = n_filtrados_tiempo s + n_filtrados_paraderos s
       + n_filtrados_dist s + n_final s /\
     0 <= n_filtrados_tiempo s /\ 0 <= n_filtrados_paraderos s /\
     0 <= n_filtrados_dist s /\ 0 <= n_final s) ->
  suma_Z (map n_inicial ss)
  = suma_Z (map n_filtrados_tiempo ss)
    + suma_Z (map n_filtrados_paraderos ss)
    + suma_Z (map n_filtrados_dist ss) + suma_Z (map n_final ss) /\
  0 <= suma_Z (map n_filtrados_tiempo ss) /\
  0 <= suma_Z (map n_filtrados_paraderos ss) /\
  0 <= suma_Z (map n_filtrados_dist ss) /\
  0 <= suma_Z (map n_final ss).
Proof.
  induction ss as [|s ss IH]; intros Hss.
  - cbn. lia.
  - cbn [map]. rewrite !suma_Z_cons.
    pose proof (Hss s (or_introl eq_refl)).
    specialize (IH (fun s' Hs' => Hss s' (or_intror Hs'))). lia.
Qed.

Section Lote.

Context {F : Type} `{Float64 F}.

(** The statistics a worker reports are those of a run of the filter. *)
Lemma stats_de_un_worker (env : Entorno F) p force y w stats :
  fst (procesar_particion env p force) = Devuelve (Success y w stats) ->
  exists d out, aplicar_filtros d = Ok (out, stats).
Proof.
  intros E. apply success_pasos in E.
  destruct E as (_ & _ & _ & existe & t & d & out & E).
  exists d, out. tauto.
Qed.

(** X13. Conservation at the level of the batch: when every future is
    what a worker returned or raised (or a crash of its process), the
    totals satisfy [n_inicial = n_filtrados_tiempo + n_filtrados_paraderos
    + n_filtrados_dist + n_final], every total is non-negative, and
    [n_final <= n_inicial]. *)
Theorem totales_del_lote_conservan (fs : list Futuro) :
  (forall f, In f fs ->
     (exists (env : Entorno F) p force,
        f = futuro_de (fst (procesar_particion env p force))) \/
     (exists e, f = Excepcion_de e)) ->
  g_n_inicial (recorrer fs)
  = g_n_filtrados_tiempo (recorrer fs)
    + g_n_filtrados_paraderos (recorrer fs)
    + g_n_filtrados_dist (recorrer fs) + g_n_final (recorrer fs) /\
  0 <= g_n_filtrados_tiempo (recorrer fs) /\
  0 <= g_n_filtrados_paraderos (recorrer fs) /\
  0 <= g_n_filtrados_dist (recorrer fs) /\
  0 <= g_n_final (recorrer fs) /\
  g_n_final (recorrer fs) <= g_n_inicial (recorrer fs).
Proof.
  intros Hfs.
  destruct (recorrer_desde fs stats_globales_inicial)
    as (H1 & H2 & H3 & H4 & H5 & _).
  fold (recorrer fs) in H1, H2, H3, H4, H5. cbn in H1, H2, H3, H4, H5.
  rewrite H1, H2, H3, H4, H5.
  assert (forall s, In s (exitos fs) ->
            exists d out, aplicar_filtros (F := F) d = Ok (out, s)) as Hex.
  { clear H1 H2 H3 H4 H5. induction fs as [|f fs IH]; [intros s []|].
    intros s Hs.
    assert (forall f', In f' fs ->
              (exists (env : Entorno F) p force,
                 f' = futuro_de (fst (procesar_particion env p force))) \/
              (exists e, f' = Excepcion_de e)) as Hfs'
      by (intros f' Hf'; apply Hfs; right; exact Hf').
    destruct f as [[y w s0 | y w | y w msg] | e]; cbn [exitos] in Hs;
      try (apply (IH Hfs' s Hs)).
    destruct Hs as [<- | Hs]; [|apply (IH Hfs' s Hs)].
    destruct (Hfs _ (or_introl eq_refl))
      as [(env & p & force & E) | (e & E)]; [|discriminate].
    destruct (fst (procesar_particion env p force)) as [r|e] eqn:Er;
      [|discriminate].
    cbn in E. injection E as <-.
    eapply stats_de_un_worker, Er. }
  destruct (totales_conservan (exitos fs)) as (T1 & T2 & T3 & T4 & T5).
  { intros s Hs. destruct (Hex s Hs) as (d & out & E).
    destruct (aplicar_filtros_stats d out s E)
      as (Ei & Ef & D1 & D2 & D3 & Eq).
    split; [exact Eq|]. split; [exact D1|]. split; [exact D2|].
    split; [exact D3|]. rewrite Ef. unfold len. lia. }
  lia.
Qed.

End Lote.

(* ===================================================================== *)
(** ** Credentials *)
(* ===================================================================== *)

Lemma getenv_verdadero_insert (e : gmap string string) (k v : string) :
  v <> EmptyString -> getenv_verdadero (<[k := v]> e) k = true.
Proof.
  intros Hv. unfold getenv_verdadero. rewrite lookup_insert_eq.
  destruct v; [contradiction|reflexivity].
Qed.

(** X14. When [enable_adc_crossplatform] returns, no variable other than
    [GOOGLE_APPLICATION_CREDENTIALS] has changed; a value of that variable
    that was set and not empty is left as it was, without any look at the
    file system; otherwise the variable now holds the platform's default
    credentials path, and that path exists. *)
Theorem enable_adc_postcondicion (s : Sistema) (e' : gmap string string) :
  enable_adc_crossplatform s = Ok e' ->
  (forall k, k <> GOOGLE_APPLICATION_CREDENTIALS ->
             e' !! k = environ s !! k) /\
  (getenv_verdadero (environ s) GOOGLE_APPLICATION_CREDENTIALS = true ->
   e' = environ s /\
   forall ex, enable_adc_crossplatform
                {| environ := environ s; platform := platform s;
                   path_exists := ex; path_join := path_join s;
                   expanduser := expanduser s |} = Ok e') /\
  (getenv_verdadero (environ s) GOOGLE_APPLICATION_CREDENTIALS = false ->
   exists p,
     adc_path s = Ok p /\ path_exists s p = true /\
     e' !! GOOGLE_APPLICATION_CREDENTIALS = Some p).
Proof.
  unfold enable_adc_crossplatform.
  destruct (getenv_verdadero (environ s) GOOGLE_APPLICATION_CREDENTIALS)
    eqn:Hset.
  - intros [= <-]. split; [auto|]. split; [|discriminate].
    intros _. split; [reflexivity|]. intros ex. cbn [environ].
    rewrite Hset. reflexivity.
  - destruct (adc_path s) as [p|e]; cbn [res_bind]; [|discriminate].
    destruct (path_exists s p) eqn:Hp; cbn [negb]; [|discriminate].
    intros [= <-]. split; [|split; [discriminate|]].
    + intros k Hk. apply lookup_insert_ne. congruence.
    + intros _. exists p. split; [reflexivity|]. split; [exact Hp|].
      apply lookup_insert_eq.
Qed.

(** X15. [enable_adc_crossplatform] is idempotent: after a call that
    returned, a second call returns at once and leaves [os.environ] as the
    first call left it, provided the empty path does not exist (as
    [os.path.exists("")] answers). *)
Theorem enable_adc_idempotente (s : Sistema) (e' : gmap string string) :
  path_exists s EmptyString = false ->
  enable_adc_crossplatform s = Ok e' ->
  getenv_verdadero e' GOOGLE_APPLICATION_CREDENTIALS = true /\
  enable_adc_crossplatform (con_environ s e') = Ok e'.
Proof.
  intros Hvacio E.
  assert (getenv_verdadero e' GOOGLE_APPLICATION_CREDENTIALS = true) as Hset.
  { revert E. unfold enable_adc_crossplatform.
    destruct (getenv_verdadero (environ s) GOOGLE_APPLICATION_CREDENTIALS)
      eqn:Hs.
    - intros [= <-]. exact Hs.
    - destruct (adc_path s) as [p|e]; cbn [res_bind]; [|discriminate].
      destruct (path_exists s p) eqn:Hp; cbn [negb]; [|discriminate].
      intros [= <-]. apply getenv_verdadero_insert.
      intros ->. congruence. }
  split; [exact Hset|].
  unfold enable_adc_crossplatform. cbn [con_environ environ].
  rewrite Hset. reflexivity.
Qed.

(* ===================================================================== *)
(** ** Discovery *)
(* ===================================================================== *)

Lemma mapM_res_Forall2 {A B} (f : A -> res B) (l : list A) (l' : list B) :
  mapM_res f l = Ok l' -> Forall2 (fun x y => f x = Ok y) l l'.
Proof.
  revert l'. induction l as [|x l IH]; intros l'; simpl.
  - intros [= <-]. constructor.
  - destruct (f x) as [y|e] eqn:E; simpl; [|discriminate].
    destruct (mapM_res f l) as [ys|e]; simpl; [|discriminate].
    intros [= <-]. constructor; [exact E|]. apply IH. reflexivity.
Qed.

Lemma mapM_res_falla {A B} (f : A -> res B) (l : list A) x e :
  In x l -> f x = Err e -> exists e', mapM_res f l = Err e'.
Proof.
  induction l as [|y l IH]; intros Hin Hx; [destruct Hin|].
  simpl. destruct Hin as [-> | Hin].
  - rewrite Hx. eauto.
  - destruct (f y); simpl; [|eauto].
    destruct (IH Hin Hx) as [e' ->]. eauto.
Qed.

Lemma mapM_res_In {A B} (f : A -> res B) (l : list A) (l' : list B) x :
  mapM_res f l = Ok l' -> In x l -> exists y, f x = Ok y /\ In y l'.
Proof.
  intros E. apply mapM_res_Forall2 in E.
  induction E as [|x0 y0 l l' Hx _ IH]; intros Hin; [destruct Hin|].
  destruct Hin as [<- | Hin].
  - exists y0. split; [exact Hx|left; reflexivity].
  - destruct (IH Hin) as (y & Hy & Hin'). exists y. split; [exact Hy|].
    right. exact Hin'.
Qed.

(** What is in the concatenation of the results of a [mapM_res]. *)
Lemma mapM_res_concat_In {A B} (f : A -> res (list B)) (l : list A)
    (ls : list (list B)) (b : B) :
  mapM_res f l = Ok ls ->
  (In b (concat ls) <-> exists x lb, In x l /\ f x = Ok lb /\ In b lb).
Proof.
  intros E. apply mapM_res_Forall2 in E.
  induction E as [|x lb l ls Hx _ IH]; simpl.
  - split; [intros []|intros (x & lb & [] & _)].
  - rewrite in_app_iff, IH. split.
    + intros [Hb | (x' & lb' & Hin & Hf & Hb)].
      * exists x, lb. auto.
      * exists x', lb'. auto.
    + intros (x' & lb' & [<- | Hin] & Hf & Hb).
      * left. rewrite Hx in Hf. injection Hf as <-. exact Hb.
      * right. exists x', lb'. auto.
Qed.

Section DescubrimientoProps.

Variable py_int : string -> res Z.

(** X16. What the discovery returns, exactly: a partition is listed if
    and only if it comes from a directory of the input root whose name
    contains ["iso_year="] and a directory of that one whose name contains
    ["iso_week="], its year and week are the integers read after the two
    markers, its path is that week directory followed by
    ["/data-0.parquet"], and that file exists. *)
Theorem descubrir_particiones_exacto (gfs : Lago) (ps : list Particion)
    (p : Particion) :
  descubrir_particiones py_int gfs = Ok ps ->
  (In p ps <->
   exists listado year_dir texto_y semanas week_dir texto_w,
     gfs_ls gfs INPUT_PATH = Ok listado /\
     In year_dir listado /\ contiene "iso_year=" year_dir = true /\
     split_1 "iso_year=" year_dir = Ok texto_y /\
     py_int texto_y = Ok (year p) /\
     gfs_ls gfs year_dir = Ok semanas /\
     In week_dir semanas /\ contiene "iso_week=" week_dir = true /\
     split_1 "iso_week=" week_dir = Ok texto_w /\
     py_int texto_w = Ok (week p) /\
     path p = week_dir ++ "/data-0.parquet" /\
     lago_exists gfs (path p) = Ok true).
Proof.
  unfold descubrir_particiones.
  destruct (gfs_ls gfs INPUT_PATH) as [listado|] eqn:El;
    cbn [res_bind]; [|discriminate].
  destruct (mapM_res _ (List.filter _ listado)) as [pss|] eqn:Ey;
    cbn [res_bind]; [|discriminate].
  intros [= <-]. rewrite (mapM_res_concat_In _ _ _ _ Ey). split.
  - intros (year_dir & lp & Hyd & Hf & Hp).
    apply List.filter_In in Hyd as [Hyd Hcy].
    unfold particiones_de_year in Hf.
    destruct (split_1 "iso_year=" year_dir) as [ty|] eqn:Ety;
      cbn [res_bind] in Hf; [|discriminate].
    destruct (py_int ty) as [y|] eqn:Ey';
      cbn [res_bind] in Hf; [|discriminate].
    destruct (gfs_ls gfs year_dir) as [semanas|] eqn:Es;
      cbn [res_bind] in Hf; [|discriminate].
    destruct (mapM_res _ (List.filter _ semanas)) as [pws|] eqn:Ew;
      cbn [res_bind] in Hf; [|discriminate].
    injection Hf as <-.
    apply (mapM_res_concat_In _ _ _ _ Ew) in Hp
      as (week_dir & lw & Hwd & Hfw & Hpw).
    apply List.filter_In in Hwd as [Hwd Hcw].
    unfold particiones_de_semana in Hfw.
    destruct (split_1 "iso_week=" week_dir) as [tw|] eqn:Etw;
      cbn [res_bind] in Hfw; [|discriminate].
    destruct (py_int tw) as [w|] eqn:Ew';
      cbn [res_bind] in Hfw; [|discriminate].
    destruct (lago_exists gfs _) as [[|]|] eqn:Ee;
      cbn [res_bind] in Hfw; [| |discriminate];
      injection Hfw as <-; [|destruct Hpw].
    destruct Hpw as [<- | []]. cbn [year week path].
    exists listado, year_dir, ty, semanas, week_dir, tw.
    repeat split; assumption.
  - intros (listado' & year_dir & ty & semanas & week_dir & tw &
            El' & Hyd & Hcy & Ety & Ey' & Es & Hwd & Hcw & Etw & Ew' &
            Hpath & Hex).
    injection El' as <-.
    assert (In year_dir (List.filter (contiene "iso_year=") listado))
      as Hyd' by (apply List.filter_In; auto).
    destruct (mapM_res_In _ _ _ _ Ey Hyd') as (lp & Hf & _).
    exists year_dir, lp. split; [exact Hyd'|]. split; [exact Hf|].
    unfold particiones_de_year in Hf.
    rewrite Ety in Hf. cbn [res_bind] in Hf. rewrite Ey' in Hf.
    cbn [res_bind] in Hf. rewrite Es in Hf. cbn [res_bind] in Hf.
    destruct (mapM_res _ (List.filter _ semanas)) as [pws|] eqn:Ew;
      cbn [res_bind] in Hf; [|discriminate].
    injection Hf as <-.
    apply (mapM_res_concat_In _ _ _ _ Ew).
    exists week_dir, [p]. split; [apply List.filter_In; auto|].
    split; [|left; reflexivity].
    unfold particiones_de_semana.
    rewrite Etw. cbn [res_bind]. rewrite Ew'. cbn [res_bind].
    rewrite <- Hpath, Hex. cbn [res_bind].
    destruct p as [y w pa]. cbn [year week path] in *. subst pa.
    reflexivity.
Qed.

End DescubrimientoProps.

(* ===================================================================== *)
(** ** Discovery: the text of the directory names *)
(* ===================================================================== *)

Lemma prefix_cons_ne (c a : ascii) (sep s : string) :
  Ascii.eqb a c = false -> String.prefix (String c sep) (String a s) = false.
Proof.
  intros H. simpl. destruct (Ascii.ascii_dec c a) as [->|]; [|reflexivity].
  rewrite Ascii.eqb_refl in H. discriminate.
Qed.

Lemma append_asociativa (a b c : string) : a ++ b ++ c = (a ++ b) ++ c.
Proof.
  induction a as [|x a IH]; [reflexivity|].
  change (String x (a ++ b ++ c) = String x ((a ++ b) ++ c)).
  rewrite IH. reflexivity.
Qed.

Lemma append_vacio_r (a : string) : a ++ EmptyString = a.
Proof.
  induction a as [|x a IH]; [reflexivity|].
  change (String x (a ++ EmptyString) = String x a). rewrite IH. reflexivity.
Qed.

Lemma prefix_app_refl (s t : string) : String.prefix s (s ++ t) = true.
Proof.
  induction s as [|a s IH]; [destruct t; reflexivity|].
  change (String a s ++ t) with (String a (s ++ t)). cbn [String.prefix].
  destruct (Ascii.ascii_dec a a); [exact IH|congruence].
Qed.

Lemma saltar_app (s t : string) : saltar (String.length s) (s ++ t) = t.
Proof. induction s as [|a s IH]; [reflexivity|exact IH]. Qed.

(** [sep] followed by anything: found at once. *)
Lemma buscar_prefijo (sep t : string) :
  buscar sep (sep ++ t) = Some (EmptyString, t).
Proof.
  destruct (sep ++ t) as [|a s] eqn:E; cbn [buscar];
    rewrite <- E, prefix_app_refl, saltar_app; reflexivity.
Qed.

Lemma prefix_app_incompatible (sep x r : string) :
  String.prefix sep x = false -> String.prefix x sep = false ->
  String.prefix sep (x ++ r) = false.
Proof.
  revert x. induction sep as [|c sep IH]; intros [|b x] H1 H2.
  - discriminate.
  - discriminate.
  - discriminate.
  - change (String b x ++ r) with (String b (x ++ r)).
    cbn [String.prefix] in *.
    destruct (Ascii.ascii_dec c b) as [->|]; [|reflexivity].
    destruct (Ascii.ascii_dec b b); [|congruence]. apply IH; assumption.
Qed.

Definition antepone (x : string) (r : option (string * string))
  : option (string * string) :=
  match r with
  | Some (a, b) => Some (x ++ a, b)
  | None => None
  end.

(** The search walks over a stretch in which no occurrence can begin. *)
Lemma buscar_salta (sep x r : string) :
  sin_comienzo sep x = true ->
  buscar sep (x ++ r) = antepone x (buscar sep r).
Proof.
  induction x as [|a x IH]; intros H.
  - change (EmptyString ++ r) with r.
    destruct (buscar sep r) as [[u v]|]; reflexivity.
  - cbn [sin_comienzo] in H.
    apply andb_prop in H as [H H3]. apply andb_prop in H as [H1 H2].
    apply negb_true_iff in H1, H2.
    pose proof (prefix_app_incompatible _ _ r H1 H2) as Hno.
    change (String a x ++ r) with (String a (x ++ r)) in *.
    cbn [buscar]. rewrite Hno. fold (buscar sep (x ++ r)).
    rewrite (IH H3). destruct (buscar sep r) as [[u v]|]; reflexivity.
Qed.

Lemma sin_caracter_sin_comienzo (c : ascii) (sep t : string) :
  sin_caracter c t = true -> sin_comienzo (String c sep) t = true.
Proof.
  induction t as [|a t IH]; intros H; [reflexivity|].
  cbn [sin_caracter] in H. apply andb_prop in H as [H0 H].
  apply negb_true_iff in H0.
  cbn [sin_comienzo]. rewrite (prefix_cons_ne _ _ _ _ H0), (IH H).
  cbn [String.prefix].
  destruct (Ascii.ascii_dec a c) as [->|]; [|reflexivity].
  rewrite Ascii.eqb_refl in H0. discriminate.
Qed.

Lemma buscar_sin_caracter (c : ascii) (sep s : string) :
  sin_caracter c s = true -> buscar (String c sep) s = None.
Proof.
  induction s as [|a s IH]; intros H; [reflexivity|].
  cbn [sin_caracter] in H. apply andb_prop in H as [H0 H].
  apply negb_true_iff in H0.
  cbn [buscar]. rewrite (prefix_cons_ne _ _ _ _ H0).
  fold (buscar (String c sep) s). rewrite (IH H). reflexivity.
Qed.

(** [s.split(sep)[1]] when [sep] occurs once. *)
Lemma split_1_hallado (sep s a t : string) :
  sep <> EmptyString ->
  buscar sep s = Some (a, t) -> buscar sep t = None ->
  split_1 sep s = Ok t.
Proof.
  intros Hsep Hs Ht. unfold split_1, py_split.
  destruct sep as [|c sep]; [contradiction|]. cbn [res_bind].
  destruct s as [|b s]; [discriminate|].
  cbn [String.length split_desde]. rewrite Hs.
  destruct (String.length s); cbn [split_desde]; [reflexivity|].
  rewrite Ht. reflexivity.
Qed.

(** [sep in s] implies that [s.split(sep)] has a second element. *)
Lemma split_1_de_contiene (sep s : string) :
  sep <> EmptyString -> contiene sep s = true ->
  exists t, split_1 sep s = Ok t.
Proof.
  intros Hsep Hc. unfold contiene in Hc.
  destruct (buscar sep s) as [[a t]|] eqn:Hs; [|discriminate].
  unfold split_1, py_split.
  destruct sep as [|c sep]; [contradiction|]. cbn [res_bind].
  destruct s as [|b s]; [discriminate|].
  cbn [String.length split_desde]. rewrite Hs.
  destruct (String.length s); cbn [split_desde]; [eauto|].
  destruct (buscar (String c sep) t) as [[u v]|]; eauto.
Qed.

Lemma pretty_N_char_no_i (x : N) :
  Ascii.eqb (pretty_N_char x) "i"%char = false.
Proof. unfold pretty_N_char. repeat case_match; reflexivity. Qed.

Lemma pretty_N_go_sin_i (x : N) : forall s,
  sin_caracter "i"%char s = true -> sin_caracter "i"%char (pretty_N_go x s) = true.
Proof.
  induction (N.lt_wf_0 x) as [x _ IH]; intros s Hs.
  assert (x = 0 \/ 0 < x)%N as [-> | Hx] by lia.
  - rewrite pretty_N_go_0. exact Hs.
  - rewrite pretty_N_go_step by exact Hx. apply IH.
    + apply N.div_lt; lia.
    + simpl. rewrite pretty_N_char_no_i. exact Hs.
Qed.

(** The decimal text of an integer has no letter [i]. *)
Lemma pretty_Z_sin_i (z : Z) : sin_caracter "i"%char (pretty z) = true.
Proof.
  assert (forall q : positive, sin_caracter "i"%char (pretty q) = true) as Hpos.
  { intros q. unfold pretty, pretty_positive, pretty, pretty_N.
    destruct (decide (N.pos q = 0%N)); [reflexivity|].
    apply pretty_N_go_sin_i. reflexivity. }
  destruct z as [|q|q]; unfold pretty, pretty_Z.
  - reflexivity.
  - apply Hpos.
  - simpl. apply Hpos.
Qed.

(** The year directory of the layout: the marker is found and the text
    after it is the year. *)
Lemma dir_year_leido (raiz : string) (y : Z) :
  sin_comienzo "iso_year=" (raiz ++ "/") = true ->
  contiene "iso_year=" (dir_year raiz y) = true /\
  split_1 "iso_year=" (dir_year raiz y) = Ok (pretty y).
Proof.
  intros Hraiz.
  assert (buscar "iso_year=" (dir_year raiz y)
          = Some (raiz ++ "/", pretty y)) as Hb.
  { unfold dir_year.
    change (raiz ++ "/iso_year=" ++ pretty y)
      with (raiz ++ "/" ++ "iso_year=" ++ pretty y).
    rewrite append_asociativa.
    rewrite (buscar_salta _ _ _ Hraiz), buscar_prefijo.
    cbn [antepone]. rewrite append_vacio_r. reflexivity. }
  split.
  - unfold contiene. rewrite Hb. reflexivity.
  - eapply split_1_hallado; [discriminate|exact Hb|].
    apply buscar_sin_caracter, pretty_Z_sin_i.
Qed.

(** The week directory of the layout: the marker is found and the text
    after it is the week. *)
Lemma dir_week_leido (raiz : string) (y w : Z) :
  sin_comienzo "iso_week=" (raiz ++ "/iso_year=") = true ->
  contiene "iso_week=" (dir_week raiz y w) = true /\
  split_1 "iso_week=" (dir_week raiz y w) = Ok (pretty w).
Proof.
  intros Hraiz.
  assert (buscar "iso_week=" (dir_week raiz y w)
          = Some (raiz ++ "/iso_year=" ++ pretty y ++ "/", pretty w))
    as Hb.
  { unfold dir_week.
    change (raiz ++ "/iso_year=" ++ pretty y ++ "/iso_week=" ++ pretty w)
      with (raiz ++ "/iso_year=" ++ pretty y ++ "/" ++ "iso_week=" ++ pretty w).
    rewrite (append_asociativa raiz).
    rewrite (buscar_salta _ _ _ Hraiz).
    rewrite (buscar_salta _ (pretty y))
      by apply sin_caracter_sin_comienzo, pretty_Z_sin_i.
    rewrite (buscar_salta "iso_week=" "/" _ eq_refl), buscar_prefijo.
    cbn [antepone]. rewrite append_vacio_r.
    rewrite <- !append_asociativa. reflexivity. }
  split.
  - unfold contiene. rewrite Hb. reflexivity.
  - eapply split_1_hallado; [discriminate|exact Hb|].
    apply buscar_sin_caracter, pretty_Z_sin_i.
Qed.

Lemma mapM_res_err_inv {A B} (f : A -> res B) (l : list A) e :
  mapM_res f l = Err e -> exists x, In x l /\ f x = Err e.
Proof.
  induction l as [|x l IH]; simpl; [discriminate|].
  destruct (f x) as [y|e0] eqn:E; simpl.
  - destruct (mapM_res f l) as [ys|e1]; simpl; [discriminate|].
    intros [= <-]. destruct (IH eq_refl) as (x' & Hin & Hx). eauto.
  - intros [= <-]. eauto.
Qed.

Lemma concat_map_si {A B} (g : A -> B) (b : A -> bool) (l : list A) :
  concat (map (fun x => if b x then [g x] else []) l)
  = map g (List.filter b l).
Proof.
  induction l as [|x l IH]; [reflexivity|].
  simpl. rewrite IH. destruct (b x); reflexivity.
Qed.

Section DescubrimientoTexto.

Variable py_int : string -> res Z.

(** X17. One directory name that cannot be read stops the whole batch:
    if a year directory of the input root, or a week directory of one of
    its year directories, carries the marker but the text after it is not
    an integer for [int], the listing raises, and [main] returns 1
    without handing any partition to the pool. *)
Theorem directorio_ilegible_aborta (gfs : Lago) (cred : res unit)
    (pool : list Particion -> list Futuro) (listado : list string)
    (year_dir : string) :
  gfs_ls gfs INPUT_PATH = Ok listado ->
  In year_dir listado -> contiene "iso_year=" year_dir = true ->
  ((exists t e, split_1 "iso_year=" year_dir = Ok t /\ py_int t = Err e) \/
   (exists semanas week_dir t e,
      gfs_ls gfs year_dir = Ok semanas /\
      In week_dir semanas /\ contiene "iso_week=" week_dir = true /\
      split_1 "iso_week=" week_dir = Ok t /\ py_int t = Err e)) ->
  (exists e, descubrir_particiones py_int gfs = Err e) /\
  main (entorno_main_de py_int gfs cred pool) = (1, None).
Proof.
  intros Hl Hin Hc Hmal.
  assert (exists e, particiones_de_year py_int gfs year_dir = Err e) as [e He].
  { unfold particiones_de_year.
    destruct Hmal as [(t & e & Ht & Hi)
                     | (semanas & week_dir & t & e & Hs & Hw & Hcw & Ht & Hi)].
    - rewrite Ht. cbn [res_bind]. rewrite Hi. cbn [res_bind]. eauto.
    - destruct (split_1 "iso_year=" year_dir) as [ty|];
        cbn [res_bind]; [|eauto].
      destruct (py_int ty) as [y|]; cbn [res_bind]; [|eauto].
      rewrite Hs. cbn [res_bind].
      destruct (mapM_res_falla (particiones_de_semana py_int gfs y)
                  (List.filter (contiene "iso_week=") semanas) week_dir e)
        as [e' ->]; [apply List.filter_In; auto| |cbn [res_bind]; eauto].
      unfold particiones_de_semana. rewrite Ht. cbn [res_bind].
      rewrite Hi. reflexivity. }
  assert (exists e', descubrir_particiones py_int gfs = Err e') as [e' He'].
  { unfold descubrir_particiones. rewrite Hl. cbn [res_bind].
    destruct (mapM_res_falla (particiones_de_year py_int gfs)
                (List.filter (contiene "iso_year=") listado) year_dir e)
      as [e' ->]; [apply List.filter_In; auto|exact He|].
    cbn [res_bind]. eauto. }
  split; [eauto|].
  unfold main, entorno_main_de. cbn [main_credenciales listar_particiones].
  rewrite He'. destruct cred; reflexivity.
Qed.

(** X18. When the listing raises, the exception is the one raised by a
    call to [gfs.ls], [int] or [gfs.exists] on a directory that carries
    the marker: the index [1] of the split never raises, since the
    directories kept contain the marker. *)
Theorem descubrimiento_falla_por (gfs : Lago) (e : exn) :
  descubrir_particiones py_int gfs = Err e ->
  gfs_ls gfs INPUT_PATH = Err e \/
  exists listado year_dir ty,
    gfs_ls gfs INPUT_PATH = Ok listado /\
    In year_dir listado /\ contiene "iso_year=" year_dir = true /\
    split_1 "iso_year=" year_dir = Ok ty /\
    (py_int ty = Err e \/
     exists y,
       py_int ty = Ok y /\
       (gfs_ls gfs year_dir = Err e \/
        exists semanas week_dir tw,
          gfs_ls gfs year_dir = Ok semanas /\
          In week_dir semanas /\ contiene "iso_week=" week_dir = true /\
          split_1 "iso_week=" week_dir = Ok tw /\
          (py_int tw = Err e \/
           exists w,
             py_int tw = Ok w /\
             lago_exists gfs (week_dir ++ "/data-0.parquet") = Err e))).
Proof.
  unfold descubrir_particiones.
  destruct (gfs_ls gfs INPUT_PATH) as [listado|e0] eqn:El; cbn [res_bind];
    [|intros [= <-]; left; reflexivity].
  destruct (mapM_res _ (List.filter _ listado)) as [pss|e0] eqn:Ey;
    cbn [res_bind]; [discriminate|].
  intros [= <-]. right.
  apply mapM_res_err_inv in Ey as (year_dir & Hyd & Hf).
  apply List.filter_In in Hyd as [Hyd Hcy].
  destruct (split_1_de_contiene "iso_year=" year_dir) as [ty Hty];
    [discriminate|exact Hcy|].
  exists listado, year_dir, ty. split; [reflexivity|].
  repeat (split; [assumption|]).
  unfold particiones_de_year in Hf. rewrite Hty in Hf. cbn [res_bind] in Hf.
  destruct (py_int ty) as [y|e1]; cbn [res_bind] in Hf;
    [|injection Hf as <-; left; reflexivity].
  right. exists y. split; [reflexivity|].
  destruct (gfs_ls gfs year_dir) as [semanas|e1]; cbn [res_bind] in Hf;
    [|injection Hf as <-; left; reflexivity].
  right.
  destruct (mapM_res _ (List.filter _ semanas)) as [pws|e1] eqn:Ew;
    cbn [res_bind] in Hf; [discriminate|].
  injection Hf as <-.
  apply mapM_res_err_inv in Ew as (week_dir & Hwd & Hfw).
  apply List.filter_In in Hwd as [Hwd Hcw].
  destruct (split_1_de_contiene "iso_week=" week_dir) as [tw Htw];
    [discriminate|exact Hcw|].
  exists semanas, week_dir, tw. split; [reflexivity|].
  repeat (split; [assumption|]).
  unfold particiones_de_semana in Hfw. rewrite Htw in Hfw.
  cbn [res_bind] in Hfw.
  destruct (py_int tw) as [w|e2]; cbn [res_bind] in Hfw;
    [|injection Hfw as <-; left; reflexivity].
  right. exists w. split; [reflexivity|].
  destruct (lago_exists gfs _) as [b|e3]; cbn [res_bind] in Hfw;
    [discriminate|]. injection Hfw as <-. reflexivity.
Qed.

(** X19. On a lake laid out as
    [<INPUT_PATH>/iso_year=<Y>/iso_week=<W>/data-0.parquet], the listing
    returns the partitions whose data file exists, years in the order of
    the root listing and weeks in the order of each year's listing, each
    with the year and week of its directory names and the path of its data
    file; entries of a listing that do not carry the marker are passed
    over. *)
Theorem descubre_layout (gfs : Lago) (listado : list string)
    (ys : list Z) (ws : Z -> list Z) (existe : Z -> Z -> bool) :
  gfs_ls gfs INPUT_PATH = Ok listado ->
  List.filter (contiene "iso_year=") listado = map (dir_year INPUT_PATH) ys ->
  (forall y, In y ys ->
     exists semanas,
       gfs_ls gfs (dir_year INPUT_PATH y) = Ok semanas /\
       List.filter (contiene "iso_week=") semanas
       = map (dir_week INPUT_PATH y) (ws y)) ->
  (forall y w, In y ys -> In w (ws y) ->
     lago_exists gfs (path (particion_de INPUT_PATH y w))
     = Ok (existe y w)) ->
  (forall y, In y ys -> py_int (pretty y) = Ok y) ->
  (forall y w, In y ys -> In w (ws y) -> py_int (pretty w) = Ok w) ->
  descubrir_particiones py_int gfs
  = Ok (flat_map
          (fun y => map (particion_de INPUT_PATH y)
                        (List.filter (existe y) (ws y)))
          ys).
Proof.
  intros Hl Hf Hs He Hiy Hiw.
  unfold descubrir_particiones. rewrite Hl. cbn [res_bind]. rewrite Hf.
  rewrite (mapM_res_map_ok _ _
             (fun y => map (particion_de INPUT_PATH y)
                           (List.filter (existe y) (ws y)))).
  - cbn [res_bind]. rewrite <- flat_map_concat_map. reflexivity.
  - intros y Hy. unfold particiones_de_year.
    destruct (dir_year_leido INPUT_PATH y) as [_ ->];
      [vm_compute; reflexivity|].
    cbn [res_bind]. rewrite (Hiy y Hy). cbn [res_bind].
    destruct (Hs y Hy) as (semanas & Hls & Hfil).
    rewrite Hls. cbn [res_bind]. rewrite Hfil.
    rewrite (mapM_res_map_ok _ _
               (fun w => if existe y w
                         then [particion_de INPUT_PATH y w] else [])).
    + cbn [res_bind]. rewrite concat_map_si. reflexivity.
    + intros w Hw. unfold particiones_de_semana.
      destruct (dir_week_leido INPUT_PATH y w) as [_ ->];
        [vm_compute; reflexivity|].
      cbn [res_bind]. rewrite (Hiw y w Hy Hw). cbn [res_bind].
      change (dir_week INPUT_PATH y w ++ "/data-0.parquet")
        with (path (particion_de INPUT_PATH y w)).
      rewrite (He y w Hy Hw). reflexivity.
Qed.

End DescubrimientoTexto.

(* ===================================================================== *)
(** ** The exit code of [main], every run *)
(* ===================================================================== *)

Lemma sin_fallidas (fs : list Futuro) :
  particiones_fallidas (recorrer fs) = 0 <->
  forall f, In f fs -> es_fallo f = false.
Proof.
  destruct (recorrer_desde fs stats_globales_inicial)
    as (_ & _ & _ & _ & _ & _ & _ & Hfall).
  fold (recorrer fs) in Hfall. rewrite Hfall.
  cbn [particiones_fallidas stats_globales_inicial Z.add]. unfold contar.
  split.
  - intros E f Hf. destruct (es_fallo f) eqn:Ef; [|reflexivity].
    assert (In f (List.filter es_fallo fs)) as Hin
      by (apply List.filter_In; auto).
    destruct (List.filter es_fallo fs); [destruct Hin|].
    cbn [length] in E. lia.
  - intros Hall. destruct (List.filter es_fallo fs) as [|f l] eqn:E;
      [reflexivity|].
    assert (In f (List.filter es_fallo fs)) as Hin
      by (rewrite E; left; reflexivity).
    apply List.filter_In in Hin as [Hin Hf].
    rewrite (Hall f Hin) in Hf. discriminate.
Qed.

(** X21. The exit code of [main] over all runs: it is 0 or 1, and it is 0
    exactly when the credentials were acquired, the listing did not raise,
    and either no partition was found or none of the futures of the
    partitions found ended in an [error] result or raised.  A run that
    stops before dispatch reports no totals. *)
Theorem codigo_de_salida_de_main (env : EntornoMain) :
  (fst (main env) = 0 \/ fst (main env) = 1) /\
  (fst (main env) = 0 <->
   exists ps,
     main_credenciales env = Ok tt /\
     listar_particiones env = Ok ps /\
     (ps = [] \/
      forall f, In f (as_completed env ps) -> es_fallo f = false)) /\
  (snd (main env) = None <->
   (exists e, main_credenciales env = Err e) \/
   (exists e, listar_particiones env = Err e) \/
   listar_particiones env = Ok []).
Proof.
  unfold main.
  destruct (main_credenciales env) as [[]|e0].
  2:{ cbn [fst snd]. split; [right; reflexivity|]. split.
      - split; [discriminate|]. intros (ps & Hc & _). discriminate.
      - split; [intros _; left; eauto|reflexivity]. }
  destruct (listar_particiones env) as [[|p0 ps]|e0].
  - cbn [fst snd]. split; [left; reflexivity|]. split.
    + split; [|reflexivity]. intros _. exists []. auto.
    + split; [intros _; right; right; reflexivity|reflexivity].
  - cbn [fst snd]. unfold codigo_salida.
    pose proof (sin_fallidas (as_completed env (p0 :: ps))) as Hsf.
    destruct (Z.eqb_spec
                (particiones_fallidas
                   (recorrer (as_completed env (p0 :: ps)))) 0) as [E | E].
    + split; [left; reflexivity|]. split.
      * split; [|reflexivity]. intros _. exists (p0 :: ps).
        split; [reflexivity|]. split; [reflexivity|]. right.
        apply Hsf, E.
      * split; [discriminate|].
        intros [(e & He) | [(e & He) | He]]; discriminate.
    + split; [right; reflexivity|]. split.
      * split; [discriminate|].
        intros (ps' & _ & [= <-] & [Hnil | Hall]); [discriminate|].
        exfalso. apply E, Hsf, Hall.
      * split; [discriminate|].
        intros [(e & He) | [(e & He) | He]]; discriminate.
  - cbn [fst snd]. split; [right; reflexivity|]. split.
    + split; [discriminate|]. intros (ps & _ & Hl & _). discriminate.
    + split; [intros _; right; left; eauto|reflexivity].
Qed.

(* ===================================================================== *)
(** ** The properties above on concrete inputs *)
(* ===================================================================== *)

Lemma registros_devueltos_validos_witness :
  trip_frame df_ieee = true /\
  exists out stats,
    aplicar_filtros df_ieee = Ok (out, stats) /\
    forall r', In r' (rows out) ->
      cell r' "paradero_inicio_viaje" <> VNull /\
      (exists z, cell r' "dveh_eucfinal" = VInt z /\ 0 < z) /\
      (exists x, v_cast_float64 (cell r' "distancia_ruta") = VFloat x /\
                 mayor_que_cero x).
Proof.
  split; [reflexivity|].
  destruct (registros_devueltos_validos df_ieee eq_refl)
    as (out & stats & E & Hr).
  exists out, stats. split; [exact E|]. intros r' Hin.
  destruct (Hr r' Hin) as (H1 & _ & _ & _ & H5 & H6 & _).
  repeat (split; [assumption|]). exact H6.
Defined.

Lemma registros_devueltos_intactos_witness :
  trip_frame df_mixto = true /\
  exists out stats l,
    aplicar_filtros df_mixto = Ok (out, stats) /\
    sublist l (rows df_mixto) /\
    rows out = map registro_salida l.
Proof.
  split; [reflexivity|].
  destruct (registros_devueltos_intactos df_mixto eq_refl)
    as (out & stats & l & E & Hs & Hr & _).
  exists out, stats, l. split; [exact E|]. split; assumption.
Defined.

Lemma aplicar_filtros_idempotente_witness :
  trip_frame df_mixto = true /\
  exists out stats stats',
    aplicar_filtros df_mixto = Ok (out, stats) /\
    aplicar_filtros out = Ok (out, stats') /\
    n_final stats' = n_final stats.
Proof.
  split; [reflexivity|].
  destruct (aplicar_filtros_idempotente df_mixto eq_refl)
    as (out & stats & stats' & E & _ & E' & _ & _ & _ & _ & Hn).
  exists out, stats, stats'. split; [exact E|]. split; assumption.
Defined.

Lemma aplicar_filtros_concat_witness :
  trip_frame df_mixto = true /\ trip_frame ejemplo_df = true /\
  columns ejemplo_df = columns df_mixto /\
  exists out1 s1 out2 s2 out s,
    aplicar_filtros df_mixto = Ok (out1, s1) /\
    aplicar_filtros ejemplo_df = Ok (out2, s2) /\
    aplicar_filtros (concat_vertical df_mixto ejemplo_df) = Ok (out, s) /\
    out = concat_vertical out1 out2 /\
    n_final s = n_final s1 + n_final s2.
Proof.
  split; [reflexivity|]. split; [reflexivity|]. split; [reflexivity|].
  destruct (aplicar_filtros_concat df_mixto ejemplo_df eq_refl eq_refl eq_refl)
    as (out1 & s1 & out2 & s2 & out & s & E1 & E2 & E & Ho & _ & _ & _ & _
        & _ & Hn).
  exists out1, s1, out2, s2, out, s. repeat (split; [assumption|]).
  exact Hn.
Defined.

Lemma columna_faltante_witness :
  In "tv3" columnas_requeridas /\ ("tv3" ∉ columns df_sin_tv3) /\
  exists c',
    In c' columnas_requeridas /\ (c' ∉ columns df_sin_tv3) /\
    aplicar_filtros df_sin_tv3 = Err (ColumnNotFoundError c').
Proof.
  assert (In "tv3" columnas_requeridas) as Hin
    by (vm_compute; tauto).
  assert ("tv3" ∉ columns df_sin_tv3) as Hno
    by (apply (bool_decide_unpack _); vm_compute; reflexivity).
  split; [exact Hin|]. split; [exact Hno|].
  apply (columna_faltante df_sin_tv3 "tv3");
    [intros r []|exact Hin|exact Hno].
Defined.

Lemma worker_solo_sus_rutas_witness :
  In (EvWriteParquet (output_file particion_2025_14))
     (traza (snd (procesar_particion (env_sano false) particion_2025_14
                    false))) /\
  exists t d out stats,
    read_table (env_sano false) (path particion_2025_14) = Ok t /\
    from_arrow (env_sano false) t = Ok d /\
    aplicar_filtros d = Ok (out, stats).
Proof.
  assert (In (EvWriteParquet (output_file particion_2025_14))
            (traza (snd (procesar_particion (env_sano false)
                           particion_2025_14 false)))) as Hin.
  { vm_compute. tauto. }
  split; [exact Hin|].
  apply (worker_solo_sus_rutas (env_sano false) particion_2025_14 false
           _ Hin).
  reflexivity.
Defined.

Lemma recorrer_orden_indiferente_witness :
  Permutation
    [Resultado_de (Success 2025 14 stats_a); Resultado_de (Skipped 2025 15)]
    [Resultado_de (Skipped 2025 15); Resultado_de (Success 2025 14 stats_a)]
  /\
  recorrer
    [Resultado_de (Success 2025 14 stats_a); Resultado_de (Skipped 2025 15)]
  = recorrer
      [Resultado_de (Skipped 2025 15); Resultado_de (Success 2025 14 stats_a)].
Proof.
  split; [apply perm_swap|].
  apply (recorrer_orden_indiferente
           [Resultado_de (Success 2025 14 stats_a);
            Resultado_de (Skipped 2025 15)]
           [Resultado_de (Skipped 2025 15);
            Resultado_de (Success 2025 14 stats_a)]).
  apply perm_swap.
Defined.

Lemma totales_del_lote_conservan_witness :
  g_n_inicial (recorrer futuros_de_tres_workers)
  = g_n_filtrados_tiempo (recorrer futuros_de_tres_workers)
    + g_n_filtrados_paraderos (recorrer futuros_de_tres_workers)
    + g_n_filtrados_dist (recorrer futuros_de_tres_workers)
    + g_n_final (recorrer futuros_de_tres_workers).
Proof.
  apply (totales_del_lote_conservan futuros_de_tres_workers).
  intros f [<- | [<- | [<- | []]]].
  - left. exists (env_sano false), particion_2025_14, false. reflexivity.
  - left. exists env_lectura_rota, particion_2025_14, false. reflexivity.
  - right. exists lectura_rota. reflexivity.
Defined.

Lemma enable_adc_postcondicion_witness :
  enable_adc_crossplatform sistema_linux
  = Ok (<[GOOGLE_APPLICATION_CREDENTIALS := adc_linux]>
          (environ sistema_linux)) /\
  (<[GOOGLE_APPLICATION_CREDENTIALS := adc_linux]> (environ sistema_linux)
   : gmap string string) !! "HOME"
  = environ sistema_linux !! "HOME".
Proof.
  split; [reflexivity|].
  destruct (enable_adc_postcondicion sistema_linux _ eq_refl) as [H _].
  apply H. discriminate.
Defined.

Lemma enable_adc_idempotente_witness :
  path_exists sistema_linux EmptyString = false /\
  enable_adc_crossplatform sistema_linux
  = Ok (<[GOOGLE_APPLICATION_CREDENTIALS := adc_linux]>
          (environ sistema_linux)) /\
  enable_adc_crossplatform
    (con_environ sistema_linux
       (<[GOOGLE_APPLICATION_CREDENTIALS := adc_linux]>
          (environ sistema_linux)))
  = Ok (<[GOOGLE_APPLICATION_CREDENTIALS := adc_linux]>
          (environ sistema_linux)).
Proof.
  split; [reflexivity|]. split; [reflexivity|].
  apply (enable_adc_idempotente sistema_linux _ eq_refl eq_refl).
Defined.

Lemma descubrir_particiones_exacto_witness :
  descubrir_particiones int_decimal lago_ejemplo
  = Ok [particion_de INPUT_PATH 2025 14] /\
  exists week_dir texto_w,
    contiene "iso_week=" week_dir = true /\
    split_1 "iso_week=" week_dir = Ok texto_w /\
    int_decimal texto_w = Ok 14 /\
    path (particion_de INPUT_PATH 2025 14) = week_dir ++ "/data-0.parquet".
Proof.
  assert (descubrir_particiones int_decimal lago_ejemplo
          = Ok [particion_de INPUT_PATH 2025 14]) as E
    by (vm_compute; reflexivity).
  split; [exact E|].
  destruct (proj1 (descubrir_particiones_exacto int_decimal lago_ejemplo
                     _ (particion_de INPUT_PATH 2025 14) E)
              (or_introl eq_refl))
    as (_ & _ & _ & _ & week_dir & tw & _ & _ & _ & _ & _ & _ & _ & Hc & Hs
        & Hi & Hp & _).
  exists week_dir, tw. repeat (split; [assumption|]). exact Hp.
Defined.

Lemma directorio_ilegible_aborta_witness :
  gfs_ls lago_ilegible INPUT_PATH
  = Ok [dir_year INPUT_PATH 2025; INPUT_PATH ++ "/iso_year=2025.bak"] /\
  split_1 "iso_year=" (INPUT_PATH ++ "/iso_year=2025.bak") = Ok "2025.bak" /\
  int_decimal "2025.bak" = Err (literal_invalido "2025.bak") /\
  main (entorno_main_de int_decimal lago_ilegible (Ok tt)
          (fun ps => map (fun p => Resultado_de (Skipped (year p) (week p)))
                         ps))
  = (1, None).
Proof.
  assert (split_1 "iso_year=" (INPUT_PATH ++ "/iso_year=2025.bak")
          = Ok "2025.bak") as Hs by (vm_compute; reflexivity).
  split; [reflexivity|]. split; [exact Hs|]. split; [reflexivity|].
  apply (directorio_ilegible_aborta int_decimal lago_ilegible (Ok tt) _
           [dir_year INPUT_PATH 2025; INPUT_PATH ++ "/iso_year=2025.bak"]
           (INPUT_PATH ++ "/iso_year=2025.bak")).
  - reflexivity.
  - right. left. reflexivity.
  - vm_compute. reflexivity.
  - left. exists "2025.bak", (literal_invalido "2025.bak").
    split; [exact Hs|reflexivity].
Defined.

Lemma descubrimiento_falla_por_witness :
  descubrir_particiones int_decimal lago_ilegible
  = Err (literal_invalido "2025.bak") /\
  (gfs_ls lago_ilegible INPUT_PATH = Err (literal_invalido "2025.bak") \/
   exists listado year_dir ty,
     gfs_ls lago_ilegible INPUT_PATH = Ok listado /\
     In year_dir listado /\ contiene "iso_year=" year_dir = true /\
     split_1 "iso_year=" year_dir = Ok ty).
Proof.
  assert (descubrir_particiones int_decimal lago_ilegible
          = Err (literal_invalido "2025.bak")) as E
    by (vm_compute; reflexivity).
  split; [exact E|].
  destruct (descubrimiento_falla_por int_decimal lago_ilegible _ E)
    as [H | (listado & year_dir & ty & H1 & H2 & H3 & H4 & _)].
  - left. exact H.
  - right. exists listado, year_dir, ty. repeat (split; [assumption|]).
    exact H4.
Defined.

Lemma descubre_layout_witness :
  gfs_ls lago_ejemplo INPUT_PATH
  = Ok [INPUT_PATH ++ "/_SUCCESS"; dir_year INPUT_PATH 2025] /\
  descubrir_particiones int_decimal lago_ejemplo
  = Ok [particion_de INPUT_PATH 2025 14].
Proof.
  split; [reflexivity|].
  apply (descubre_layout int_decimal lago_ejemplo
           [INPUT_PATH ++ "/_SUCCESS"; dir_year INPUT_PATH 2025]
           [2025] (fun _ => [14; 15]) (fun _ w => w =? 14)).
  - reflexivity.
  - vm_compute. reflexivity.
  - intros y [<- | []].
    exists [dir_week INPUT_PATH 2025 14; dir_week INPUT_PATH 2025 15].
    split; vm_compute; reflexivity.
  - intros y w [<- | []] [<- | [<- | []]]; vm_compute; reflexivity.
  - intros y [<- | []]. vm_compute. reflexivity.
  - intros y w [<- | []] [<- | [<- | []]]; vm_compute; reflexivity.
Defined.

Lemma segunda_pasada_omite_witness :
  procesar_particion env_tras_2025_14 particion_2025_14 false
  = (Devuelve (Skipped 2025 14),
     {| tabla := None; df := None; df_filtrado := None;
        traza := [EvCredenciales;
                  EvExists (output_file particion_2025_14)] |}).
Proof.
  pose proof (traza_de_success _ _ _ _ _ _ worker_success) as Htr.
  destruct (segunda_pasada_omite (env_sano false) env_tras_2025_14
              particion_2025_14 particion_2025_14 false _ _ _
              worker_success eq_refl)
    as [Hr _]; [| |exact Hr].
  - intros f Hin. rewrite Htr in Hin.
    assert (f = output_file particion_2025_14) as ->.
    { repeat (destruct Hin as [Hin | Hin];
              [first [discriminate Hin | congruence]|]).
      destruct Hin. }
    cbn [gfs_exists env_tras_2025_14].
    rewrite String.eqb_refl. reflexivity.
  - intros f Hno. cbn [gfs_exists env_tras_2025_14 env_sano].
    destruct (String.eqb_spec f (output_file particion_2025_14))
      as [-> | _]; [|reflexivity].
    exfalso. apply Hno. rewrite Htr. do 8 right. left. reflexivity.
Defined.
